(** * Keyboard Music Lab: note synthesis engine and render cache

    A shallow embedding of [music.py]: the pitch mapper, the waveform
    generators, the ADSR envelope, the instrument synthesizer, the memoised
    sound cache and the note-on / note-off part of the event loop.

    Numbers.  A time in seconds (the duration of a note, the attack, decay
    and release of an envelope) is a Python float, that is a binary64 number
    ([PrimFloat.float]): the program turns it into a sample count with
    [int(x * SAMPLE_RATE)], and the rounding of that product decides the
    count ([0.35 * 44100] is [15434.999999999998]).  Sample values,
    frequencies and the volume are read as real numbers with exact
    arithmetic; statements about them are made where the rounding of float32
    operations does not decide them.  Sample counts, indices, key codes and
    16-bit samples are integers ([Z]).  One-dimensional arrays are lists.

    Failure.  Python exceptions are values of [Py.result]; an exception that
    the source does not catch propagates through the monadic bind. *)

From Stdlib Require Import PrimFloat FloatOps SpecFloat.
From Stdlib Require Uint63.
From stdpp Require Import strings pretty gmap.
From Stdlib Require Import Reals Zfloor Lra Lia.

Set Warnings "-inexact-float".

#[global] Instance R_eq_dec : EqDecision R := Req_dec_T.

(** ** Python scalars and exceptions *)

Module Py.

Inductive exn : Set :=
| ValueError
| IndexError
| OverflowError.

Inductive result (A : Type) : Type :=
| Ok (a : A)
| Raise (e : exn).

Arguments Ok {A} a.
Arguments Raise {A} e.

#[global] Instance result_ret : MRet result := @Ok.

#[global] Instance result_bind : MBind result :=
  fun A B (k : A -> result B) (m : result A) =>
    match m with
    | Ok a => k a
    | Raise e => Raise e
    end.

#[global] Instance result_fmap : FMap result :=
  fun A B (f : A -> B) (m : result A) =>
    match m with
    | Ok a => Ok (f a)
    | Raise e => Raise e
    end.

(** A [for] loop whose body may raise. *)
Fixpoint for_each {A S : Type} (body : S -> A -> result S) (st : S)
    (xs : list A) : result S :=
  match xs with
  | [] => Ok st
  | x :: xs' => st' ← body st x; for_each body st' xs'
  end.

(** [xs[i]] on a list: negative indices count from the end, an index
    outside the list is an [IndexError]. *)
Definition list_getitem {A : Type} (xs : list A) (i : Z) : result A :=
  let len := Z.of_nat (length xs) in
  let j := if (i <? 0)%Z then (i + len)%Z else i in
  match (if (0 <=? j)%Z then xs !! Z.to_nat j else None) with
  | Some x => Ok x
  | None => Raise IndexError
  end.

(** The float of an integer; exact below [2^53], and the program converts
    only [SAMPLE_RATE]. *)
Definition float_of_int (z : Z) : float :=
  if (z <? 0)%Z then PrimFloat.opp (of_uint63 (Uint63.of_Z (- z)))
  else of_uint63 (Uint63.of_Z z).

(** [int(x)] on a binary64 float: truncation toward zero; a NaN is a
    [ValueError] and an infinity an [OverflowError]. *)
Definition int_of_float (x : float) : result Z :=
  match Prim2SF x with
  | S754_zero _ => Ok 0%Z
  | S754_finite s m e =>
      let z := (if (0 <=? e)%Z then Z.pos m * 2 ^ e
                else Z.pos m / 2 ^ (- e))%Z in
      Ok (if s then (- z)%Z else z)
  | S754_infinity _ => Raise OverflowError
  | S754_nan => Raise ValueError
  end.

(** [round(x)] on a binary64 float: the nearest integer, ties to the even
    neighbour. *)
Definition round_of_float (x : float) : result Z :=
  match Prim2SF x with
  | S754_zero _ => Ok 0%Z
  | S754_finite s m e =>
      let z :=
        (if (0 <=? e)%Z then Z.pos m * 2 ^ e
         else
           let q := Z.pos m / 2 ^ (- e) in
           let rest := 2 * (Z.pos m mod 2 ^ (- e)) in
           if rest <? 2 ^ (- e) then q
           else if 2 ^ (- e) <? rest then q + 1
           else if Z.even q then q else q + 1)%Z in
      Ok (if s then (- z)%Z else z)
  | S754_infinity _ => Raise OverflowError
  | S754_nan => Raise ValueError
  end.

(** Truncation toward zero of a sample value read as a real number. *)
Definition int (x : R) : Z :=
  if Rle_dec 0 x then Zfloor x else Zceil x.

(** Nearest integer, ties to the even neighbour. *)
Definition round_half_even (x : R) : Z :=
  let f := Zfloor x in
  if Rlt_dec (x - IZR f) (1 / 2) then f
  else if Rlt_dec (1 / 2) (x - IZR f) then (f + 1)%Z
  else if Z.even f then f else (f + 1)%Z.

(** [round(x, ndigits)]. *)
Definition round (x : R) (ndigits : nat) : R :=
  (IZR (round_half_even (x * 10 ^ ndigits)) / 10 ^ ndigits)%R.

End Py.

(** ** The NumPy operations the program uses *)

Module Np.
Import Py.

Definition ndarray : Type := list R.

(** [np.zeros(n)]: a negative dimension is rejected. *)
Definition zeros (n : Z) : result ndarray :=
  if (n <? 0)%Z then Raise ValueError else Ok (repeat 0%R (Z.to_nat n)).

(** [np.arange(n)]: [0, 1, ..., n-1], empty when [n <= 0]. *)
Definition arange (n : Z) : ndarray :=
  map INR (seq 0 (Z.to_nat n)).

(** [np.linspace(start, stop, num, endpoint)] for [num >= 0]: [num] evenly
    spaced samples, the step being [(stop - start) / div] with [div = num]
    without the end point and [div = num - 1] with it. *)
Definition linspace (start stop : R) (num : Z) (endpoint : bool) : ndarray :=
  let div := if endpoint then (num - 1)%Z else num in
  let delta := (stop - start)%R in
  if (0 <? div)%Z
  then map (fun i => start + i * (delta / IZR div))%R (arange num)
  else map (fun i => start + i * delta)%R (arange num).

(** A slice bound is folded into [0 .. len]: negative bounds count from the
    end, bounds past the end stop at the end. *)
Definition clamp_index (len i : Z) : Z :=
  if (i <? 0)%Z then Z.max 0 (i + len) else Z.min i len.

Definition slice_bounds (x : ndarray) (lo hi : Z) : nat * nat :=
  let len := Z.of_nat (length x) in
  let b := clamp_index len lo in
  let e := Z.max b (clamp_index len hi) in
  (Z.to_nat b, Z.to_nat e).

Definition splice (x : ndarray) (b e : nat) (v : ndarray) : ndarray :=
  take b x ++ v ++ drop e x.

(** [x[lo:hi]]. *)
Definition getslice (x : ndarray) (lo hi : Z) : ndarray :=
  let '(b, e) := slice_bounds x lo hi in
  take (e - b) (drop b x).

(** [x[lo:hi] = v] for an array [v]: the shapes must agree, except that a
    one-element [v] is broadcast over the slice; any other mismatch is a
    [ValueError] (could not broadcast input array). *)
Definition setslice (x : ndarray) (lo hi : Z) (v : ndarray) : result ndarray :=
  let '(b, e) := slice_bounds x lo hi in
  if decide (length v = (e - b)%nat) then Ok (splice x b e v)
  else match v with
       | [c] => Ok (splice x b e (repeat c (e - b)))
       | _ => Raise ValueError
       end.

(** [x[lo:hi] = c] for a scalar [c]. *)
Definition fillslice (x : ndarray) (lo hi : Z) (c : R) : ndarray :=
  let '(b, e) := slice_bounds x lo hi in
  splice x b e (repeat c (e - b)).

(** [x[lo:] = c]. *)
Definition fillfrom (x : ndarray) (lo : Z) (c : R) : ndarray :=
  fillslice x lo (Z.of_nat (length x)) c.

(** [x[i]]: an index outside the array is an [IndexError]. *)
Definition getitem (x : ndarray) (i : Z) : result R :=
  let len := Z.of_nat (length x) in
  let j := if (i <? 0)%Z then (i + len)%Z else i in
  if ((0 <=? j) && (j <? len))%Z then Ok (nth (Z.to_nat j) x 0%R)
  else Raise IndexError.

(** [x * y] on arrays, with broadcasting of a one-element operand. *)
Definition mul (x y : ndarray) : result ndarray :=
  if decide (length x = length y) then Ok (zip_with Rmult x y)
  else match x, y with
       | [a], _ => Ok (map (fun v => a * v)%R y)
       | _, [b] => Ok (map (fun v => v * b)%R x)
       | _, _ => Raise ValueError
       end.

(** [x *= y]: the result keeps the shape of [x]. *)
Definition imul (x y : ndarray) : result ndarray :=
  if decide (length y = length x) then Ok (zip_with Rmult x y)
  else match y with
       | [b] => Ok (map (fun v => v * b)%R x)
       | _ => Raise ValueError
       end.

(** [x[lo:hi] += v]. *)
Definition iadd_slice (x : ndarray) (lo hi : Z) (v : ndarray) : result ndarray :=
  let s := getslice x lo hi in
  if decide (length v = length s) then setslice x lo hi (zip_with Rplus s v)
  else match v with
       | [b] => setslice x lo hi (map (fun a => a + b)%R s)
       | _ => Raise ValueError
       end.



(** [np.sign]. *)
Definition sign (x : R) : R :=
  if Rlt_dec x 0 then (-1)%R else if Rlt_dec 0 x then 1%R else 0%R.

(** [np.clip(x, lo, hi)], element by element. *)
Definition clip (lo hi x : R) : R := Rmin (Rmax x lo) hi.

(** [astype(np.int16)]: the fraction is dropped, the integer is kept modulo
    [2^16] in the signed range. *)
Definition wrap16 (z : Z) : Z := ((z + 32768) mod 65536 - 32768)%Z.

Definition astype_int16 (x : R) : Z := wrap16 (Py.int x).

(** [np.column_stack((l, r))] of two equally long columns: one row, a
    (left, right) frame, per sample. *)
Definition column_stack (l r : list Z) : list (Z * Z) := zip l r.

(** The global generator of [np.random]: the sequence of unit-interval
    variates it has yet to produce.  [uniform(lo, hi, size)] consumes [size]
    of them. *)
Definition rng : Type := nat -> R.

Definition random_uniform (g : rng) (lo hi : R) (size : Z)
  : result (ndarray * rng) :=
  if (size <? 0)%Z then Raise ValueError
  else
    let k := Z.to_nat size in
    Ok (map (fun i => lo + (hi - lo) * g i)%R (seq 0 k),
        fun i => g (i + k)%nat).

End Np.

(** ** The program *)

Module Music.
Import Py.

Definition SAMPLE_RATE : Z := 44100.

Definition C4_FREQ : R := 261.625565%R.

(** [semitone_to_freq], lines 40-42, as a real number.  [main] calls it
    with totals from -24 to 36; Python's [2 ** x] raises [OverflowError]
    from [x = 1024] on, which lies outside what is stated below. *)
Definition semitone_to_freq (semitone_offset octave_shift : Z) : R :=
  let total := (semitone_offset + octave_shift * 12)%Z in
  (C4_FREQ * Rpower 2 (IZR total / 12))%R.

(** [wave_sine], [wave_square], [wave_saw], [wave_triangle], lines 74-77.
    They are NumPy element-wise functions; the per-element function is given
    here, on real numbers, and arrays are mapped over.  The floating-point
    sawtooth follows the real one while the quotient [phase / (2 pi)] keeps
    fraction bits; [wave_saw_float] below is line 76 in binary64. *)
Definition wave_sine (phase : R) : R := sin phase.

Definition wave_square (phase : R) : R := Np.sign (sin phase).

Definition wave_saw (phase : R) : R :=
  (2 * (phase / (2 * PI) - IZR (Zfloor (0.5 + phase / (2 * PI)))))%R.

Definition wave_triangle (phase : R) : R :=
  (2 * Rabs (wave_saw phase) - 1)%R.



(** [int(seconds * SAMPLE_RATE)], lines 48-50 and 80: the binary64 product,
    truncated toward zero. *)
Definition sample_count (seconds : float) : result Z :=
  Py.int_of_float (seconds * Py.float_of_int SAMPLE_RATE)%float.

(** [adsr_envelope], lines 47-72.  [env] and [idx] are threaded through the
    four segments; the defaults of the Python signature are
    [adsr_envelope_default]. *)
Definition adsr_envelope (n : Z) (attack decay : float) (sustain : R)
    (release : float) : result Np.ndarray :=
  a ← sample_count attack;
  d ← sample_count decay;
  r ← sample_count release;
  let s := Z.max 0 (n - (a + d + r)) in
  env ← Np.zeros n;
  let idx := 0%Z in
  '(env, idx) ←
    (if (0 <? a)%Z
     then env' ← Np.setslice env idx (idx + a) (Np.linspace 0 1 a false);
          Ok (env', (idx + a)%Z)
     else Ok (env, idx));
  '(env, idx) ←
    (if (0 <? d)%Z
     then env' ← Np.setslice env idx (idx + d) (Np.linspace 1 sustain d false);
          Ok (env', (idx + d)%Z)
     else Ok (env, idx));
  '(env, idx) ←
    (if (0 <? s)%Z
     then Ok (Np.fillslice env idx (idx + s) sustain, (idx + s)%Z)
     else Ok (env, idx));
  '(env, idx) ←
    (if (0 <? r)%Z
     then start ← (if (0 <? idx)%Z then Np.getitem env (idx - 1)
                   else Ok sustain);
          env' ← Np.setslice env idx (idx + r) (Np.linspace start 0 r true);
          Ok (env', (idx + r)%Z)
     else Ok (env, idx));
  Ok (if (idx <? n)%Z then Np.fillfrom env idx 0 else env).

Arguments adsr_envelope n%_Z attack%_float decay%_float sustain%_R
  release%_float.

Definition adsr_envelope_default (n : Z) : result Np.ndarray :=
  adsr_envelope n 0.01 0.08 0.6 0.15.

(** [synth_note], lines 79-136.  [synth_signal] is the part up to the end of
    the instrument dispatch (lines 80-129): the enveloped signal of the
    chosen recipe, together with the generator state left by the noise burst
    of "Piano-ish". *)
Definition synth_signal (g : Np.rng) (freq : R) (duration : float)
    (instrument : string) : result (Np.ndarray * Np.rng) :=
  n ← sample_count duration;
  let t := map (fun i => i / IZR SAMPLE_RATE)%R (Np.arange n) in
  let phase := map (fun ti => 2 * PI * freq * ti)%R t in
  if String.eqb instrument "Sine" then
    env ← adsr_envelope n 0.01 0.06 0.75 0.18;
    sig ← Np.imul (map wave_sine phase) env;
    Ok (sig, g)
  else if String.eqb instrument "Square" then
    env ← adsr_envelope n 0.005 0.05 0.55 0.12;
    sig ← Np.imul (map wave_square phase) env;
    Ok (sig, g)
  else if String.eqb instrument "Triangle" then
    env ← adsr_envelope n 0.01 0.08 0.65 0.15;
    sig ← Np.imul (map wave_triangle phase) env;
    Ok (sig, g)
  else if String.eqb instrument "Saw" then
    env ← adsr_envelope n 0.01 0.10 0.5 0.18;
    sig ← Np.imul (map wave_saw phase) env;
    Ok (sig, g)
  else if String.eqb instrument "Organ" then
    env ← adsr_envelope n 0.02 0.06 0.95 0.22;
    sig ← Np.imul
            (map (fun p => 0.70 * wave_sine p
                           + 0.20 * wave_sine (2 * p)
                           + 0.10 * wave_sine (3 * p))%R phase) env;
    Ok (sig, g)
  else if String.eqb instrument "Bell" then
    env ← adsr_envelope n 0.002 0.20 0.12 0.35;
    sig ← Np.imul
            (map (fun p => 0.70 * wave_sine p
                           + 0.35 * wave_sine (2.71 * p)
                           + 0.20 * wave_sine (5.18 * p))%R phase) env;
    Ok (sig, g)
  else if String.eqb instrument "Piano-ish" then
    env ← adsr_envelope n 0.003 0.22 0.15 0.35;
    sig ← Np.imul
            (map (fun p => 0.55 * wave_sine p
                           + 0.28 * wave_sine (2 * p)
                           + 0.12 * wave_sine (3 * p)
                           + 0.05 * wave_sine (4 * p))%R phase) env;
    click ← sample_count 0.008;
    let click_len := Z.min click n in
    '(noise, g') ← Np.random_uniform g (-0.15) 0.15 click_len;
    burst ← Np.mul noise (Np.linspace 1 0 click_len true);
    sig ← Np.iadd_slice sig 0 click_len burst;
    Ok (sig, g')
  else if String.eqb instrument "Chiptune" then
    env ← adsr_envelope n 0.002 0.04 0.6 0.08;
    sig ← Np.imul
            (map (fun ti =>
                    let wobble := (1.0 + 0.003 * sin (2 * PI * 6.0 * ti))%R in
                    Np.sign (sin (2 * PI * freq * wobble * ti)))%R t) env;
    Ok (sig, g)
  else
    env ← adsr_envelope_default n;
    sig ← Np.mul (map wave_sine phase) env;
    Ok (sig, g).

(** Lines 131-136: clip, scale, quantise, stack.  The samples are real
    numbers here; the two float32 products of lines 132 and 134 can move a
    quantised sample by one step. *)
Definition finish_note (sig : Np.ndarray) (volume : R) : list (Z * Z) :=
  let sig := map (Np.clip (-1) 1) sig in
  let sig := map (fun x => x * volume)%R sig in
  let mono := map (fun x => Np.astype_int16 (x * 32767)) sig in
  Np.column_stack mono mono.

Definition synth_note (g : Np.rng) (freq : R) (duration : float)
    (instrument : string) (volume : R) : result (list (Z * Z) * Np.rng) :=
  '(sig, g') ← synth_signal g freq duration instrument;
  Ok (finish_note sig volume, g').

Arguments synth_signal g freq%_R duration%_float instrument%_string.
Arguments synth_note g freq%_R duration%_float instrument%_string volume%_R.

(** *** Python dictionaries whose keys are not countable

    [sound_cache] is keyed by tuples that contain a float; it is kept as an
    insertion-ordered association list with at most one entry per key. *)
Section Dict.
Context {K V : Type} `{EqDecision K}.

Fixpoint dict_get (k : K) (d : list (K * V)) : option V :=
  match d with
  | [] => None
  | (k', v) :: d' => if decide (k' = k) then Some v else dict_get k d'
  end.

Fixpoint dict_set (k : K) (v : V) (d : list (K * V)) : list (K * V) :=
  match d with
  | [] => [(k, v)]
  | (k', v') :: d' =>
      if decide (k' = k) then (k, v) :: d' else (k', v') :: dict_set k v d'
  end.
End Dict.

(** *** The application state of [main] *)

Definition K_ESCAPE : Z := 27.
Definition K_MINUS : Z := 45.
Definition K_EQUALS : Z := 61.
Definition K_LEFTBRACKET : Z := 91.
Definition K_RIGHTBRACKET : Z := 93.
Definition K_a : Z := 97.
Definition K_d : Z := 100.
Definition K_e : Z := 101.
Definition K_f : Z := 102.
Definition K_g : Z := 103.
Definition K_h : Z := 104.
Definition K_j : Z := 106.
Definition K_k : Z := 107.
Definition K_s : Z := 115.
Definition K_t : Z := 116.
Definition K_u : Z := 117.
Definition K_w : Z := 119.
Definition K_y : Z := 121.

Definition KEYBOARD_MAP : list (Z * Z * bool * string) :=
  [ (K_a, 0, false, "A"); (K_w, 1, true, "W"); (K_s, 2, false, "S");
    (K_e, 3, true, "E"); (K_d, 4, false, "D"); (K_f, 5, false, "F");
    (K_t, 6, true, "T"); (K_g, 7, false, "G"); (K_y, 8, true, "Y");
    (K_h, 9, false, "H"); (K_u, 10, true, "U"); (K_j, 11, false, "J");
    (K_k, 12, false, "K") ]%Z.

Definition WINDOW_W : Z := 980.

Definition instruments : list string :=
  ["Piano-ish"; "Organ"; "Bell"; "Sine"; "Triangle"; "Saw"; "Square";
   "Chiptune"].

Definition note_duration : float := 6.0%float.

(** A [pygame.mixer.Sound] made from a sample array holds a copy of it. *)
Definition Sound : Type := list (Z * Z).

Definition make_sound (audio : list (Z * Z)) : Sound := audio.

(** The handle [Sound.play] returns. *)
Definition Channel : Type := nat.

Definition RenderKey : Type := (string * Z * Z * R)%type.

(** What the program asks of the code around it.  The log is auxiliary: the
    program never reads it. *)
Inductive effect : Type :=
| SynthNote (freq : R) (duration : float) (instrument : string) (volume : R)
| Play (key : Z) (answer : option Channel)
| Fadeout (key : Z) (ch : Channel) (ms : Z).

Record state : Type := State {
  instrument : string;
  octave_shift : Z;
  volume : R;
  sound_cache : list (RenderKey * Sound);
  active_channels : gmap Z Channel;
  running : bool;
  random : Np.rng;
  log : list effect
}.

Definition clear_cache (st : state) : state :=
  State (instrument st) (octave_shift st) (volume st) []
        (active_channels st) (running st) (random st) (log st).

Definition set_instrument (name : string) (st : state) : state :=
  State name (octave_shift st) (volume st) (sound_cache st)
        (active_channels st) (running st) (random st) (log st).

Definition set_octave_shift (o : Z) (st : state) : state :=
  State (instrument st) o (volume st) (sound_cache st)
        (active_channels st) (running st) (random st) (log st).

Definition set_volume (v : R) (st : state) : state :=
  State (instrument st) (octave_shift st) v (sound_cache st)
        (active_channels st) (running st) (random st) (log st).

Definition set_active_channels (m : gmap Z Channel) (st : state) : state :=
  State (instrument st) (octave_shift st) (volume st) (sound_cache st)
        m (running st) (random st) (log st).

Definition set_running (b : bool) (st : state) : state :=
  State (instrument st) (octave_shift st) (volume st) (sound_cache st)
        (active_channels st) b (random st) (log st).

Definition emit (e : effect) (st : state) : state :=
  State (instrument st) (octave_shift st) (volume st) (sound_cache st)
        (active_channels st) (running st) (random st) (log st ++ [e]).

Definition store_sound (key : RenderKey) (snd : Sound) (g : Np.rng)
    (st : state) : state :=
  State (instrument st) (octave_shift st) (volume st)
        (dict_set key snd (sound_cache st))
        (active_channels st) (running st) g (log st).

(** [get_sound], lines 209-218; [volume] is the variable of [main]. *)
Definition get_sound (st : state) (inst : string) (octv semitone : Z)
  : result (Sound * state) :=
  let key : RenderKey := (inst, octv, semitone, Py.round (volume st) 3) in
  match dict_get key (sound_cache st) with
  | Some snd => Ok (snd, st)
  | None =>
      let freq := semitone_to_freq semitone octv in
      let st := emit (SynthNote freq note_duration inst (volume st)) st in
      '(audio, g) ← synth_note (random st) freq note_duration inst (volume st);
      let snd := make_sound audio in
      Ok (snd, store_sound key snd g st)
  end.

(** *** The controls of the window *)

Record Rect : Type := MkRect { rx : Z; ry : Z; rw : Z; rh : Z }.

Definition right (r : Rect) : Z := (rx r + rw r)%Z.
Definition bottom (r : Rect) : Z := (ry r + rh r)%Z.

Definition collidepoint (r : Rect) (p : Z * Z) : bool :=
  ((rx r <=? p.1) && (p.1 <? right r) && (ry r <=? p.2) && (p.2 <? bottom r))%Z.

Definition panel_area : Rect := MkRect 40 95 (WINDOW_W - 80) 110.

Definition CTRL_COL_W : Z := 300.
Definition CTRL_PAD : Z := 14.

Definition controls_area : Rect :=
  MkRect (right panel_area - CTRL_COL_W) (ry panel_area) CTRL_COL_W
         (rh panel_area).

Definition instruments_area : Rect :=
  MkRect (rx panel_area) (ry panel_area) (rw panel_area - CTRL_COL_W - 10)
         (rh panel_area).

(** The loop of lines 190-199 that places the instrument buttons. *)
Definition place_button (acc : Z * Z * list (string * Rect)) (name : string)
  : Z * Z * list (string * Rect) :=
  let '(x, y, btns) := acc in
  let w := if (String.length name <=? 6)%nat then 110%Z else 140%Z in
  let rect := MkRect x y w 34 in
  let '(x, y, rect) :=
    if (right rect >? right instruments_area - 10)%Z
    then let x := (rx instruments_area + 10)%Z in
         let y := (y + 42)%Z in
         (x, y, MkRect x y w 34)
    else (x, y, rect) in
  ((x + w + 10)%Z, y, btns ++ [(name, rect)]).

Definition btns : list (string * Rect) :=
  (foldl place_button
         ((rx instruments_area + 10)%Z, (ry instruments_area + 14)%Z, [])
         instruments).2.

Definition oct_down : Rect :=
  MkRect (rx controls_area + CTRL_PAD + 170) (ry controls_area + 16) 50 34.
Definition oct_up : Rect :=
  MkRect (rx controls_area + CTRL_PAD + 230) (ry controls_area + 16) 50 34.
Definition vol_down : Rect :=
  MkRect (rx controls_area + CTRL_PAD + 170) (ry controls_area + 62) 50 34.
Definition vol_up : Rect :=
  MkRect (rx controls_area + CTRL_PAD + 230) (ry controls_area + 62) 50 34.

Definition octave_down (st : state) : state :=
  clear_cache (set_octave_shift (Z.max (-2) (octave_shift st - 1)) st).
Definition octave_up (st : state) : state :=
  clear_cache (set_octave_shift (Z.min 2 (octave_shift st + 1)) st).
Definition volume_down (st : state) : state :=
  clear_cache (set_volume (Rmax 0.05 (volume st - 0.05)) st).
Definition volume_up (st : state) : state :=
  clear_cache (set_volume (Rmin 1.0 (volume st + 0.05)) st).

(** *** Events, lines 230-284 *)

Inductive event : Type :=
| QUIT
| KEYDOWN (key : Z)
| KEYUP (key : Z)
| MOUSEBUTTONDOWN (button : Z) (pos : Z * Z)
| OTHER.

(** One turn of the loop of lines 252-257.  [answer] is what [snd.play()]
    returns should it be called: a channel, or [None] when the mixer has
    none free.  The keys of [KEYBOARD_MAP] are pairwise distinct, so at most
    one turn per event calls it. *)
Definition note_on (key : Z) (answer : option Channel) (st : state)
    (entry : Z * Z * bool * string) : result state :=
  let '(pk, semi, _, _) := entry in
  if (key =? pk)%Z && negb (bool_decide (is_Some (active_channels st !! pk)))
  then
    '(snd, st) ← get_sound st (instrument st) (octave_shift st) semi;
    let st := emit (Play pk answer) st in
    match answer with
    | Some ch => Ok (set_active_channels (<[pk := ch]> (active_channels st)) st)
    | None => Ok st
    end
  else Ok st.

Definition when (b : bool) (f : state -> state) (st : state) : state :=
  if b then f st else st.

Definition handle_event (st : state) (ev : event) (answer : option Channel)
  : result state :=
  match ev with
  | QUIT => Ok (set_running false st)
  | KEYDOWN key =>
      let st := when (key =? K_ESCAPE)%Z (set_running false) st in
      let st := when (key =? K_LEFTBRACKET)%Z octave_down st in
      let st := when (key =? K_RIGHTBRACKET)%Z octave_up st in
      let st := when (key =? K_MINUS)%Z volume_down st in
      let st := when (key =? K_EQUALS)%Z volume_up st in
      for_each (note_on key answer) st KEYBOARD_MAP
  | KEYUP key =>
      match active_channels st !! key with
      | Some ch =>
          let st := emit (Fadeout key ch 80) st in
          Ok (set_active_channels (delete key (active_channels st)) st)
      | None => Ok st
      end
  | MOUSEBUTTONDOWN button pos =>
      if (button =? 1)%Z then
        let st :=
          foldl (fun st '(name, rect) =>
                   when (collidepoint rect pos)
                        (fun st => clear_cache (set_instrument name st)) st)
                st btns in
        let st := when (collidepoint oct_down pos) octave_down st in
        let st := when (collidepoint oct_up pos) octave_up st in
        let st := when (collidepoint vol_down pos) volume_down st in
        let st := when (collidepoint vol_up pos) volume_up st in
        Ok st
      else Ok st
  | OTHER => Ok st
  end.

(** The state [main] starts its loop in, lines 159-166. *)
Definition initial_state (g : Np.rng) : state :=
  State "Piano-ish" 0 0.45 [] ∅ true g [].

(** The events handled so far, each with the mixer's answer. *)
Fixpoint run (st : state) (evs : list (event * option Channel))
  : result state :=
  match evs with
  | [] => Ok st
  | (ev, answer) :: evs' => st' ← handle_event st ev answer; run st' evs'
  end.

Definition reachable (st : state) : Prop :=
  exists g evs, run (initial_state g) evs = Ok st.

(** *** Key labels *)

Definition NOTE_NAMES : list string :=
  ["C"; "C#"; "D"; "D#"; "E"; "F"; "F#"; "G"; "G#"; "A"; "A#"; "B"].

(** [current_note_name], lines 220-224; [octave_shift] is the variable of
    [main], [math.floor(total / 12)] is the floor of the quotient, read as
    a real number (the binary64 quotient has the same floor for totals as
    small as those of [main], -24..36) and the f-string joins the name and
    the decimal digits of the octave. *)
Definition current_note_name (st : state) (semitone_offset : Z)
  : result string :=
  let total := (semitone_offset + octave_shift st * 12)%Z in
  name ← Py.list_getitem NOTE_NAMES ((total mod 12 + 12) mod 12);
  let octv := (4 + Zfloor (IZR total / 12))%Z in
  Ok (name +:+ pretty octv).

(** *** Vocabulary of the statements below *)

(** The label of a pitch counted in semitones from C4, in integers only. *)
Definition note_label (total : Z) : string :=
  default "" (NOTE_NAMES !! Z.to_nat (total mod 12))
  +:+ pretty (4 + total `div` 12)%Z.


(** The names [synth_note] has a recipe for. *)
Definition recognised (name : string) : Prop :=
  name ∈ ["Sine"; "Square"; "Triangle"; "Saw"; "Organ"; "Bell"; "Piano-ish";
          "Chiptune"].

Definition keyboard_keys : list Z := map (fun entry => entry.1.1.1) KEYBOARD_MAP.

(** How many playbacks started for [key] have not been faded out, read off
    the log. *)
Definition sounding (key : Z) (l : list effect) : Z :=
  foldl (fun acc e =>
           match e with
           | Play k (Some _) => if (k =? key)%Z then acc + 1 else acc
           | Fadeout k _ _ => if (k =? key)%Z then acc - 1 else acc
           | _ => acc
           end)%Z 0%Z l.

(** What the note bookkeeping looks at: the handles and the log entries of
    playback. *)
Definition same_notes (st st' : state) : Prop :=
  active_channels st' = active_channels st
  /\ forall key, sounding key (log st') = sounding key (log st).

(** The bookkeeping invariant: a key with a handle has exactly one playback
    that was started and not faded out, a key without a handle has none;
    and only keys of the keyboard map have handles. *)
Definition notes_ok (st : state) : Prop :=
  (forall key,
      sounding key (log st)
      = match active_channels st !! key with Some _ => 1 | None => 0 end)%Z
  /\ (forall key, is_Some (active_channels st !! key) -> key ∈ keyboard_keys).

(** The samples that the attack, decay and release ramps of each recipe
    take together: [int(attack * 44100) + int(decay * 44100)
    + int(release * 44100)] with the parameters of lines 86-129, each
    product in binary64 ([0.35 * 44100] truncates to 15434). *)
Definition ramp_samples (instrument : string) : Z :=
  if String.eqb instrument "Sine" then 441 + 2646 + 7938
  else if String.eqb instrument "Square" then 220 + 2205 + 5292
  else if String.eqb instrument "Triangle" then 441 + 3528 + 6615
  else if String.eqb instrument "Saw" then 441 + 4410 + 7938
  else if String.eqb instrument "Organ" then 882 + 2646 + 9702
  else if String.eqb instrument "Bell" then 88 + 8820 + 15434
  else if String.eqb instrument "Piano-ish" then 132 + 9702 + 15434
  else if String.eqb instrument "Chiptune" then 88 + 1764 + 3528
  else 441 + 3528 + 6615.

Definition keyboard_semitones : list Z :=
  map (fun entry => entry.1.1.2) KEYBOARD_MAP.

(** The settings are within what the controls allow. *)
Definition settings_ok (st : state) : Prop :=
  (-2 <= octave_shift st <= 2)%Z
  /\ (0.05 <= volume st <= 1.0)%R
  /\ instrument st ∈ instruments.

(** The cache holds one entry per key, and every entry is a rendering of a
    semitone of the keyboard map with the instrument, the octave shift and
    the volume the state has now. *)
Definition cache_ok (st : state) : Prop :=
  NoDup (sound_cache st).*1
  /\ forall (key : RenderKey) (snd : Sound),
       (key, snd) ∈ sound_cache st ->
       exists (semi : Z) (g g' : Np.rng),
         semi ∈ keyboard_semitones
         /\ key = (instrument st, octave_shift st, semi,
                   Py.round (volume st) 3)
         /\ synth_note g (semitone_to_freq semi (octave_shift st))
              note_duration (instrument st) (volume st)
            = Ok (snd, g').

(** Two rectangles without a common point, and a rectangle inside
    another. *)
Definition rects_disjoint (r1 r2 : Rect) : bool :=
  ((right r1 <=? rx r2) || (right r2 <=? rx r1)
   || (bottom r1 <=? ry r2) || (bottom r2 <=? ry r1))%Z.

Definition rect_inside (inner outer : Rect) : bool :=
  ((rx outer <=? rx inner) && (right inner <=? right outer)
   && (ry outer <=? ry inner) && (bottom inner <=? bottom outer))%Z.

Fixpoint pairwise_disjoint (l : list Rect) : bool :=
  match l with
  | [] => true
  | r :: l' => forallb (rects_disjoint r) l' && pairwise_disjoint l'
  end.

(** Everything a left click is tested against, lines 267-284. *)
Definition click_targets : list Rect :=
  btns.*2 ++ [oct_down; oct_up; vol_down; vol_up].

End Music.

Import Py Music.
Open Scope R_scope.

(** ** Pitch mapper *)

Lemma semitone_to_freq_pos (s o : Z) : 0 < semitone_to_freq s o.
Proof.
  unfold semitone_to_freq, C4_FREQ, Rpower.
  apply Rmult_lt_0_compat; [lra | apply exp_pos].
Qed.

Lemma semitone_to_freq_mono (s o s' o' : Z) :
  (s + 12 * o < s' + 12 * o')%Z ->
  semitone_to_freq s o < semitone_to_freq s' o'.
Proof.
  intros Hlt. unfold semitone_to_freq, C4_FREQ.
  apply Rmult_lt_compat_l; [lra |].
  apply Rpower_lt; [lra |].
  assert (IZR (s + o * 12) < IZR (s' + o' * 12)) by (apply IZR_lt; lia).
  lra.
Qed.

(** C1. For semitone offsets 0..12 and octave shifts -2..2 the frequency is
    [261.625565 * 2^(k/12)] with [k = offset + 12 * shift], it is strictly
    positive and strictly increasing in [k]; [frequency(0,0)] is the base
    frequency and twelve semitones equal one octave. *)
Theorem semitone_to_freq_equal_tempered (s o : Z) :
  (0 <= s <= 12)%Z -> (-2 <= o <= 2)%Z ->
  semitone_to_freq s o = 261.625565 * Rpower 2 (IZR (s + 12 * o) / 12)
  /\ 0 < semitone_to_freq s o
  /\ (forall s' o' : Z,
        (0 <= s' <= 12)%Z -> (-2 <= o' <= 2)%Z ->
        (s + 12 * o < s' + 12 * o')%Z ->
        semitone_to_freq s o < semitone_to_freq s' o')
  /\ semitone_to_freq 0 0 = 261.625565
  /\ semitone_to_freq 12 0 = semitone_to_freq 0 1.
Proof.
  intros _ _. repeat split.
  - unfold semitone_to_freq, C4_FREQ.
    replace (s + o * 12)%Z with (s + 12 * o)%Z by lia. reflexivity.
  - apply semitone_to_freq_pos.
  - intros s' o' _ _. apply semitone_to_freq_mono.
  - unfold semitone_to_freq, C4_FREQ.
    change (0 + 0 * 12)%Z with 0%Z.
    replace (0 / 12) with 0 by lra.
    rewrite Rpower_O by lra. lra.
Qed.

Lemma semitone_to_freq_equal_tempered_witness :
  semitone_to_freq 0 0 = 261.625565 * Rpower 2 (IZR (0 + 12 * 0) / 12)
  /\ 0 < semitone_to_freq 0 0.
Proof.
  destruct (semitone_to_freq_equal_tempered 0 0) as (H1 & H2 & _);
    [lia | lia |].
  split; [exact H1 | exact H2].
Defined.

(** ** Waveform generators *)

Lemma sign_cases (x : R) : Np.sign x = -1 \/ Np.sign x = 0 \/ Np.sign x = 1.
Proof.
  unfold Np.sign.
  destruct (Rlt_dec x 0); [now left |].
  destruct (Rlt_dec 0 x); [now right; right | now right; left].
Qed.

Lemma wave_saw_range (phase : R) : -1 <= wave_saw phase < 1.
Proof.
  unfold wave_saw.
  pose proof (Zfloor_bound (0.5 + phase / (2 * PI))) as [Hlo Hhi].
  split; lra.
Qed.

Lemma wave_triangle_range (phase : R) : -1 <= wave_triangle phase <= 1.
Proof.
  unfold wave_triangle.
  pose proof (wave_saw_range phase) as [Hlo Hhi].
  pose proof (Rabs_pos (wave_saw phase)).
  assert (Rabs (wave_saw phase) <= 1) by (apply Rabs_le; lra).
  split; lra.
Qed.




(** ** Conversions to integers *)

Lemma int_eq (z : Z) (x : R) :
  (0 <= z)%Z -> IZR z <= x < IZR z + 1 -> Py.int x = z.
Proof.
  intros Hz [Hlo Hhi]. unfold Py.int.
  assert (0 <= IZR z) by (apply IZR_le; lia).
  destruct (Rle_dec 0 x) as [_ | Hn]; [| lra].
  apply Zfloor_eq. lra.
Qed.

Lemma int_bounds (x : R) (m : Z) :
  (0 <= m)%Z -> - IZR m <= x <= IZR m -> (- m <= Py.int x <= m)%Z.
Proof.
  intros Hm [Hlo Hhi]. unfold Py.int.
  destruct (Rle_dec 0 x) as [Hx | Hx].
  - pose proof (Zfloor_bound x) as [Hf _].
    assert (0 <= Zfloor x)%Z by (apply Zfloor_lub; exact Hx).
    assert (IZR (Zfloor x) <= IZR m) by lra.
    apply le_IZR in H0. lia.
  - pose proof (Zceil_bound x) as [_ Hc].
    assert (Zceil x <= 0)%Z.
    { replace 0%Z with (Zceil 0).
      - apply Zceil_le. lra.
      - apply Zceil_eq. lra. }
    assert (IZR (- m) <= IZR (Zceil x)) by (rewrite opp_IZR; lra).
    apply le_IZR in H0. lia.
Qed.

Lemma round_half_even_eq (z : Z) (x : R) :
  IZR z - 1 / 2 < x < IZR z + 1 / 2 -> Py.round_half_even x = z.
Proof.
  intros [Hlo Hhi]. unfold Py.round_half_even.
  pose proof (Zfloor_bound x) as [Hf1 Hf2].
  assert (Hcase : Zfloor x = z \/ Zfloor x = (z - 1)%Z).
  { assert (IZR (Zfloor x) < IZR (z + 1)) by (rewrite plus_IZR; lra).
    assert (IZR (z - 2) < IZR (Zfloor x)) by (rewrite minus_IZR; lra).
    apply lt_IZR in H, H0. lia. }
  destruct Hcase as [-> | ->].
  - destruct (Rlt_dec (x - IZR z) (1 / 2)); [reflexivity | lra].
  - rewrite minus_IZR.
    destruct (Rlt_dec (x - (IZR z - 1)) (1 / 2)); [lra |].
    destruct (Rlt_dec (1 / 2) (x - (IZR z - 1))); [lia | lra].
Qed.

(** ** Arrays *)

Lemma length_arange (n : Z) : length (Np.arange n) = Z.to_nat n.
Proof. unfold Np.arange. now rewrite length_map, length_seq. Qed.

Lemma length_linspace (start stop : R) (num : Z) (endpoint : bool) :
  length (Np.linspace start stop num endpoint) = Z.to_nat num.
Proof.
  unfold Np.linspace.
  destruct (0 <? _)%Z; now rewrite length_map, length_arange.
Qed.

Lemma slice_bounds_le (x : Np.ndarray) (lo hi : Z) (b e : nat) :
  Np.slice_bounds x lo hi = (b, e) -> (b <= e <= length x)%nat.
Proof.
  unfold Np.slice_bounds, Np.clamp_index. intros [= <- <-].
  destruct (lo <? 0)%Z eqn:Hlo, (hi <? 0)%Z eqn:Hhi; lia.
Qed.

Lemma slice_bounds_inside (x : Np.ndarray) (lo hi : Z) :
  (0 <= lo <= hi)%Z -> (hi <= Z.of_nat (length x))%Z ->
  Np.slice_bounds x lo hi = (Z.to_nat lo, Z.to_nat hi).
Proof.
  intros Hlo Hhi. unfold Np.slice_bounds, Np.clamp_index.
  destruct (Z.ltb_spec lo 0), (Z.ltb_spec hi 0); try lia.
  f_equal; lia.
Qed.

Lemma length_splice (x v : Np.ndarray) (b e : nat) :
  (b <= e <= length x)%nat -> length v = (e - b)%nat ->
  length (Np.splice x b e v) = length x.
Proof.
  intros Hbe Hv. unfold Np.splice.
  rewrite !length_app, length_take, length_drop. lia.
Qed.

Lemma setslice_length (x v y : Np.ndarray) (lo hi : Z) :
  Np.setslice x lo hi v = Ok y -> length y = length x.
Proof.
  unfold Np.setslice.
  destruct (Np.slice_bounds x lo hi) as [b e] eqn:Hb.
  apply slice_bounds_le in Hb.
  destruct (decide _) as [Hv | Hv].
  - intros [= <-]. now apply length_splice.
  - destruct v as [| c [| c' v']]; try discriminate.
    intros [= <-]. apply length_splice; [exact Hb | apply repeat_length].
Qed.

Lemma setslice_inside (x v : Np.ndarray) (lo k : Z) :
  (0 <= lo)%Z -> (0 <= k)%Z -> (lo + k <= Z.of_nat (length x))%Z ->
  length v = Z.to_nat k ->
  Np.setslice x lo (lo + k) v
  = Ok (Np.splice x (Z.to_nat lo) (Z.to_nat (lo + k)) v).
Proof.
  intros Hlo Hk Hfit Hv. unfold Np.setslice.
  rewrite slice_bounds_inside by lia.
  destruct (decide _) as [_ | Hne]; [reflexivity | lia].
Qed.

Lemma setslice_mismatch (x v : Np.ndarray) (lo hi : Z) (b e : nat) :
  Np.slice_bounds x lo hi = (b, e) ->
  length v <> (e - b)%nat -> length v <> 1%nat ->
  Np.setslice x lo hi v = Raise ValueError.
Proof.
  intros Hb Hne H1. unfold Np.setslice. rewrite Hb.
  destruct (decide _) as [? | _]; [contradiction |].
  destruct v as [| c [| c' v']]; simpl in *; congruence.
Qed.

Lemma length_fillslice (x : Np.ndarray) (lo hi : Z) (c : R) :
  length (Np.fillslice x lo hi c) = length x.
Proof.
  unfold Np.fillslice.
  destruct (Np.slice_bounds x lo hi) as [b e] eqn:Hb.
  apply slice_bounds_le in Hb.
  apply length_splice; [exact Hb | apply repeat_length].
Qed.

Lemma length_fillfrom (x : Np.ndarray) (lo : Z) (c : R) :
  length (Np.fillfrom x lo c) = length x.
Proof. apply length_fillslice. Qed.

Lemma getitem_inside (x : Np.ndarray) (i : Z) :
  (0 <= i < Z.of_nat (length x))%Z ->
  Np.getitem x i = Ok (nth (Z.to_nat i) x 0).
Proof.
  intros Hi. unfold Np.getitem.
  destruct (Z.ltb_spec i 0); [lia |].
  destruct (Z.leb_spec 0 i), (Z.ltb_spec i (Z.of_nat (length x)));
    simpl; try lia. reflexivity.
Qed.

Lemma imul_length (x y z : Np.ndarray) :
  Np.imul x y = Ok z -> length z = length x.
Proof.
  unfold Np.imul. destruct (decide _) as [Hl | Hl].
  - intros [= <-]. rewrite length_zip_with. lia.
  - destruct y as [| b [| b' y']]; try discriminate.
    intros [= <-]. apply length_map.
Qed.

Lemma imul_same (x y : Np.ndarray) :
  length y = length x -> Np.imul x y = Ok (zip_with Rmult x y).
Proof.
  intros Hl. unfold Np.imul. destruct (decide _); [reflexivity | contradiction].
Qed.

Lemma mul_same (x y : Np.ndarray) :
  length x = length y -> Np.mul x y = Ok (zip_with Rmult x y).
Proof.
  intros Hl. unfold Np.mul. destruct (decide _); [reflexivity | contradiction].
Qed.

(** ** The envelope *)

Lemma bind_Ok_inv {A B : Type} (m : result A) (k : A -> result B) (y : B) :
  m ≫= k = Ok y -> exists x, m = Ok x /\ k x = Ok y.
Proof.
  destruct m as [x | e]; [| discriminate].
  intros H. now exists x.
Qed.

Lemma ramp_stage_length (c : bool) (env env1 v : Np.ndarray)
    (idx hi j idx1 : Z) :
  (if c
   then Np.setslice env idx hi v ≫= λ env' : Np.ndarray, Ok (env', j)
   else Ok (env, idx)) = Ok (env1, idx1) ->
  length env1 = length env.
Proof.
  destruct c.
  - intros H. apply bind_Ok_inv in H as (env' & Hs & [= <- _]).
    now apply setslice_length in Hs.
  - now intros [= <- _].
Qed.

Lemma adsr_envelope_length (n : Z) (attack decay : float) (sustain : R)
    (release : float) (env : Np.ndarray) :
  adsr_envelope n attack decay sustain release = Ok env ->
  length env = Z.to_nat n.
Proof.
  unfold adsr_envelope. intros H.
  apply bind_Ok_inv in H as (a & _ & H).
  apply bind_Ok_inv in H as (d & _ & H).
  apply bind_Ok_inv in H as (r & _ & H).
  revert H. cbv zeta.
  generalize (Z.max 0 (n - (a + d + r))) as s. intros s.
  unfold Np.zeros. destruct (n <? 0)%Z; [discriminate |].
  cbn [mbind result_bind]. intros H.
  apply bind_Ok_inv in H as ([env1 idx1] & H1 & H).
  apply ramp_stage_length in H1. rewrite repeat_length in H1.
  apply bind_Ok_inv in H as ([env2 idx2] & H2 & H).
  apply ramp_stage_length in H2.
  apply bind_Ok_inv in H as ([env3 idx3] & H3 & H).
  assert (Hl3 : length env3 = length env2).
  { destruct (0 <? s)%Z; injection H3 as <- _;
      [apply length_fillslice | reflexivity]. }
  apply bind_Ok_inv in H as ([env4 idx4] & H4 & H).
  assert (Hl4 : length env4 = length env3).
  { destruct (0 <? r)%Z.
    - apply bind_Ok_inv in H4 as (start & _ & H4).
      apply bind_Ok_inv in H4 as (env' & Hs & [= <- _]).
      now apply setslice_length in Hs.
    - now injection H4 as <- _. }
  injection H as <-.
  destruct (idx4 <? n)%Z; [rewrite length_fillfrom |]; congruence.
Qed.

Lemma ramp_stage_fits (k idx : Z) (env v : Np.ndarray) :
  (0 <= idx)%Z -> (0 <= k)%Z -> (idx + k <= Z.of_nat (length env))%Z ->
  length v = Z.to_nat k ->
  exists env1 : Np.ndarray,
    (if (0 <? k)%Z
     then Np.setslice env idx (idx + k) v
          ≫= λ env' : Np.ndarray, Ok (env', (idx + k)%Z)
     else Ok (env, idx)) = Ok (env1, (idx + k)%Z)
    /\ length env1 = length env.
Proof.
  intros Hidx Hk Hfit Hv. destruct (Z.ltb_spec 0 k) as [Hpos | Hzero].
  - rewrite setslice_inside by assumption. cbn [mbind result_bind].
    eexists. split; [reflexivity |].
    apply length_splice; [lia | rewrite Hv; lia].
  - exists env. split; [| reflexivity].
    replace (idx + k)%Z with idx by lia. reflexivity.
Qed.

(** When the three ramps fit into the note, the envelope is built. *)
Lemma adsr_envelope_fits (n : Z) (attack decay : float) (sustain : R)
    (release : float) (a d r : Z) :
  sample_count attack = Ok a -> sample_count decay = Ok d ->
  sample_count release = Ok r ->
  (0 <= a)%Z -> (0 <= d)%Z -> (0 <= r)%Z -> (a + d + r <= n)%Z ->
  exists env, adsr_envelope n attack decay sustain release = Ok env
              /\ length env = Z.to_nat n.
Proof.
  intros Ca Cd Cr Ha Hd Hr Hfit.
  cut (exists env, adsr_envelope n attack decay sustain release = Ok env).
  { intros [env He]. exists env. split; [exact He |].
    now apply adsr_envelope_length in He. }
  unfold adsr_envelope. rewrite Ca, Cd, Cr. cbn [mbind result_bind]. cbv zeta.
  replace (Z.max 0 (n - (a + d + r))) with (n - (a + d + r))%Z by lia.
  set (s := (n - (a + d + r))%Z).
  assert (Hs : (0 <= s)%Z) by (unfold s; lia).
  unfold Np.zeros. destruct (Z.ltb_spec n 0) as [? | Hn]; [lia |].
  cbn [mbind result_bind].
  destruct (ramp_stage_fits a 0 (repeat 0 (Z.to_nat n))
              (Np.linspace 0 1 a false))
    as (env1 & -> & Hl1); try lia.
  { rewrite repeat_length. lia. }
  { apply length_linspace. }
  rewrite repeat_length in Hl1. cbn [mbind result_bind].
  destruct (ramp_stage_fits d (0 + a) env1 (Np.linspace 1 sustain d false))
    as (env2 & -> & Hl2); try lia.
  { apply length_linspace. }
  cbn [mbind result_bind].
  set (env3 := if (0 <? s)%Z
               then Np.fillslice env2 (0 + a + d) (0 + a + d + s) sustain
               else env2).
  assert (Hl3 : length env3 = length env2).
  { unfold env3. destruct (0 <? s)%Z; [apply length_fillslice | reflexivity]. }
  assert (H3 : (if (0 <? s)%Z
                then Ok (Np.fillslice env2 (0 + a + d) (0 + a + d + s) sustain,
                         (0 + a + d + s)%Z)
                else Ok (env2, (0 + a + d)%Z))
               = Ok (env3, (0 + a + d + s)%Z)).
  { unfold env3. destruct (Z.ltb_spec 0 s); [reflexivity |].
    replace (0 + a + d + s)%Z with (0 + a + d)%Z by lia. reflexivity. }
  rewrite H3. cbn [mbind result_bind].
  set (idx := (0 + a + d + s)%Z).
  assert (Hidx : (idx + r = n)%Z) by (unfold idx, s; lia).
  destruct (Z.ltb_spec 0 r) as [Hrpos | Hrzero].
  - assert (Hstart : exists start,
               (if (0 <? idx)%Z then Np.getitem env3 (idx - 1) else Ok sustain)
               = Ok start).
    { destruct (Z.ltb_spec 0 idx); [| now eexists].
      rewrite getitem_inside by lia. now eexists. }
    destruct Hstart as [start ->]. cbn [mbind result_bind].
    rewrite setslice_inside; try lia.
    + cbn [mbind result_bind]. eexists. reflexivity.
    + apply length_linspace.
  - cbn [mbind result_bind]. eexists. reflexivity.
Qed.

(** When the attack ramp alone is longer than the note, the first slice
    assignment cannot broadcast the ramp into the shorter slice. *)
Lemma adsr_envelope_attack_overflow (n : Z) (attack decay : float)
    (sustain : R) (release : float) (a d r : Z) :
  sample_count attack = Ok a -> sample_count decay = Ok d ->
  sample_count release = Ok r ->
  (0 <= n < a)%Z -> (1 < a)%Z ->
  adsr_envelope n attack decay sustain release = Raise ValueError.
Proof.
  intros Ca Cd Cr Hn Ha.
  unfold adsr_envelope. rewrite Ca, Cd, Cr. cbn [mbind result_bind]. cbv zeta.
  unfold Np.zeros. destruct (Z.ltb_spec n 0) as [? | _]; [lia |].
  cbn [mbind result_bind].
  destruct (Z.ltb_spec 0 a) as [_ | ?]; [| lia].
  erewrite setslice_mismatch; [reflexivity | | |].
  - unfold Np.slice_bounds. reflexivity.
  - rewrite length_linspace, repeat_length. unfold Np.clamp_index.
    destruct (Z.ltb_spec 0 0), (Z.ltb_spec (0 + a) 0); lia.
  - rewrite length_linspace. lia.
Qed.

(** The counts of the default envelope, in binary64. *)
Lemma default_counts :
  sample_count 0.01 = Ok 441%Z /\ sample_count 0.08 = Ok 3528%Z
  /\ sample_count 0.15 = Ok 6615%Z.
Proof. repeat split; vm_compute; reflexivity. Qed.

(** C2. A note of 100 samples with the default envelope: the attack ramp
    has 441 samples, the slice [env[0:441]] has 100, and the assignment
    raises [ValueError] instead of shortening the ramp. *)
Theorem adsr_envelope_short_note_raises :
  adsr_envelope_default 100 = Raise ValueError.
Proof.
  unfold adsr_envelope_default.
  destruct default_counts as (Ca & Cd & Cr).
  apply (adsr_envelope_attack_overflow _ _ _ _ _ _ _ _ Ca Cd Cr); lia.
Qed.

(** The same happens for every note shorter than the attack ramp. *)
Lemma adsr_envelope_default_short (n : Z) :
  (0 <= n < 441)%Z -> adsr_envelope_default n = Raise ValueError.
Proof.
  intros Hn. unfold adsr_envelope_default.
  destruct default_counts as (Ca & Cd & Cr).
  apply (adsr_envelope_attack_overflow _ _ _ _ _ _ _ _ Ca Cd Cr); lia.
Qed.

(** With one-sample ramps in a one-sample note the decay is broadcast into
    an empty slice, [idx] passes the end, and the release reads [env[1]]. *)
Lemma adsr_envelope_reads_past_end :
  adsr_envelope 1 0.00003 0.00003 0.6 0.00003 = Raise IndexError.
Proof.
  unfold adsr_envelope.
  assert (Ha : sample_count 0.00003 = Ok 1%Z) by (vm_compute; reflexivity).
  rewrite Ha. reflexivity.
Qed.

Lemma adsr_envelope_returns (n : Z) (attack decay : float) (sustain : R)
    (release : float) (a d r : Z) :
  sample_count attack = Ok a -> (0 <= a)%Z ->
  sample_count decay = Ok d -> (0 <= d)%Z ->
  sample_count release = Ok r -> (0 <= r)%Z ->
  (a + d + r <= n)%Z ->
  exists env : Np.ndarray,
    adsr_envelope n attack decay sustain release = Ok env
    /\ length env = Z.to_nat n.
Proof.
  intros Ca Ha Cd Hd Cr Hr Hfit.
  now apply (adsr_envelope_fits n attack decay sustain release a d r).
Qed.

(** ** The synthesizer *)

Lemma length_time_axis (n : Z) :
  length (map (fun i => i / IZR SAMPLE_RATE) (Np.arange n)) = Z.to_nat n.
Proof. now rewrite length_map, length_arange. Qed.

Lemma length_phase_axis (freq : R) (n : Z) :
  length (map (fun ti => 2 * PI * freq * ti)
              (map (fun i => i / IZR SAMPLE_RATE) (Np.arange n)))
  = Z.to_nat n.
Proof. now rewrite length_map, length_time_axis. Qed.

Lemma enveloped_length (g : Np.rng) (n : Z) (wave : R -> R)
    (axis : Np.ndarray) (att dec : float) (sus : R) (rel : float)
    (sig : Np.ndarray) (g' : Np.rng) :
  length axis = Z.to_nat n ->
  (env ← adsr_envelope n att dec sus rel;
   sig ← Np.imul (map wave axis) env;
   Ok (sig, g)) = Ok (sig, g') ->
  length sig = Z.to_nat n /\ g' = g.
Proof.
  intros Hax H.
  apply bind_Ok_inv in H as (env & Henv & H).
  apply bind_Ok_inv in H as (sig0 & Hmul & [= <- <-]).
  apply imul_length in Hmul. rewrite length_map in Hmul.
  split; [congruence | reflexivity].
Qed.

Lemma enveloped_returns (g : Np.rng) (n : Z) (wave : R -> R)
    (axis : Np.ndarray) (att dec : float) (sus : R) (rel : float)
    (a d r : Z) :
  length axis = Z.to_nat n ->
  sample_count att = Ok a -> (0 <= a)%Z ->
  sample_count dec = Ok d -> (0 <= d)%Z ->
  sample_count rel = Ok r -> (0 <= r)%Z ->
  (a + d + r <= n)%Z ->
  exists sig : Np.ndarray,
    (env ← adsr_envelope n att dec sus rel;
     sig ← Np.imul (map wave axis) env;
     Ok (sig, g)) = Ok (sig, g)
    /\ length sig = Z.to_nat n.
Proof.
  intros Hax Ca Ha Cd Hd Cr Hr Hfit.
  destruct (adsr_envelope_returns n att dec sus rel a d r)
    as (env & -> & Hl); try assumption.
  cbn [mbind result_bind].
  rewrite imul_same by (rewrite length_map; congruence).
  cbn [mbind result_bind]. eexists. split; [reflexivity |].
  rewrite length_zip_with, length_map. lia.
Qed.

Lemma synth_signal_inv (g g' : Np.rng) (freq : R) (duration : float)
    (instrument : string) (sig : Np.ndarray) :
  synth_signal g freq duration instrument = Ok (sig, g') ->
  exists n : Z, sample_count duration = Ok n.
Proof.
  unfold synth_signal. intros H.
  apply bind_Ok_inv in H as (n & Hn & _). now exists n.
Qed.

Lemma synth_signal_length (g g' : Np.rng) (freq : R) (duration : float)
    (instrument : string) (sig : Np.ndarray) (n : Z) :
  sample_count duration = Ok n ->
  synth_signal g freq duration instrument = Ok (sig, g') ->
  length sig = Z.to_nat n.
Proof.
  intros Cn. unfold synth_signal. rewrite Cn. cbn [mbind result_bind].
  cbv zeta.
  pose proof (length_time_axis n) as Ht.
  pose proof (length_phase_axis freq n) as Hp.
  do 6 (destruct (String.eqb instrument _);
        [intros H; apply (enveloped_length _ _ _ _ _ _ _ _ _ _ Hp) in H;
         apply H |]).
  destruct (String.eqb instrument _); [| destruct (String.eqb instrument _)].
  - (* Piano-ish *)
    intros H.
    apply bind_Ok_inv in H as (env & Henv & H).
    apply bind_Ok_inv in H as (sig0 & Hmul & H).
    apply bind_Ok_inv in H as (click & _ & H).
    apply bind_Ok_inv in H as ([noise g0] & _ & H).
    apply bind_Ok_inv in H as (burst & _ & H).
    apply bind_Ok_inv in H as (sig1 & Hadd & [= <- _]).
    apply imul_length in Hmul. rewrite length_map in Hmul.
    assert (length sig1 = length sig0); [| congruence].
    revert Hadd. unfold Np.iadd_slice.
    destruct (decide _).
    + apply setslice_length.
    + destruct burst as [| b [| b' burst']]; try discriminate.
      apply setslice_length.
  - (* Chiptune *)
    intros H. apply (enveloped_length _ _ _ _ _ _ _ _ _ _ Ht) in H. apply H.
  - (* any other name *)
    intros H. unfold adsr_envelope_default in H.
    apply bind_Ok_inv in H as (env & Henv & H).
    apply bind_Ok_inv in H as (sig0 & Hmul & [= <- _]).
    apply adsr_envelope_length in Henv.
    rewrite mul_same in Hmul by (rewrite length_map; congruence).
    injection Hmul as <-. rewrite length_zip_with, length_map. lia.
Qed.

Lemma random_uniform_returns (g : Np.rng) (lo hi : R) (size : Z) :
  (0 <= size)%Z ->
  exists (noise : Np.ndarray) (g' : Np.rng),
    Np.random_uniform g lo hi size = Ok (noise, g')
    /\ length noise = Z.to_nat size.
Proof.
  intros Hs. unfold Np.random_uniform.
  destruct (Z.ltb_spec size 0); [lia |].
  do 2 eexists. split; [reflexivity |].
  now rewrite length_map, length_seq.
Qed.

Lemma iadd_slice_prefix (x v : Np.ndarray) (k : Z) :
  (0 <= k)%Z -> (k <= Z.of_nat (length x))%Z -> length v = Z.to_nat k ->
  exists y : Np.ndarray, Np.iadd_slice x 0 k v = Ok y.
Proof.
  intros Hk Hfit Hv. unfold Np.iadd_slice, Np.getslice.
  rewrite slice_bounds_inside by lia.
  assert (Hs : length (take (Z.to_nat k - Z.to_nat 0) (drop (Z.to_nat 0) x))
               = Z.to_nat k).
  { rewrite length_take, length_drop. lia. }
  destruct (decide _) as [_ | Hne]; [| congruence].
  pose proof (setslice_inside x
                (zip_with Rplus
                   (take (Z.to_nat k - Z.to_nat 0) (drop (Z.to_nat 0) x)) v)
                0 k) as Hset.
  change (0 + k)%Z with k in Hset.
  rewrite Hset; try lia.
  - now eexists.
  - rewrite length_zip_with. lia.
Qed.

(** Every recipe is rendered once the note holds the longest attack, decay
    and release (those of "Piano-ish": 132 + 9702 + 15434 samples). *)
Lemma synth_signal_returns (g : Np.rng) (freq : R) (duration : float)
    (instrument : string) (n : Z) :
  sample_count duration = Ok n -> (25268 <= n)%Z ->
  exists (sig : Np.ndarray) (g' : Np.rng),
    synth_signal g freq duration instrument = Ok (sig, g').
Proof.
  intros Cn Hn. unfold synth_signal. rewrite Cn. cbn [mbind result_bind].
  cbv zeta.
  pose proof (length_time_axis n) as Ht.
  pose proof (length_phase_axis freq n) as Hp.
  destruct (String.eqb instrument "Sine").
  { edestruct (enveloped_returns g n wave_sine) with (a := 441%Z)
      (d := 2646%Z) (r := 7938%Z) as (sig & -> & _);
      [exact Hp | now vm_compute | lia | now vm_compute | lia
       | now vm_compute | lia | lia |].
    now do 2 eexists. }
  destruct (String.eqb instrument "Square").
  { edestruct (enveloped_returns g n wave_square) with (a := 220%Z)
      (d := 2205%Z) (r := 5292%Z) as (sig & -> & _);
      [exact Hp | now vm_compute | lia | now vm_compute | lia
       | now vm_compute | lia | lia |].
    now do 2 eexists. }
  destruct (String.eqb instrument "Triangle").
  { edestruct (enveloped_returns g n wave_triangle) with (a := 441%Z)
      (d := 3528%Z) (r := 6615%Z) as (sig & -> & _);
      [exact Hp | now vm_compute | lia | now vm_compute | lia
       | now vm_compute | lia | lia |].
    now do 2 eexists. }
  destruct (String.eqb instrument "Saw").
  { edestruct (enveloped_returns g n wave_saw) with (a := 441%Z)
      (d := 4410%Z) (r := 7938%Z) as (sig & -> & _);
      [exact Hp | now vm_compute | lia | now vm_compute | lia
       | now vm_compute | lia | lia |].
    now do 2 eexists. }
  destruct (String.eqb instrument "Organ").
  { edestruct (enveloped_returns g n
                 (fun p => 0.70 * wave_sine p + 0.20 * wave_sine (2 * p)
                           + 0.10 * wave_sine (3 * p)))
      with (a := 882%Z) (d := 2646%Z) (r := 9702%Z) as (sig & -> & _);
      [exact Hp | now vm_compute | lia | now vm_compute | lia
       | now vm_compute | lia | lia |].
    now do 2 eexists. }
  destruct (String.eqb instrument "Bell").
  { edestruct (enveloped_returns g n
                 (fun p => 0.70 * wave_sine p + 0.35 * wave_sine (2.71 * p)
                           + 0.20 * wave_sine (5.18 * p)))
      with (a := 88%Z) (d := 8820%Z) (r := 15434%Z) as (sig & -> & _);
      [exact Hp | now vm_compute | lia | now vm_compute | lia
       | now vm_compute | lia | lia |].
    now do 2 eexists. }
  destruct (String.eqb instrument "Piano-ish").
  { destruct (adsr_envelope_returns n 0.003 0.22 0.15 0.35 132 9702 15434)
      as (env & -> & Hl);
      [now vm_compute | lia | now vm_compute | lia | now vm_compute | lia
       | lia |].
    cbn [mbind result_bind].
    rewrite imul_same by (rewrite length_map; congruence).
    cbn [mbind result_bind].
    assert (Hc : sample_count 0.008 = Ok 352%Z) by now vm_compute.
    rewrite Hc. cbn [mbind result_bind].
    destruct (random_uniform_returns g (-0.15) 0.15 (Z.min 352 n))
      as (noise & g' & -> & Hnoise); [lia |].
    cbn [mbind result_bind].
    rewrite mul_same by (rewrite length_linspace; exact Hnoise).
    cbn [mbind result_bind].
    edestruct iadd_slice_prefix as (sig & ->); [| | | now do 2 eexists].
    - lia.
    - rewrite length_zip_with, length_map. lia.
    - rewrite length_zip_with, length_linspace. lia. }
  destruct (String.eqb instrument "Chiptune").
  { edestruct (enveloped_returns g n
                 (fun ti => Np.sign
                    (sin (2 * PI * freq
                          * (1.0 + 0.003 * sin (2 * PI * 6.0 * ti)) * ti))))
      with (a := 88%Z) (d := 1764%Z) (r := 3528%Z) as (sig & -> & _);
      [exact Ht | now vm_compute | lia | now vm_compute | lia
       | now vm_compute | lia | lia |].
    now do 2 eexists. }
  unfold adsr_envelope_default.
  destruct (adsr_envelope_returns n 0.01 0.08 0.6 0.15 441 3528 6615)
    as (env & -> & Hl);
    [now vm_compute | lia | now vm_compute | lia | now vm_compute | lia
     | lia |].
  cbn [mbind result_bind].
  rewrite mul_same by (rewrite length_map; congruence).
  now do 2 eexists.
Qed.

Lemma adsr_envelope_nonneg (n : Z) (attack decay : float) (sustain : R)
    (release : float) (env : Np.ndarray) :
  adsr_envelope n attack decay sustain release = Ok env -> (0 <= n)%Z.
Proof.
  unfold adsr_envelope. intros H.
  apply bind_Ok_inv in H as (a & _ & H).
  apply bind_Ok_inv in H as (d & _ & H).
  apply bind_Ok_inv in H as (r & _ & H).
  revert H. cbv zeta. unfold Np.zeros.
  destruct (Z.ltb_spec n 0); [discriminate | intros _; assumption].
Qed.

Lemma synth_signal_nonneg (g g' : Np.rng) (freq : R) (duration : float)
    (instrument : string) (sig : Np.ndarray) (n : Z) :
  sample_count duration = Ok n ->
  synth_signal g freq duration instrument = Ok (sig, g') ->
  (0 <= n)%Z.
Proof.
  intros Cn. unfold synth_signal, adsr_envelope_default. rewrite Cn.
  cbn [mbind result_bind]. cbv zeta.
  repeat (destruct (String.eqb instrument _);
          [intros H; apply bind_Ok_inv in H as (env & Henv & _);
           now apply adsr_envelope_nonneg in Henv |]).
  intros H; apply bind_Ok_inv in H as (env & Henv & _).
  now apply adsr_envelope_nonneg in Henv.
Qed.

Lemma synth_note_inv (g g' : Np.rng) (freq : R) (duration : float)
    (instrument : string) (volume : R) (buf : list (Z * Z)) :
  synth_note g freq duration instrument volume = Ok (buf, g') ->
  exists sig : Np.ndarray,
    synth_signal g freq duration instrument = Ok (sig, g')
    /\ buf = finish_note sig volume.
Proof.
  unfold synth_note. intros H.
  apply bind_Ok_inv in H as ([sig g0] & Hsig & [= <- <-]).
  now exists sig.
Qed.

Lemma column_stack_same (mono : list Z) :
  Np.column_stack mono mono = map (fun m => (m, m)) mono.
Proof.
  unfold Np.column_stack. induction mono as [| m mono IH]; [reflexivity |].
  cbn. now rewrite <- IH.
Qed.

Lemma length_finish_note (sig : Np.ndarray) (volume : R) :
  length (finish_note sig volume) = length sig.
Proof.
  unfold finish_note. rewrite column_stack_same. now rewrite !length_map.
Qed.

Lemma synth_note_returns (g : Np.rng) (freq : R) (duration : float)
    (instrument : string) (volume : R) (n : Z) :
  sample_count duration = Ok n -> (25268 <= n)%Z ->
  exists (buf : list (Z * Z)) (g' : Np.rng),
    synth_note g freq duration instrument volume = Ok (buf, g').
Proof.
  intros Cn Hn. unfold synth_note.
  destruct (synth_signal_returns g freq duration instrument n Cn Hn)
    as (sig & g' & ->).
  now do 2 eexists.
Qed.

(** C3, as the code has it.  The buffer returned by [synth_note] has
    [int(duration * 44100)] frames: the binary64 product, truncated toward
    zero. *)
Theorem synth_note_frame_count (g g' : Np.rng) (freq : R) (duration : float)
    (instrument : string) (volume : R) (buf : list (Z * Z)) :
  synth_note g freq duration instrument volume = Ok (buf, g') ->
  sample_count duration = Ok (Z.of_nat (length buf)).
Proof.
  intros H. apply synth_note_inv in H as (sig & Hsig & ->).
  rewrite length_finish_note.
  destruct (synth_signal_inv _ _ _ _ _ _ Hsig) as (n & Cn).
  pose proof (synth_signal_nonneg _ _ _ _ _ _ _ Cn Hsig) as Hn.
  rewrite (synth_signal_length _ _ _ _ _ _ _ Cn Hsig), Cn.
  f_equal. lia.
Qed.

Lemma synth_note_frame_count_witness :
  exists (buf : list (Z * Z)) (g' : Np.rng),
    synth_note (fun _ => 0) 440 6.0 "Sine" 0.5 = Ok (buf, g')
    /\ Z.of_nat (length buf) = 264600%Z.
Proof.
  assert (Cn : sample_count 6.0 = Ok 264600%Z) by now vm_compute.
  destruct (synth_note_returns (fun _ => 0) 440 6.0 "Sine" 0.5 264600 Cn)
    as (buf & g' & H); [lia |].
  exists buf, g'. split; [exact H |].
  pose proof (synth_note_frame_count _ _ _ _ _ _ _ H) as Hc.
  rewrite Cn in Hc. now injection Hc as <-.
Defined.

(** C3 as stated fails: a note of 1.00002 s holds 44100.882 sample periods;
    the buffer has 44100 frames, the rounded product is 44101. *)
Lemma rounded_count_differs :
  exists (buf : list (Z * Z)) (g' : Np.rng),
    synth_note (fun _ => 0) 440 1.00002 "Sine" 0.5 = Ok (buf, g')
    /\ Z.of_nat (length buf) = 44100%Z
    /\ Py.round_of_float (1.00002 * Py.float_of_int SAMPLE_RATE)%float
       = Ok 44101%Z.
Proof.
  assert (Cn : sample_count 1.00002 = Ok 44100%Z) by now vm_compute.
  destruct (synth_note_returns (fun _ => 0) 440 1.00002 "Sine" 0.5 44100 Cn)
    as (buf & g' & H); [lia |].
  exists buf, g'. split; [exact H |]. split; [| now vm_compute].
  apply synth_note_inv in H as (sig & Hsig & ->).
  rewrite length_finish_note.
  rewrite (synth_signal_length _ _ _ _ _ _ _ Cn Hsig). lia.
Qed.

(** The product is the binary64 one: [0.7 * 44100] is 30869.999999999996
    and a note of 0.7 s has 30869 frames, where the exact product is
    30870. *)
Lemma synth_note_frames_binary64 :
  exists (buf : list (Z * Z)) (g' : Np.rng),
    synth_note (fun _ => 0) 440 0.7 "Sine" 0.5 = Ok (buf, g')
    /\ Z.of_nat (length buf) = 30869%Z.
Proof.
  assert (Cn : sample_count 0.7 = Ok 30869%Z) by now vm_compute.
  destruct (synth_note_returns (fun _ => 0) 440 0.7 "Sine" 0.5 30869 Cn)
    as (buf & g' & H); [lia |].
  exists buf, g'. split; [exact H |].
  apply synth_note_inv in H as (sig & Hsig & ->).
  rewrite length_finish_note.
  rewrite (synth_signal_length _ _ _ _ _ _ _ Cn Hsig). lia.
Qed.

(** C4. For every instrument other than "Piano-ish" the outcome of
    [synth_note] (the buffer, or the exception) is the same whatever the
    state of the random generator: two calls with the same frequency,
    duration, instrument and volume give identical buffers. *)
Theorem synth_note_deterministic (g1 g2 : Np.rng) (freq : R)
    (duration : float) (instrument : string) (volume : R) :
  instrument <> "Piano-ish" ->
  fst <$> synth_note g1 freq duration instrument volume
  = fst <$> synth_note g2 freq duration instrument volume.
Proof.
  intros Hne. unfold synth_note, synth_signal, adsr_envelope_default.
  destruct (sample_count duration) as [n | e]; [| reflexivity].
  cbn [mbind result_bind]. cbv zeta.
  assert (Hpiano : String.eqb instrument "Piano-ish" = false)
    by (apply String.eqb_neq; exact Hne).
  rewrite Hpiano.
  do 7 (match goal with
        | |- context [if String.eqb instrument ?name then _ else _] =>
            destruct (String.eqb instrument name);
            [destruct (adsr_envelope _ _ _ _ _) as [env | e];
             [| reflexivity];
             cbn [mbind result_bind];
             destruct (Np.imul _ env) as [sig | e]; reflexivity |]
        end).
  destruct (adsr_envelope _ _ _ _ _) as [env | e]; [| reflexivity].
  cbn [mbind result_bind].
  destruct (Np.mul _ env) as [sig | e]; reflexivity.
Qed.

Lemma synth_note_deterministic_witness :
  fst <$> synth_note (fun _ => 0) 440 6.0 "Sine" 0.5
  = fst <$> synth_note (fun _ => 1 / 2) 440 6.0 "Sine" 0.5.
Proof.
  apply synth_note_deterministic. discriminate.
Defined.

(** ** Clipping and quantisation *)

Lemma clip_range (x : R) : -1 <= Np.clip (-1) 1 x <= 1.
Proof.
  unfold Np.clip, Rmin, Rmax.
  destruct (Rle_dec x (-1)); destruct (Rle_dec _ 1); lra.
Qed.

Lemma wrap16_inside (z : Z) :
  (-32768 <= z <= 32767)%Z -> Np.wrap16 z = z.
Proof.
  intros Hz. unfold Np.wrap16.
  rewrite Z.mod_small by lia. lia.
Qed.

Lemma quantise_range (x volume : R) :
  0.05 <= volume <= 1.0 ->
  Np.astype_int16 (Np.clip (-1) 1 x * volume * 32767)
  = Py.int (Np.clip (-1) 1 x * volume * 32767)
  /\ (-32767 <= Py.int (Np.clip (-1) 1 x * volume * 32767) <= 32767)%Z.
Proof.
  intros Hv. pose proof (clip_range x) as Hc.
  assert (Hb : (-32767 <= Py.int (Np.clip (-1) 1 x * volume * 32767)
                <= 32767)%Z).
  { apply (int_bounds _ 32767); [lia |].
    change (IZR 32767) with 32767. nra. }
  split; [| exact Hb].
  unfold Np.astype_int16. apply wrap16_inside. lia.
Qed.

Lemma finish_note_frames (sig : Np.ndarray) (volume : R) :
  finish_note sig volume
  = map (fun x => let q := Np.astype_int16 (Np.clip (-1) 1 x * volume * 32767)
                  in (q, q)) sig.
Proof.
  unfold finish_note. rewrite column_stack_same, !map_map. reflexivity.
Qed.

(** C6. With the volume in [0.05, 1.0], a returned buffer is the signal of
    the recipe, clipped to [-1, 1], scaled by the volume, multiplied by
    32767 and truncated (the 16-bit conversion never wraps), the mono
    sample copied into both channels: every sample lies in
    [-32767, 32767] and left equals right in every frame. *)
Theorem synth_note_quantised (g g' : Np.rng) (freq : R) (duration : float)
    (instrument : string) (volume : R) (buf : list (Z * Z)) :
  0.05 <= volume <= 1.0 ->
  synth_note g freq duration instrument volume = Ok (buf, g') ->
  exists sig : Np.ndarray,
    synth_signal g freq duration instrument = Ok (sig, g')
    /\ buf = map (fun x => let q := Py.int (Np.clip (-1) 1 x * volume * 32767)
                           in (q, q)) sig
    /\ Forall (fun frame : Z * Z =>
                 frame.1 = frame.2 /\ (-32767 <= frame.1 <= 32767)%Z) buf.
Proof.
  intros Hv H. apply synth_note_inv in H as (sig & Hsig & ->).
  exists sig. split; [exact Hsig |].
  rewrite finish_note_frames. split.
  - apply map_ext. intros x. cbv zeta.
    now destruct (quantise_range x volume Hv) as [-> _].
  - apply Forall_forall. intros frame Hin.
    apply list_elem_of_In, in_map_iff in Hin as (x & <- & _).
    cbv zeta. cbn [fst snd].
    destruct (quantise_range x volume Hv) as [-> Hb].
    split; [reflexivity | exact Hb].
Qed.

Lemma synth_note_quantised_witness :
  exists (buf : list (Z * Z)) (g' : Np.rng),
    synth_note (fun _ => 0) 440 6.0 "Organ" 0.45 = Ok (buf, g')
    /\ Forall (fun frame : Z * Z =>
                 frame.1 = frame.2 /\ (-32767 <= frame.1 <= 32767)%Z) buf.
Proof.
  assert (Cn : sample_count 6.0 = Ok 264600%Z) by now vm_compute.
  destruct (synth_note_returns (fun _ => 0) 440 6.0 "Organ" 0.45 264600 Cn)
    as (buf & g' & H); [lia |].
  exists buf, g'. split; [exact H |].
  assert (Hv : 0.05 <= 0.45 <= 1.0) by lra.
  destruct (synth_note_quantised _ _ _ _ _ _ _ Hv H)
    as (sig & _ & _ & Hrange).
  exact Hrange.
Defined.

(** ** The noise burst of "Piano-ish" *)

Lemma head_zip_with {A B C : Type} (f : A -> B -> C) (x : list A)
    (y : list B) (a : A) (b : B) :
  head x = Some a -> head y = Some b -> head (zip_with f x y) = Some (f a b).
Proof.
  destruct x as [| a' x], y as [| b' y]; try discriminate.
  now intros [= ->] [= ->].
Qed.

Lemma head_map {A B : Type} (f : A -> B) (x : list A) (a : A) :
  head x = Some a -> head (map f x) = Some (f a).
Proof. destruct x as [| a' x]; [discriminate | now intros [= ->]]. Qed.

Lemma head_arange (n : Z) : (0 < n)%Z -> head (Np.arange n) = Some 0.
Proof.
  intros Hn. unfold Np.arange.
  destruct (Z.to_nat n) as [| k] eqn:Hk; [lia | reflexivity].
Qed.

Lemma head_nonempty {A : Type} (x : list A) :
  (0 < length x)%nat -> exists a, head x = Some a.
Proof. destruct x as [| a x]; cbn; [lia | now exists a]. Qed.

Lemma head_take {A : Type} (k : nat) (x : list A) :
  (0 < k)%nat -> head (take k x) = head x.
Proof. destruct k, x; cbn; (lia || reflexivity). Qed.

Lemma head_splice_front (x v : Np.ndarray) (e : nat) (a : R) :
  head v = Some a -> head (Np.splice x 0 e v) = Some a.
Proof.
  unfold Np.splice. destruct v as [| a' v]; [discriminate |].
  now intros [= ->].
Qed.

Lemma iadd_slice_front (x v : Np.ndarray) (k : Z) :
  (0 <= k)%Z -> (k <= Z.of_nat (length x))%Z -> length v = Z.to_nat k ->
  Np.iadd_slice x 0 k v
  = Ok (Np.splice x 0 (Z.to_nat k)
          (zip_with Rplus (take (Z.to_nat k) x) v)).
Proof.
  intros Hk Hfit Hv. unfold Np.iadd_slice, Np.getslice.
  rewrite slice_bounds_inside by lia.
  change (Z.to_nat 0) with 0%nat. rewrite Nat.sub_0_r.
  change (drop 0 x) with x.
  assert (Hs : length (take (Z.to_nat k) x) = Z.to_nat k)
    by (rewrite length_take; lia).
  destruct (decide _) as [_ | Hne]; [| congruence].
  pose proof (setslice_inside x (zip_with Rplus (take (Z.to_nat k) x) v)
                0 k) as Hset.
  change (0 + k)%Z with k in Hset. change (Z.to_nat 0) with 0%nat in Hset.
  apply Hset; try lia. rewrite length_zip_with. lia.
Qed.

(** The first sample of a "Piano-ish" note is the first variate drawn,
    mapped to [-0.15, 0.15]: the carrier starts at phase 0 and the fade of
    the burst starts at 1. *)
Lemma piano_first_sample (g : Np.rng) (freq : R) (duration : float)
    (n : Z) :
  sample_count duration = Ok n -> (25268 <= n)%Z ->
  exists (sig : Np.ndarray) (g' : Np.rng),
    synth_signal g freq duration "Piano-ish" = Ok (sig, g')
    /\ head sig = Some (-0.15 + 0.3 * g 0%nat).
Proof.
  intros Cn. unfold synth_signal. rewrite Cn. cbn [mbind result_bind].
  cbv zeta.
  change (String.eqb "Piano-ish" "Sine") with false.
  change (String.eqb "Piano-ish" "Square") with false.
  change (String.eqb "Piano-ish" "Triangle") with false.
  change (String.eqb "Piano-ish" "Saw") with false.
  change (String.eqb "Piano-ish" "Organ") with false.
  change (String.eqb "Piano-ish" "Bell") with false.
  change (String.eqb "Piano-ish" "Piano-ish") with true.
  cbv iota.
  intros Hn.
  pose proof (length_phase_axis freq n) as Hp.
  destruct (adsr_envelope_returns n 0.003 0.22 0.15 0.35 132 9702 15434)
    as (env & -> & Hl);
    [now vm_compute | lia | now vm_compute | lia | now vm_compute | lia
     | lia |].
  cbn [mbind result_bind].
  rewrite imul_same by (rewrite length_map; congruence).
  cbn [mbind result_bind].
  assert (Hc : sample_count 0.008 = Ok 352%Z) by now vm_compute.
  rewrite Hc. cbn [mbind result_bind].
  replace (Z.min 352 n) with 352%Z by lia.
  unfold Np.random_uniform. change (352 <? 0)%Z with false. cbv iota zeta.
  cbn [mbind result_bind].
  set (noise := map (fun i : nat => -0.15 + (0.15 - -0.15) * g i)
                    (seq 0 (Z.to_nat 352))).
  assert (Hnoise : length noise = Z.to_nat 352)
    by (unfold noise; now rewrite length_map, length_seq).
  rewrite mul_same by (rewrite length_linspace; exact Hnoise).
  cbn [mbind result_bind].
  rewrite iadd_slice_front;
    [| lia | rewrite length_zip_with, length_map; lia
     | rewrite length_zip_with, length_linspace; lia].
  cbn [mbind result_bind]. do 2 eexists. split; [reflexivity |].
  destruct (head_nonempty env) as [e0 He0]; [lia |].
  assert (Hphase : head (map (fun ti => 2 * PI * freq * ti)
                          (map (fun i => i / IZR SAMPLE_RATE) (Np.arange n)))
                   = Some (2 * PI * freq * (0 / IZR SAMPLE_RATE))).
  { apply (head_map (fun ti => 2 * PI * freq * ti)).
    apply (head_map (fun i => i / IZR SAMPLE_RATE)).
    apply head_arange. lia. }
  assert (Hn0 : head noise = Some (-0.15 + (0.15 - -0.15) * g 0%nat)).
  { unfold noise. destruct (Z.to_nat 352) eqn:Hk; [lia | reflexivity]. }
  assert (Hramp : head (Np.linspace 1 0 352 true)
                  = Some (1 + 0 * ((0 - 1) / IZR (352 - 1)))).
  { unfold Np.linspace. change (0 <? 352 - 1)%Z with true. cbv iota.
    apply (head_map (fun i => 1 + i * ((0 - 1) / IZR (352 - 1)))).
    apply head_arange. lia. }
  erewrite head_splice_front; [| apply head_zip_with;
    [rewrite head_take by lia; apply head_zip_with;
       [apply (head_map _ _ _ Hphase) | exact He0]
    | apply head_zip_with; [exact Hn0 | exact Hramp]]].
  f_equal. unfold wave_sine.
  replace (2 * PI * freq * (0 / IZR SAMPLE_RATE)) with 0
    by (unfold Rdiv; ring).
  rewrite !Rmult_0_r, sin_0. lra.
Qed.

(** Two generator states, two different buffers: the exception made for
    "Piano-ish" in C4 is needed. *)
Lemma piano_depends_on_generator :
  exists (buf1 buf2 : list (Z * Z)) (g1 g2 : Np.rng),
    synth_note (fun _ => 0) 440 6.0 "Piano-ish" 0.5 = Ok (buf1, g1)
    /\ synth_note (fun _ => 1 / 2) 440 6.0 "Piano-ish" 0.5 = Ok (buf2, g2)
    /\ head buf1 = Some (-2457, -2457)%Z
    /\ head buf2 = Some (0, 0)%Z.
Proof.
  assert (Cn : sample_count 6.0 = Ok 264600%Z) by now vm_compute.
  assert (Hn : (25268 <= 264600)%Z) by lia.
  destruct (piano_first_sample (fun _ => 0) 440 6.0 264600 Cn Hn)
    as (sig1 & g1 & Hs1 & Hh1).
  destruct (piano_first_sample (fun _ => 1 / 2) 440 6.0 264600 Cn Hn)
    as (sig2 & g2 & Hs2 & Hh2).
  exists (finish_note sig1 0.5), (finish_note sig2 0.5), g1, g2.
  unfold synth_note. rewrite Hs1, Hs2. cbn [mbind result_bind].
  split; [reflexivity |]. split; [reflexivity |].
  rewrite !finish_note_frames.
  assert (Hv : 0.05 <= 0.5 <= 1.0) by lra.
  split.
  - erewrite head_map by exact Hh1. cbv zeta.
    destruct (quantise_range (-0.15 + 0.3 * 0) 0.5 Hv) as [-> _].
    assert (Hc : Np.clip (-1) 1 (-0.15 + 0.3 * 0) = -0.15).
    { unfold Np.clip, Rmin, Rmax.
      destruct (Rle_dec _ _); destruct (Rle_dec _ _); lra. }
    rewrite Hc.
    assert (Hq : Py.int (-0.15 * 0.5 * 32767) = (-2457)%Z).
    { unfold Py.int. destruct (Rle_dec 0 _) as [? | _]; [lra |].
      apply Zceil_eq. lra. }
    now rewrite Hq.
  - erewrite head_map by exact Hh2. cbv zeta.
    destruct (quantise_range (-0.15 + 0.3 * (1 / 2)) 0.5 Hv) as [-> _].
    assert (Hc : Np.clip (-1) 1 (-0.15 + 0.3 * (1 / 2)) = 0).
    { unfold Np.clip, Rmin, Rmax.
      destruct (Rle_dec _ _); destruct (Rle_dec _ _); lra. }
    rewrite Hc.
    assert (Hq : Py.int (0 * 0.5 * 32767) = 0%Z).
    { apply int_eq; [lia | lra]. }
    now rewrite Hq.
Qed.

(** ** Unrecognised instrument names *)

(** When attack and decay fit but the release ramp does not, the last slice
    assignment cannot broadcast the ramp into what is left of the note. *)
Lemma adsr_envelope_release_overflow (n : Z) (attack decay : float)
    (sustain : R) (release : float) (a d r : Z) :
  sample_count attack = Ok a -> sample_count decay = Ok d ->
  sample_count release = Ok r ->
  (0 <= a)%Z -> (0 <= d)%Z -> (a + d <= n < a + d + r)%Z -> (1 < r)%Z ->
  adsr_envelope n attack decay sustain release = Raise ValueError.
Proof.
  intros Ca Cd Cr Ha Hd Hn Hr.
  unfold adsr_envelope. rewrite Ca, Cd, Cr. cbn [mbind result_bind]. cbv zeta.
  replace (Z.max 0 (n - (a + d + r))) with 0%Z by lia.
  unfold Np.zeros. destruct (Z.ltb_spec n 0) as [? | _]; [lia |].
  cbn [mbind result_bind].
  destruct (ramp_stage_fits a 0 (repeat 0 (Z.to_nat n))
              (Np.linspace 0 1 a false))
    as (env1 & -> & Hl1); try lia.
  { rewrite repeat_length. lia. }
  { apply length_linspace. }
  rewrite repeat_length in Hl1. cbn [mbind result_bind].
  destruct (ramp_stage_fits d (0 + a) env1 (Np.linspace 1 sustain d false))
    as (env2 & -> & Hl2); try lia.
  { apply length_linspace. }
  cbn [mbind result_bind Z.ltb Z.compare].
  destruct (Z.ltb_spec 0 r) as [_ | ?]; [| lia].
  assert (Hstart : exists start,
             (if (0 <? 0 + a + d)%Z then Np.getitem env2 (0 + a + d - 1)
              else Ok sustain) = Ok start).
  { destruct (Z.ltb_spec 0 (0 + a + d)); [| now eexists].
    rewrite getitem_inside by lia. now eexists. }
  destruct Hstart as [start ->]. cbn [mbind result_bind].
  erewrite setslice_mismatch; [reflexivity | | |].
  - unfold Np.slice_bounds. reflexivity.
  - rewrite length_linspace. unfold Np.clamp_index.
    destruct (Z.ltb_spec (0 + a + d) 0), (Z.ltb_spec (0 + a + d + r) 0); lia.
  - rewrite length_linspace. lia.
Qed.

(** A name outside the eight recipes selects the last branch: the sine of
    the carrier phase times the default envelope, finished like every other
    recipe. *)
Lemma synth_note_unknown_name (g : Np.rng) (freq : R) (duration : float)
    (instrument : string) (volume : R) :
  ~ recognised instrument ->
  synth_note g freq duration instrument volume
  = (n ← sample_count duration;
     let phase := map (fun ti => 2 * PI * freq * ti)
                      (map (fun i => i / IZR SAMPLE_RATE) (Np.arange n)) in
     env ← adsr_envelope_default n;
     sig ← Np.mul (map wave_sine phase) env;
     Ok (finish_note sig volume, g)).
Proof.
  intros Hun. unfold synth_note, synth_signal.
  destruct (sample_count duration) as [n | e]; [| reflexivity].
  cbn [mbind result_bind]. cbv zeta.
  do 8 (match goal with
        | |- context [if String.eqb instrument ?name then _ else _] =>
            destruct (String.eqb_spec instrument name) as [-> | _];
            [exfalso; apply Hun; unfold recognised; set_solver |]
        end).
  destruct (adsr_envelope_default _) as [env | e]; [| reflexivity].
  cbn [mbind result_bind].
  destruct (Np.mul _ env) as [sig | e]; reflexivity.
Qed.

Lemma flute_unrecognised : ~ recognised "Flute".
Proof.
  unfold recognised. intros H.
  repeat (apply elem_of_cons in H as [H | H]; [discriminate H |]).
  now apply elem_of_nil in H.
Qed.

(** C7. A tenth of a second on an unrecognised instrument: the note has
    4410 samples, the default envelope needs 441 + 3528 + 6615, and the
    release assignment raises [ValueError]. *)
Theorem synth_note_unknown_short_raises (g : Np.rng) :
  synth_note g 440 0.1 "Flute" 0.5 = Raise ValueError.
Proof.
  rewrite synth_note_unknown_name by exact flute_unrecognised.
  assert (Cn : sample_count 0.1 = Ok 4410%Z) by now vm_compute.
  rewrite Cn. cbn [mbind result_bind]. cbv zeta.
  unfold adsr_envelope_default.
  destruct default_counts as (Ca & Cd & Cr).
  rewrite (adsr_envelope_release_overflow _ _ _ _ _ _ _ _ Ca Cd Cr);
    [reflexivity | lia | lia | lia | lia].
Qed.

(** The same defect on a recognised instrument. *)
Lemma synth_note_sine_short_raises (g : Np.rng) :
  synth_note g 440 0.1 "Sine" 0.5 = Raise ValueError.
Proof.
  unfold synth_note, synth_signal.
  assert (Cn : sample_count 0.1 = Ok 4410%Z) by now vm_compute.
  rewrite Cn. cbn [mbind result_bind]. cbv zeta.
  change (String.eqb "Sine" "Sine") with true. cbv iota.
  assert (Ca : sample_count 0.01 = Ok 441%Z) by now vm_compute.
  assert (Cd : sample_count 0.06 = Ok 2646%Z) by now vm_compute.
  assert (Cr : sample_count 0.18 = Ok 7938%Z) by now vm_compute.
  rewrite (adsr_envelope_release_overflow _ _ _ _ _ _ _ _ Ca Cd Cr);
    [reflexivity | lia | lia | lia | lia].
Qed.

(** From 10584 samples on, an unrecognised name is rendered. *)
Lemma synth_note_unknown_long_returns (g : Np.rng) (freq : R)
    (duration : float) (instrument : string) (volume : R) (n : Z) :
  ~ recognised instrument ->
  sample_count duration = Ok n -> (10584 <= n)%Z ->
  exists buf : list (Z * Z),
    synth_note g freq duration instrument volume = Ok (buf, g).
Proof.
  intros Hun Cn Hn. rewrite synth_note_unknown_name by exact Hun.
  rewrite Cn. cbn [mbind result_bind]. cbv zeta.
  unfold adsr_envelope_default.
  destruct (adsr_envelope_returns n 0.01 0.08 0.6 0.15 441 3528 6615)
    as (env & -> & Hl);
    [now vm_compute | lia | now vm_compute | lia | now vm_compute | lia
     | lia |].
  cbn [mbind result_bind].
  rewrite mul_same
    by (rewrite !length_map, length_arange; congruence).
  now eexists.
Qed.

(** ** The sound cache *)

Lemma dict_get_set_eq {K V : Type} `{EqDecision K} (k : K) (v : V)
    (d : list (K * V)) :
  dict_get k (dict_set k v d) = Some v.
Proof.
  induction d as [| [k' v'] d IH]; cbn.
  - destruct (decide (k = k)); [reflexivity | contradiction].
  - destruct (decide (k' = k)) as [-> | Hne]; cbn.
    + destruct (decide (k = k)); [reflexivity | contradiction].
    + destruct (decide (k' = k)); [contradiction | exact IH].
Qed.

Lemma dict_get_set_ne {K V : Type} `{EqDecision K} (k k0 : K) (v : V)
    (d : list (K * V)) :
  k0 <> k -> dict_get k0 (dict_set k v d) = dict_get k0 d.
Proof.
  intros Hne. induction d as [| [k' v'] d IH]; cbn.
  - destruct (decide (k = k0)); [congruence | reflexivity].
  - destruct (decide (k' = k)) as [-> | Hk]; cbn.
    + destruct (decide (k = k0)); [congruence | reflexivity].
    + destruct (decide (k' = k0)); [reflexivity | exact IH].
Qed.

Lemma note_duration_samples : sample_count note_duration = Ok 264600%Z.
Proof. now vm_compute. Qed.

Lemma note_duration_rendered (g : Np.rng) (freq : R) (inst : string)
    (vol : R) :
  exists (audio : list (Z * Z)) (g' : Np.rng),
    synth_note g freq note_duration inst vol = Ok (audio, g').
Proof.
  apply (synth_note_returns _ _ _ _ _ 264600 note_duration_samples). lia.
Qed.

Lemma get_sound_hit (st : state) (inst : string) (octv semitone : Z)
    (snd : Sound) :
  let key : RenderKey := (inst, octv, semitone, Py.round (volume st) 3) in
  dict_get key (sound_cache st) = Some snd ->
  get_sound st inst octv semitone = Ok (snd, st).
Proof. intros key Hhit. unfold get_sound. fold key. now rewrite Hhit. Qed.

Lemma get_sound_miss (st : state) (inst : string) (octv semitone : Z) :
  let key : RenderKey := (inst, octv, semitone, Py.round (volume st) 3) in
  let freq := semitone_to_freq semitone octv in
  dict_get key (sound_cache st) = None ->
  exists (audio : list (Z * Z)) (g' : Np.rng),
    synth_note (random st) freq note_duration inst (volume st)
    = Ok (audio, g')
    /\ get_sound st inst octv semitone
       = Ok (make_sound audio,
             store_sound key (make_sound audio) g'
               (emit (SynthNote freq note_duration inst (volume st)) st)).
Proof.
  intros key freq Hmiss. unfold get_sound. fold key freq. rewrite Hmiss.
  destruct (note_duration_rendered (random st) freq inst (volume st))
    as (audio & g' & Hs).
  exists audio, g'. split; [exact Hs |].
  cbn [emit random volume]. rewrite Hs. reflexivity.
Qed.

(** C5. A call whose key is in the cache returns the stored sound and
    leaves the whole state, the log of synthesizer calls included, as it
    was.  A call whose key is missing calls [synth_note] exactly once,
    stores the sound under the key and returns it.  After the cache has been
    cleared, the next call for any key is such a miss. *)
Theorem get_sound_memoises (st : state) (inst : string) (octv semitone : Z) :
  let key : RenderKey := (inst, octv, semitone, Py.round (volume st) 3) in
  let freq := semitone_to_freq semitone octv in
  let call := SynthNote freq note_duration inst (volume st) in
  (forall snd : Sound,
      dict_get key (sound_cache st) = Some snd ->
      get_sound st inst octv semitone = Ok (snd, st))
  /\ (dict_get key (sound_cache st) = None ->
      exists (audio : list (Z * Z)) (g' : Np.rng) (st' : state),
        synth_note (random st) freq note_duration inst (volume st)
        = Ok (audio, g')
        /\ get_sound st inst octv semitone = Ok (make_sound audio, st')
        /\ log st' = log st ++ [call]
        /\ dict_get key (sound_cache st') = Some (make_sound audio)
        /\ get_sound st' inst octv semitone = Ok (make_sound audio, st'))
  /\ (exists (audio : list (Z * Z)) (g' : Np.rng) (st' : state),
        synth_note (random st) freq note_duration inst (volume st)
        = Ok (audio, g')
        /\ get_sound (clear_cache st) inst octv semitone
           = Ok (make_sound audio, st')
        /\ log st' = log st ++ [call]
        /\ sound_cache st' = [(key, make_sound audio)]).
Proof.
  intros key freq call. split; [| split].
  - intros snd. apply get_sound_hit.
  - intros Hmiss.
    destruct (get_sound_miss st inst octv semitone Hmiss)
      as (audio & g' & Hs & Hg).
    exists audio, g'. eexists. split; [exact Hs |]. split; [exact Hg |].
    split; [reflexivity |].
    assert (Hstored : dict_get key
              (dict_set key (make_sound audio) (sound_cache st))
            = Some (make_sound audio)) by apply dict_get_set_eq.
    split; [exact Hstored |].
    apply get_sound_hit. exact Hstored.
  - destruct (get_sound_miss (clear_cache st) inst octv semitone)
      as (audio & g' & Hs & Hg); [reflexivity |].
    exists audio, g'. eexists. split; [exact Hs |]. split; [exact Hg |].
    split; reflexivity.
Qed.

Lemma get_sound_memoises_witness :
  exists (audio : list (Z * Z)) (g' : Np.rng) (st' : state),
    synth_note (fun _ => 0) (semitone_to_freq 9 0) note_duration "Organ" 0.45
    = Ok (audio, g')
    /\ get_sound (set_instrument "Organ" (initial_state (fun _ => 0)))
         "Organ" 0 9
       = Ok (make_sound audio, st')
    /\ log st' = [SynthNote (semitone_to_freq 9 0) note_duration "Organ" 0.45].
Proof.
  destruct (get_sound_memoises
              (set_instrument "Organ" (initial_state (fun _ => 0)))
              "Organ" 0 9) as (_ & Hmiss & _).
  destruct Hmiss as (audio & g' & st' & Hs & Hg & Hlog & _); [reflexivity |].
  exists audio, g', st'. split; [exact Hs |]. split; [exact Hg | exact Hlog].
Defined.

(** C10. The key holds the volume rounded to three decimals, the rendering
    uses the volume as it is.  With two volumes that differ and round alike
    and no clearing in between, the second call finds the entry of the
    first: it returns that sound, rendered with the first volume, and does
    not call [synth_note]. *)
Theorem get_sound_keeps_first_volume (st : state) (inst : string)
    (octv semitone : Z) (v1 v2 : R) :
  v1 <> v2 -> Py.round v1 3 = Py.round v2 3 ->
  let key : RenderKey := (inst, octv, semitone, Py.round v1 3) in
  let freq := semitone_to_freq semitone octv in
  exists (snd1 : Sound) (st1 : state),
    get_sound (set_volume v1 st) inst octv semitone = Ok (snd1, st1)
    /\ get_sound (set_volume v2 st1) inst octv semitone
       = Ok (snd1, set_volume v2 st1)
    /\ (dict_get key (sound_cache st) = None ->
        exists (audio : list (Z * Z)) (g' : Np.rng),
          synth_note (random st) freq note_duration inst v1 = Ok (audio, g')
          /\ snd1 = make_sound audio
          /\ log st1 = log st ++ [SynthNote freq note_duration inst v1]).
Proof.
  intros _ Hround key freq.
  destruct (dict_get key (sound_cache st)) as [snd |] eqn:Hget.
  - exists snd, (set_volume v1 st). split; [| split].
    + apply get_sound_hit. exact Hget.
    + apply get_sound_hit. cbn [set_volume volume sound_cache].
      rewrite <- Hround. exact Hget.
    + discriminate.
  - destruct (get_sound_miss (set_volume v1 st) inst octv semitone)
      as (audio & g' & Hs & Hg); [exact Hget |].
    cbn [set_volume volume random] in Hs.
    exists (make_sound audio). eexists. split; [exact Hg |]. split.
    + apply get_sound_hit. cbn [set_volume store_sound emit volume sound_cache].
      rewrite <- Hround. apply dict_get_set_eq.
    + intros _. exists audio, g'. repeat split. exact Hs.
Qed.

Lemma round_045 : Py.round 0.45 3 = Py.round 0.4504 3.
Proof.
  unfold Py.round. change (10 ^ 3) with (10 * (10 * (10 * 1))).
  rewrite (round_half_even_eq 450 (0.45 * _)) by lra.
  rewrite (round_half_even_eq 450 (0.4504 * _)) by lra.
  reflexivity.
Qed.

Lemma get_sound_keeps_first_volume_witness :
  exists (snd1 : Sound) (st1 : state),
    get_sound (set_volume 0.45 (initial_state (fun _ => 0))) "Piano-ish" 0 0
    = Ok (snd1, st1)
    /\ get_sound (set_volume 0.4504 st1) "Piano-ish" 0 0
       = Ok (snd1, set_volume 0.4504 st1).
Proof.
  assert (Hne : 0.45 <> 0.4504) by lra.
  destruct (get_sound_keeps_first_volume (initial_state (fun _ => 0))
              "Piano-ish" 0 0
              0.45 0.4504 Hne round_045) as (snd1 & st1 & H1 & H2 & _).
  exists snd1, st1. split; [exact H1 | exact H2].
Defined.

(** ** Note-on and note-off *)

Lemma sounding_snoc (key : Z) (l : list effect) (e : effect) :
  sounding key (l ++ [e])
  = match e with
    | Play k (Some _) =>
        if (k =? key)%Z then (sounding key l + 1)%Z else sounding key l
    | Fadeout k _ _ =>
        if (k =? key)%Z then (sounding key l - 1)%Z else sounding key l
    | _ => sounding key l
    end.
Proof. unfold sounding. rewrite foldl_app. reflexivity. Qed.

Lemma same_notes_refl (st : state) : same_notes st st.
Proof. now split. Qed.

Lemma same_notes_trans (st1 st2 st3 : state) :
  same_notes st1 st2 -> same_notes st2 st3 -> same_notes st1 st3.
Proof.
  intros [Ha1 Hs1] [Ha2 Hs2]. split; [congruence |].
  intros key. now rewrite Hs2, Hs1.
Qed.

Lemma same_notes_when (b : bool) (f : state -> state) (st : state) :
  (forall st0, same_notes st0 (f st0)) -> same_notes st (when b f st).
Proof. intros Hf. destruct b; [apply Hf | apply same_notes_refl]. Qed.

Lemma same_notes_controls (st : state) :
  same_notes st (octave_down st) /\ same_notes st (octave_up st)
  /\ same_notes st (volume_down st) /\ same_notes st (volume_up st)
  /\ same_notes st (set_running false st)
  /\ forall name, same_notes st (clear_cache (set_instrument name st)).
Proof. repeat split. Qed.

Lemma get_sound_same_notes (st : state) (inst : string) (octv semitone : Z) :
  exists (snd : Sound) (st' : state),
    get_sound st inst octv semitone = Ok (snd, st') /\ same_notes st st'.
Proof.
  destruct (dict_get ((inst, octv, semitone, Py.round (volume st) 3) : RenderKey)
              (sound_cache st)) as [snd |] eqn:Hget.
  - exists snd, st. split; [| apply same_notes_refl].
    apply get_sound_hit. exact Hget.
  - destruct (get_sound_miss st inst octv semitone Hget)
      as (audio & g' & _ & Hg).
    do 2 eexists. split; [exact Hg |].
    split; [reflexivity |].
    intros key. cbn [store_sound emit log]. now rewrite sounding_snoc.
Qed.

Lemma notes_ok_same (st st' : state) :
  notes_ok st -> same_notes st st' -> notes_ok st'.
Proof.
  intros [Hs Hk] [Ha Hl]. split; intros key.
  - rewrite Hl, Ha. apply Hs.
  - rewrite Ha. apply Hk.
Qed.

Lemma notes_ok_initial (g : Np.rng) : notes_ok (initial_state g).
Proof.
  split; intros key; cbn [initial_state active_channels log].
  - now rewrite lookup_empty.
  - rewrite lookup_empty. intros [ch Hch]. discriminate.
Qed.

Lemma note_on_ok (key : Z) (answer : option Channel) (st : state)
    (entry : Z * Z * bool * string) :
  entry.1.1.1 ∈ keyboard_keys -> notes_ok st ->
  exists st', note_on key answer st entry = Ok st' /\ notes_ok st'.
Proof.
  destruct entry as [[[pk semi] is_black] label]. cbn [fst].
  intros Hpk Hok. unfold note_on.
  destruct (Z.eqb_spec key pk) as [-> | Hne]; cbn [andb];
    [| exists st; now split].
  destruct (active_channels st !! pk) as [ch0 |] eqn:Hact.
  { rewrite bool_decide_eq_true_2 by (now exists ch0).
    exists st. now split. }
  rewrite bool_decide_eq_false_2 by (intros [ch Hch]; discriminate).
  cbn [negb].
  destruct (get_sound_same_notes st (instrument st) (octave_shift st) semi)
    as (snd & st1 & -> & Hsame).
  cbn [mbind result_bind].
  pose proof (notes_ok_same _ _ Hok Hsame) as [Hs1 Hk1].
  destruct Hsame as [Ha1 _]. rewrite Ha1 in Hs1, Hk1.
  destruct answer as [ch |]; eexists; (split; [reflexivity |]).
  - split; intros key; cbn [set_active_channels emit active_channels log].
    + rewrite sounding_snoc, Hs1, Ha1.
      destruct (Z.eqb_spec pk key) as [<- | Hk].
      * now rewrite lookup_insert_eq, Hact.
      * now rewrite lookup_insert_ne.
    + rewrite Ha1. destruct (decide (pk = key)) as [<- | Hk].
      * intros _. exact Hpk.
      * rewrite lookup_insert_ne by exact Hk. apply Hk1.
  - split; intros key; cbn [emit active_channels log].
    + rewrite sounding_snoc, Hs1, Ha1. reflexivity.
    + rewrite Ha1. apply Hk1.
Qed.

Lemma for_each_note_on_ok (key : Z) (answer : option Channel)
    (entries : list (Z * Z * bool * string)) (st : state) :
  Forall (fun entry => entry.1.1.1 ∈ keyboard_keys) entries ->
  notes_ok st ->
  exists st', for_each (note_on key answer) st entries = Ok st'
              /\ notes_ok st'.
Proof.
  intros Hall. revert st.
  induction Hall as [| entry entries Hentry _ IH]; intros st Hok.
  - exists st. now split.
  - destruct (note_on_ok key answer st entry Hentry Hok) as (st1 & H1 & Hok1).
    cbn [for_each]. rewrite H1. cbn [mbind result_bind].
    now apply IH.
Qed.

Lemma keyboard_map_keys :
  Forall (fun entry : Z * Z * bool * string => entry.1.1.1 ∈ keyboard_keys)
         KEYBOARD_MAP.
Proof.
  apply Forall_forall. intros entry Hin. unfold keyboard_keys.
  apply list_elem_of_fmap. now exists entry.
Qed.

Lemma buttons_same_notes (pos : Z * Z) (l : list (string * Rect))
    (st : state) :
  same_notes st
    (foldl (fun st '(name, rect) =>
              when (collidepoint rect pos)
                   (fun st => clear_cache (set_instrument name st)) st)
           st l).
Proof.
  revert st. induction l as [| [name rect] l IH]; intros st;
    [apply same_notes_refl |].
  cbn [foldl]. eapply same_notes_trans; [| apply IH].
  apply same_notes_when. intros st0. apply (same_notes_controls st0).
Qed.

Lemma handle_event_ok (st : state) (ev : event) (answer : option Channel) :
  notes_ok st ->
  exists st', handle_event st ev answer = Ok st' /\ notes_ok st'.
Proof.
  intros Hok. destruct ev as [| key | key | button pos |].
  - exists (set_running false st). split; [reflexivity |].
    eapply notes_ok_same; [exact Hok | now split].
  - cbn [handle_event]. apply for_each_note_on_ok; [apply keyboard_map_keys |].
    eapply notes_ok_same; [exact Hok |].
    do 5 (eapply same_notes_trans;
          [| apply same_notes_when; intros st0;
             apply (same_notes_controls st0)]).
    apply same_notes_refl.
  - cbn [handle_event]. destruct Hok as [Hs Hk].
    destruct (active_channels st !! key) as [ch |] eqn:Hact.
    + eexists. split; [reflexivity |].
      split; intros key'; cbn [set_active_channels emit active_channels log].
      * rewrite sounding_snoc, Hs.
        destruct (Z.eqb_spec key key') as [<- | Hne].
        -- rewrite lookup_delete_eq, Hact. reflexivity.
        -- now rewrite lookup_delete_ne.
      * destruct (decide (key = key')) as [<- | Hne].
        -- rewrite lookup_delete_eq. intros [c Hc]. discriminate.
        -- rewrite lookup_delete_ne by exact Hne. apply Hk.
    + exists st. now split.
  - cbn [handle_event]. destruct (button =? 1)%Z; [| exists st; now split].
    eexists. split; [reflexivity |].
    eapply notes_ok_same; [exact Hok |].
    do 4 (eapply same_notes_trans;
          [| apply same_notes_when; intros st0;
             apply (same_notes_controls st0)]).
    apply buttons_same_notes.
  - exists st. now split.
Qed.

Lemma run_ok (evs : list (event * option Channel)) (st st' : state) :
  notes_ok st -> run st evs = Ok st' -> notes_ok st'.
Proof.
  revert st. induction evs as [| [ev answer] evs IH]; intros st Hok.
  - now intros [= <-].
  - cbn [run].
    destruct (handle_event_ok st ev answer Hok) as (st1 & -> & Hok1).
    cbn [mbind result_bind]. now apply IH.
Qed.

Lemma reachable_notes_ok (st : state) : reachable st -> notes_ok st.
Proof.
  intros (g & evs & Hrun).
  eapply run_ok; [apply notes_ok_initial | exact Hrun].
Qed.

(** No handled event raises: the run over any list of events exists. *)
Lemma run_returns (evs : list (event * option Channel)) (st : state) :
  notes_ok st -> exists st', run st evs = Ok st'.
Proof.
  revert st. induction evs as [| [ev answer] evs IH]; intros st Hok.
  - now exists st.
  - cbn [run].
    destruct (handle_event_ok st ev answer Hok) as (st1 & -> & Hok1).
    cbn [mbind result_bind]. now apply IH.
Qed.

Lemma keyboard_keys_distinct : NoDup keyboard_keys.
Proof.
  unfold keyboard_keys. cbn [map KEYBOARD_MAP fst].
  repeat (apply NoDup_cons; split;
          [intros H;
           repeat (apply elem_of_cons in H as [H | H]; [discriminate H |]);
           now apply elem_of_nil in H |]).
  apply NoDup_nil. exact I.
Qed.

Lemma note_key_is_no_control (key : Z) :
  key ∈ keyboard_keys ->
  (key =? K_ESCAPE)%Z = false /\ (key =? K_LEFTBRACKET)%Z = false
  /\ (key =? K_RIGHTBRACKET)%Z = false /\ (key =? K_MINUS)%Z = false
  /\ (key =? K_EQUALS)%Z = false.
Proof.
  unfold keyboard_keys. cbn [map KEYBOARD_MAP fst]. intros H.
  repeat (apply elem_of_cons in H as [-> | H]; [now repeat split |]).
  now apply elem_of_nil in H.
Qed.

Lemma for_each_note_on_held (key : Z) (answer : option Channel) (st : state)
    (entries : list (Z * Z * bool * string)) :
  is_Some (active_channels st !! key) ->
  for_each (note_on key answer) st entries = Ok st.
Proof.
  intros Hheld. induction entries as [| [[[pk semi] is_black] label] l IH];
    [reflexivity |].
  cbn [for_each note_on].
  destruct (Z.eqb_spec key pk) as [<- | Hne]; cbn [andb].
  - rewrite bool_decide_eq_true_2 by exact Hheld.
    cbn [negb mbind result_bind]. exact IH.
  - cbn [mbind result_bind]. exact IH.
Qed.

(** A key-down for a key of the keyboard map that has no handle plays its
    sound and records the channel the mixer hands out. *)
Lemma for_each_note_on_starts (key : Z) (ch : Channel)
    (entries : list (Z * Z * bool * string)) (st : state) :
  key ∈ map (fun entry => entry.1.1.1) entries ->
  active_channels st !! key = None ->
  exists st', for_each (note_on key (Some ch)) st entries = Ok st'
              /\ active_channels st' !! key = Some ch.
Proof.
  induction entries as [| [[[pk semi] is_black] label] l IH];
    cbn [map fst]; intros Hin Hfree.
  - now apply elem_of_nil in Hin.
  - cbn [for_each note_on]. destruct (decide (key = pk)) as [-> | Hne].
    + rewrite Z.eqb_refl. cbn [andb].
      rewrite bool_decide_eq_false_2
        by (rewrite Hfree; intros [c Hc]; discriminate).
      cbn [negb].
      destruct (get_sound_same_notes st (instrument st) (octave_shift st) semi)
        as (snd & st1 & -> & [Ha1 _]).
      cbn [mbind result_bind]. eexists. split.
      * apply for_each_note_on_held.
        cbn [set_active_channels emit active_channels].
        rewrite lookup_insert_eq. now exists ch.
      * cbn [set_active_channels emit active_channels].
        apply lookup_insert_eq.
    + destruct (Z.eqb_spec key pk) as [? | _]; [contradiction |].
      cbn [andb mbind result_bind]. apply IH; [| exact Hfree].
      apply elem_of_cons in Hin as [? | Hin]; [contradiction | exact Hin].
Qed.

Lemma key_down_starts (st : state) (key : Z) (ch : Channel) :
  notes_ok st -> key ∈ keyboard_keys -> active_channels st !! key = None ->
  exists st', handle_event st (KEYDOWN key) (Some ch) = Ok st'
              /\ active_channels st' !! key = Some ch.
Proof.
  intros Hok Hkey Hfree.
  destruct (note_key_is_no_control key Hkey) as (He & Hl & Hr & Hm & Hq).
  cbn [handle_event]. rewrite He, Hl, Hr, Hm, Hq. cbn [when].
  now apply for_each_note_on_starts.
Qed.

(** C9. In every state reached by handling events, each key has at most one
    playback that was started and not yet faded out, and it has one exactly
    when the map of active channels holds a handle for it.  A key-down for a
    key that has a handle changes nothing: no rendering, no playback, the
    same state.  A key-up leaves the key without handle and without
    playback, and the handles of the other keys as they were. *)
Theorem one_handle_per_key (st : state) :
  reachable st ->
  (forall key : Z,
      (0 <= sounding key (log st) <= 1)%Z
      /\ (sounding key (log st) = 1%Z <-> is_Some (active_channels st !! key)))
  /\ (forall (key : Z) (answer : option Channel),
        is_Some (active_channels st !! key) ->
        handle_event st (KEYDOWN key) answer = Ok st)
  /\ (forall (key : Z) (answer : option Channel),
        exists st' : state,
          handle_event st (KEYUP key) answer = Ok st'
          /\ active_channels st' !! key = None
          /\ sounding key (log st') = 0%Z
          /\ forall key' : Z,
               key' <> key ->
               active_channels st' !! key' = active_channels st !! key').
Proof.
  intros Hreach. pose proof (reachable_notes_ok st Hreach) as Hok.
  split; [| split].
  - intros key. destruct Hok as [Hs _]. rewrite (Hs key).
    destruct (active_channels st !! key) as [ch |]; split; try lia.
    + split; [intros _; now exists ch | reflexivity].
    + split; [discriminate | intros [ch Hch]; discriminate].
  - intros key answer Hheld. destruct Hok as [_ Hk].
    destruct (note_key_is_no_control key (Hk key Hheld))
      as (He & Hl & Hr & Hm & Hq).
    cbn [handle_event]. rewrite He, Hl, Hr, Hm, Hq. cbn [when].
    now apply for_each_note_on_held.
  - intros key answer.
    destruct (handle_event_ok st (KEYUP key) answer Hok) as (st' & Hh & Hok').
    exists st'. split; [exact Hh |].
    assert (Hgone : active_channels st' !! key = None
                    /\ forall key', key' <> key ->
                         active_channels st' !! key'
                         = active_channels st !! key').
    { cbn [handle_event] in Hh.
      destruct (active_channels st !! key) as [ch |] eqn:Hact;
        injection Hh as <-; cbn [set_active_channels emit active_channels].
      - split; [apply lookup_delete_eq |].
        intros key' Hne. now apply lookup_delete_ne.
      - now split. }
    destruct Hgone as [Hnone Hothers].
    split; [exact Hnone |]. split; [| exact Hothers].
    destruct Hok' as [Hs' _]. now rewrite (Hs' key), Hnone.
Qed.

Lemma one_handle_per_key_witness :
  exists st : state,
    run (initial_state (fun _ => 0)) [(KEYDOWN K_a, Some (0%nat : Channel))]
    = Ok st
    /\ active_channels st !! K_a = Some (0%nat : Channel)
    /\ sounding K_a (log st) = 1%Z
    /\ handle_event st (KEYDOWN K_a) (Some (1%nat : Channel)) = Ok st.
Proof.
  destruct (key_down_starts (initial_state (fun _ => 0)) K_a (0%nat : Channel))
    as (st & Hdown & Hact).
  - apply notes_ok_initial.
  - unfold keyboard_keys. cbn [map KEYBOARD_MAP fst]. apply elem_of_cons.
    now left.
  - apply lookup_empty.
  - exists st.
    assert (Hrun : run (initial_state (fun _ => 0))
                     [(KEYDOWN K_a, Some (0%nat : Channel))] = Ok st)
      by (cbn [run]; rewrite Hdown; reflexivity).
    assert (Hreach : reachable st)
      by (now exists (fun _ => 0), [(KEYDOWN K_a, Some (0%nat : Channel))]).
    destruct (one_handle_per_key st Hreach) as (Hone & Hheld & _).
    assert (Hsome : is_Some (active_channels st !! K_a)) by (now exists 0%nat).
    split; [exact Hrun |]. split; [exact Hact |].
    split; [now apply Hone | now apply Hheld].
Defined.

(** ** The playable range *)

(** X2. With the offsets of the keyboard map and the octave shifts the
    controls allow, every frequency lies between a quarter and eight times
    the base frequency, from 65.4 Hz to 2093.1 Hz, far below half the
    sample rate. *)
Theorem semitone_to_freq_playable_range (s o : Z) :
  (0 <= s <= 12)%Z -> (-2 <= o <= 2)%Z ->
  C4_FREQ / 4 <= semitone_to_freq s o <= 8 * C4_FREQ
  /\ 65.4 < semitone_to_freq s o < 2093.1
  /\ 2 * semitone_to_freq s o < IZR SAMPLE_RATE.
Proof.
  intros Hs Ho.
  assert (Hlo : semitone_to_freq 0 (-2) = C4_FREQ / 4).
  { unfold semitone_to_freq. change (0 + -2 * 12)%Z with (-24)%Z.
    replace (IZR (-24) / 12) with (- INR 2)
      by (change (INR 2) with (1 + 1); lra).
    rewrite Rpower_Ropp, Rpower_pow by lra.
    change (2 ^ 2) with (2 * (2 * 1)). lra. }
  assert (Hhi : semitone_to_freq 12 2 = 8 * C4_FREQ).
  { unfold semitone_to_freq. change (12 + 2 * 12)%Z with 36%Z.
    replace (IZR 36 / 12) with (INR 3)
      by (change (INR 3) with (1 + 1 + 1); lra).
    rewrite Rpower_pow by lra.
    change (2 ^ 3) with (2 * (2 * (2 * 1))). lra. }
  assert (Hrange : C4_FREQ / 4 <= semitone_to_freq s o <= 8 * C4_FREQ).
  { rewrite <- Hlo, <- Hhi. split.
    - destruct (Z.eq_dec (0 + 12 * -2) (s + 12 * o)) as [He | Hne].
      + right. unfold semitone_to_freq.
        replace (s + o * 12)%Z with (0 + -2 * 12)%Z by lia. reflexivity.
      + left. apply semitone_to_freq_mono. lia.
    - destruct (Z.eq_dec (s + 12 * o) (12 + 12 * 2)) as [He | Hne].
      + right. unfold semitone_to_freq.
        replace (s + o * 12)%Z with (12 + 2 * 12)%Z by lia. reflexivity.
      + left. apply semitone_to_freq_mono. lia. }
  split; [exact Hrange |].
  unfold C4_FREQ, SAMPLE_RATE in *. split; lra.
Qed.

Lemma semitone_to_freq_playable_range_witness :
  65.4 < semitone_to_freq 9 0 < 2093.1.
Proof.
  destruct (semitone_to_freq_playable_range 9 0) as (_ & H & _); [lia | lia |].
  exact H.
Defined.

(** ** The envelope: when it is built and what it holds *)

Lemma adsr_envelope_decay_overflow (n : Z) (attack decay : float)
    (sustain : R) (release : float) (a d r : Z) :
  sample_count attack = Ok a -> sample_count decay = Ok d ->
  sample_count release = Ok r ->
  (0 <= a)%Z -> (a <= n < a + d)%Z -> (1 < d)%Z ->
  adsr_envelope n attack decay sustain release = Raise ValueError.
Proof.
  intros Ca Cd Cr Ha Hn Hd.
  unfold adsr_envelope. rewrite Ca, Cd, Cr. cbn [mbind result_bind]. cbv zeta.
  unfold Np.zeros. destruct (Z.ltb_spec n 0) as [? | _]; [lia |].
  cbn [mbind result_bind].
  destruct (ramp_stage_fits a 0 (repeat 0 (Z.to_nat n))
              (Np.linspace 0 1 a false))
    as (env1 & -> & Hl1); try lia.
  { rewrite repeat_length. lia. }
  { apply length_linspace. }
  rewrite repeat_length in Hl1. cbn [mbind result_bind].
  destruct (Z.ltb_spec 0 d) as [_ | ?]; [| lia].
  erewrite setslice_mismatch; [reflexivity | | |].
  - unfold Np.slice_bounds. reflexivity.
  - rewrite length_linspace. unfold Np.clamp_index.
    destruct (Z.ltb_spec (0 + a) 0), (Z.ltb_spec (0 + a + d) 0); lia.
  - rewrite length_linspace. lia.
Qed.

Lemma adsr_envelope_negative (n : Z) (attack decay : float) (sustain : R)
    (release : float) (a d r : Z) :
  sample_count attack = Ok a -> sample_count decay = Ok d ->
  sample_count release = Ok r ->
  (n < 0)%Z -> adsr_envelope n attack decay sustain release = Raise ValueError.
Proof.
  intros Ca Cd Cr Hn.
  unfold adsr_envelope. rewrite Ca, Cd, Cr. cbn [mbind result_bind]. cbv zeta.
  unfold Np.zeros.
  destruct (Z.ltb_spec n 0); [reflexivity | lia].
Qed.

(** X3. With ramps of [a], [d] and [r] samples (the counts
    [int(attack * 44100)], [int(decay * 44100)], [int(release * 44100)] of
    lines 48-50), each of at least two samples, the envelope is built
    exactly when attack, decay and release fit into the note; it then has
    one value per sample.  For every shorter note, and for a negative
    length, the call raises [ValueError]. *)
Theorem adsr_envelope_room (n : Z) (attack decay : float) (sustain : R)
    (release : float) (a d r : Z) :
  sample_count attack = Ok a -> sample_count decay = Ok d ->
  sample_count release = Ok r ->
  (2 <= a)%Z -> (2 <= d)%Z -> (2 <= r)%Z ->
  ((a + d + r <= n)%Z ->
   exists env : Np.ndarray,
     adsr_envelope n attack decay sustain release = Ok env
     /\ length env = Z.to_nat n)
  /\ ((n < a + d + r)%Z ->
      adsr_envelope n attack decay sustain release = Raise ValueError).
Proof.
  intros Ca Cd Cr Ha Hd Hr. split.
  - intros Hfit.
    apply (adsr_envelope_fits _ _ _ _ _ _ _ _ Ca Cd Cr); lia.
  - intros Hshort.
    destruct (Z.lt_ge_cases n 0) as [Hneg | Hpos];
      [now apply (adsr_envelope_negative _ _ _ _ _ _ _ _ Ca Cd Cr) |].
    destruct (Z.lt_ge_cases n a) as [Hna | Hna];
      [apply (adsr_envelope_attack_overflow _ _ _ _ _ _ _ _ Ca Cd Cr); lia |].
    destruct (Z.lt_ge_cases n (a + d)) as [Hnd | Hnd];
      [apply (adsr_envelope_decay_overflow _ _ _ _ _ _ _ _ Ca Cd Cr); lia |].
    apply (adsr_envelope_release_overflow _ _ _ _ _ _ _ _ Ca Cd Cr); lia.
Qed.

Lemma adsr_envelope_room_witness :
  (exists env : Np.ndarray,
      adsr_envelope_default 10584 = Ok env /\ length env = Z.to_nat 10584)
  /\ adsr_envelope_default 10583 = Raise ValueError.
Proof.
  assert (Ca : sample_count 0.01 = Ok 441%Z) by now vm_compute.
  assert (Cd : sample_count 0.08 = Ok 3528%Z) by now vm_compute.
  assert (Cr : sample_count 0.15 = Ok 6615%Z) by now vm_compute.
  unfold adsr_envelope_default. split.
  - apply (adsr_envelope_room 10584 0.01 0.08 0.6 0.15 _ _ _ Ca Cd Cr); lia.
  - apply (adsr_envelope_room 10583 0.01 0.08 0.6 0.15 _ _ _ Ca Cd Cr); lia.
Defined.

Lemma arange_elements (n : Z) (v : R) :
  In v (Np.arange n) ->
  exists i : Z, (0 <= i < n)%Z /\ v = IZR i.
Proof.
  unfold Np.arange. intros Hin.
  apply in_map_iff in Hin as (k & <- & Hk). apply in_seq in Hk.
  exists (Z.of_nat k). split; [lia | apply INR_IZR_INZ].
Qed.

(** Every sample of a ramp lies between its two ends. *)
Lemma linspace_between (start stop : R) (num : Z) (endpoint : bool) (v : R) :
  In v (Np.linspace start stop num endpoint) ->
  exists t : R, 0 <= t <= 1 /\ v = start + t * (stop - start).
Proof.
  unfold Np.linspace.
  set (div := if endpoint then (num - 1)%Z else num).
  destruct (Z.ltb_spec 0 div) as [Hdiv | Hdiv]; intros Hin;
    apply in_map_iff in Hin as (x & <- & Hx);
    apply arange_elements in Hx as (i & Hi & ->).
  - assert (Hd : 0 < IZR div) by (apply IZR_lt; lia).
    assert (Hle : IZR i <= IZR div)
      by (apply IZR_le; unfold div; destruct endpoint; lia).
    assert (H0 : 0 <= IZR i) by (apply IZR_le; lia).
    exists (IZR i / IZR div). split.
    + split.
      * apply Rmult_le_pos; [exact H0 |].
        left. now apply Rinv_0_lt_compat.
      * apply (Rmult_le_reg_r (IZR div)); [exact Hd |].
        unfold Rdiv. rewrite Rmult_assoc, Rinv_l by lra. lra.
    + unfold Rdiv. ring.
  - assert (i = 0)%Z by (unfold div in Hdiv; destruct endpoint; lia).
    subst i. exists 0. split; [lra | ring].
Qed.

Lemma Forall_splice (P : R -> Prop) (x v : Np.ndarray) (b e : nat) :
  Forall P x -> Forall P v -> Forall P (Np.splice x b e v).
Proof.
  intros Hx Hv. unfold Np.splice.
  apply Forall_app. split; [now apply Forall_take |].
  apply Forall_app. split; [exact Hv | now apply Forall_drop].
Qed.

Lemma Forall_repeat (P : R -> Prop) (c : R) (k : nat) :
  P c -> Forall P (repeat c k).
Proof.
  intros Hc. apply Forall_forall. intros y Hy.
  apply list_elem_of_In, repeat_spec in Hy. now subst y.
Qed.

Lemma setslice_Forall (P : R -> Prop) (x v y : Np.ndarray) (lo hi : Z) :
  Np.setslice x lo hi v = Ok y -> Forall P x -> Forall P v -> Forall P y.
Proof.
  unfold Np.setslice. destruct (Np.slice_bounds x lo hi) as [b e].
  destruct (decide _).
  - intros [= <-] Hx Hv. now apply Forall_splice.
  - destruct v as [| c [| c' v']]; try discriminate.
    intros [= <-] Hx Hv. apply Forall_splice; [exact Hx |].
    apply Forall_repeat. now apply Forall_inv in Hv.
Qed.

Lemma fillslice_Forall (P : R -> Prop) (x : Np.ndarray) (lo hi : Z) (c : R) :
  P c -> Forall P x -> Forall P (Np.fillslice x lo hi c).
Proof.
  intros Hc Hx. unfold Np.fillslice.
  destruct (Np.slice_bounds x lo hi) as [b e].
  apply Forall_splice; [exact Hx | now apply Forall_repeat].
Qed.

Lemma getitem_Forall (P : R -> Prop) (x : Np.ndarray) (i : Z) (c : R) :
  Np.getitem x i = Ok c -> Forall P x -> P c.
Proof.
  unfold Np.getitem.
  set (j := if (i <? 0)%Z then (i + Z.of_nat (length x))%Z else i).
  destruct (Z.leb_spec 0 j), (Z.ltb_spec j (Z.of_nat (length x)));
    cbn [andb]; try discriminate.
  intros [= <-] Hx.
  rewrite Forall_forall in Hx. apply Hx, list_elem_of_In, nth_In. lia.
Qed.

Lemma ramp_values (lo hi start stop : R) (num : Z) (endpoint : bool) :
  lo <= start <= hi -> lo <= stop <= hi ->
  Forall (fun v => lo <= v <= hi) (Np.linspace start stop num endpoint).
Proof.
  intros Hs He. apply Forall_forall. intros v Hv.
  apply list_elem_of_In, linspace_between in Hv as (t & Ht & ->).
  split; nra.
Qed.

Lemma adsr_envelope_values (n : Z) (attack decay : float) (sustain : R)
    (release : float) (env : Np.ndarray) :
  0 <= sustain <= 1 ->
  adsr_envelope n attack decay sustain release = Ok env ->
  Forall (fun v => 0 <= v <= 1) env.
Proof.
  intros Hsus. unfold adsr_envelope. intros H.
  apply bind_Ok_inv in H as (a & _ & H).
  apply bind_Ok_inv in H as (d & _ & H).
  apply bind_Ok_inv in H as (r & _ & H).
  revert H. cbv zeta.
  generalize (Z.max 0 (n - (a + d + r))) as s. intros s.
  unfold Np.zeros. destruct (n <? 0)%Z; [discriminate |].
  cbn [mbind result_bind]. intros H.
  set (P := fun v : R => 0 <= v <= 1).
  assert (H0 : Forall P (repeat 0 (Z.to_nat n)))
    by (apply Forall_repeat; unfold P; lra).
  apply bind_Ok_inv in H as ([env1 idx1] & H1 & H).
  assert (P1 : Forall P env1).
  { destruct (0 <? a)%Z; [| now injection H1 as <- _].
    apply bind_Ok_inv in H1 as (env' & Hs & [= <- _]).
    eapply setslice_Forall; [exact Hs | exact H0 |].
    apply ramp_values; lra. }
  apply bind_Ok_inv in H as ([env2 idx2] & H2 & H).
  assert (P2 : Forall P env2).
  { destruct (0 <? d)%Z; [| now injection H2 as <- _].
    apply bind_Ok_inv in H2 as (env' & Hs & [= <- _]).
    eapply setslice_Forall; [exact Hs | exact P1 |].
    apply ramp_values; lra. }
  apply bind_Ok_inv in H as ([env3 idx3] & H3 & H).
  assert (P3 : Forall P env3).
  { destruct (0 <? s)%Z; injection H3 as <- _; [| exact P2].
    now apply fillslice_Forall. }
  apply bind_Ok_inv in H as ([env4 idx4] & H4 & H).
  assert (P4 : Forall P env4).
  { destruct (0 <? r)%Z; [| now injection H4 as <- _].
    apply bind_Ok_inv in H4 as (start & Hstart & H4).
    apply bind_Ok_inv in H4 as (env' & Hs & [= <- _]).
    assert (Pstart : P start).
    { destruct (0 <? idx3)%Z; [| now injection Hstart as <-].
      eapply getitem_Forall; [exact Hstart | exact P3]. }
    eapply setslice_Forall; [exact Hs | exact P3 |].
    unfold P in Pstart. apply ramp_values; lra. }
  injection H as <-.
  destruct (idx4 <? n)%Z; [| exact P4].
  apply fillslice_Forall; [unfold P; lra | exact P4].
Qed.

(** X4. Whenever the envelope is returned and the sustain level lies in
    [0, 1], it holds one value per sample of the note and every value lies
    in [0, 1]. *)
Theorem adsr_envelope_unit_range (n : Z) (attack decay : float)
    (sustain : R) (release : float) (env : Np.ndarray) :
  0 <= sustain <= 1 ->
  adsr_envelope n attack decay sustain release = Ok env ->
  Z.of_nat (length env) = n /\ Forall (fun v => 0 <= v <= 1) env.
Proof.
  intros Hsus He. split.
  - pose proof (adsr_envelope_nonneg _ _ _ _ _ _ He) as Hn.
    apply adsr_envelope_length in He. lia.
  - exact (adsr_envelope_values _ _ _ _ _ _ Hsus He).
Qed.

Lemma adsr_envelope_unit_range_witness :
  exists env : Np.ndarray,
    adsr_envelope 264600 0.003 0.22 0.15 0.35 = Ok env
    /\ Forall (fun v => 0 <= v <= 1) env.
Proof.
  destruct (adsr_envelope_returns 264600 0.003 0.22 0.15 0.35 132 9702 15434)
    as (env & He & _);
    [now vm_compute | lia | now vm_compute | lia | now vm_compute | lia
     | lia |].
  exists env. split; [exact He |].
  assert (Hs : 0 <= 0.15 <= 1) by lra.
  exact (proj2 (adsr_envelope_unit_range _ _ _ _ _ _ Hs He)).
Defined.

Lemma drop_repeat (c : R) (k m : nat) :
  drop k (repeat c m) = repeat c (m - k).
Proof.
  revert m. induction k as [| k IH]; intros m.
  - now rewrite Nat.sub_0_r.
  - destruct m as [| m]; [reflexivity | apply IH].
Qed.

Lemma splice_append (built v : Np.ndarray) (m k : nat) :
  length v = k -> (k <= m)%nat ->
  Np.splice (built ++ repeat 0 m) (length built) (length built + k) v
  = (built ++ v) ++ repeat 0 (m - k).
Proof.
  intros Hv Hk. unfold Np.splice.
  rewrite take_app_length, drop_app_add, drop_repeat.
  now rewrite app_assoc.
Qed.

Lemma ramp_stage_append (built v : Np.ndarray) (m : nat) (idx k : Z) :
  idx = Z.of_nat (length built) -> (0 <= k)%Z ->
  length v = Z.to_nat k -> (Z.to_nat k <= m)%nat ->
  (if (0 <? k)%Z
   then Np.setslice (built ++ repeat 0 m) idx (idx + k) v
        ≫= λ env' : Np.ndarray, Ok (env', (idx + k)%Z)
   else Ok (built ++ repeat 0 m, idx))
  = Ok ((built ++ v) ++ repeat 0 (m - Z.to_nat k), (idx + k)%Z).
Proof.
  intros Hidx Hk Hv Hm. destruct (Z.ltb_spec 0 k) as [Hpos | Hzero].
  - rewrite setslice_inside; try lia.
    + cbn [mbind result_bind]. do 2 f_equal.
      replace (Z.to_nat idx) with (length built) by lia.
      replace (Z.to_nat (idx + k)) with (length built + Z.to_nat k)%nat by lia.
      now apply splice_append.
    + rewrite length_app, repeat_length. lia.
  - assert (k = 0)%Z by lia. subst k.
    destruct v; [| discriminate].
    rewrite app_nil_r, Nat.sub_0_r, Z.add_0_r. reflexivity.
Qed.

Lemma fillslice_append (built : Np.ndarray) (m : nat) (idx k : Z) (c : R) :
  idx = Z.of_nat (length built) -> (0 <= k)%Z -> (Z.to_nat k <= m)%nat ->
  Np.fillslice (built ++ repeat 0 m) idx (idx + k) c
  = (built ++ repeat c (Z.to_nat k)) ++ repeat 0 (m - Z.to_nat k).
Proof.
  intros Hidx Hk Hm. unfold Np.fillslice.
  rewrite slice_bounds_inside;
    [| lia | rewrite length_app, repeat_length; lia].
  replace (Z.to_nat idx) with (length built) by lia.
  replace (Z.to_nat (idx + k)) with (length built + Z.to_nat k)%nat by lia.
  replace (length built + Z.to_nat k - length built)%nat with (Z.to_nat k)
    by lia.
  apply splice_append; [apply repeat_length | exact Hm].
Qed.

Lemma nth_last_app (built rest : Np.ndarray) (dflt : R) :
  (0 < length built)%nat ->
  nth (length built - 1) (built ++ rest) 0 = List.last built dflt.
Proof.
  intros Hlen. rewrite app_nth1 by lia.
  destruct (exists_last (l := built)) as (front & x & ->).
  { intros ->. cbn in Hlen. lia. }
  rewrite last_last, length_app. cbn [length].
  rewrite app_nth2 by lia.
  replace (length front + 1 - 1 - length front)%nat with 0%nat by lia.
  reflexivity.
Qed.

Lemma adsr_envelope_built (n : Z) (attack decay : float) (sustain : R)
    (release : float) (a d r : Z) :
  sample_count attack = Ok a -> sample_count decay = Ok d ->
  sample_count release = Ok r ->
  let body := Np.linspace 0 1 a false ++ Np.linspace 1 sustain d false
              ++ repeat sustain (Z.to_nat (n - (a + d + r))) in
  (0 <= a)%Z -> (0 <= d)%Z -> (0 <= r)%Z -> (a + d + r <= n)%Z ->
  adsr_envelope n attack decay sustain release
  = Ok (body ++ Np.linspace (List.last body sustain) 0 r true).
Proof.
  intros Ca Cd Cr body Ha Hd Hr Hfit.
  unfold adsr_envelope. rewrite Ca, Cd, Cr. cbn [mbind result_bind]. cbv zeta.
  replace (Z.max 0 (n - (a + d + r))) with (n - (a + d + r))%Z by lia.
  set (s := (n - (a + d + r))%Z) in *.
  assert (Hs : (0 <= s)%Z) by (unfold s; lia).
  unfold Np.zeros. destruct (Z.ltb_spec n 0) as [? | Hn]; [lia |].
  cbn [mbind result_bind].
  set (A := Np.linspace 0 1 a false) in *.
  set (D := Np.linspace 1 sustain d false) in *.
  assert (HA : length A = Z.to_nat a) by apply length_linspace.
  assert (HD : length D = Z.to_nat d) by apply length_linspace.
  change (repeat 0 (Z.to_nat n)) with ([] ++ repeat 0 (Z.to_nat n)).
  rewrite (ramp_stage_append [] A); [| reflexivity | lia | exact HA | lia].
  cbn [mbind result_bind].
  rewrite (ramp_stage_append ([] ++ A) D);
    [| cbn [app]; lia | lia | exact HD | lia].
  cbn [mbind result_bind].
  set (m2 := (Z.to_nat n - Z.to_nat a - Z.to_nat d)%nat).
  match goal with
  | |- mbind _ ?stage = _ =>
      assert (H3 : stage
                   = Ok (((([] ++ A) ++ D) ++ repeat sustain (Z.to_nat s))
                         ++ repeat 0 (m2 - Z.to_nat s), (0 + a + d + s)%Z))
  end.
  { destruct (Z.ltb_spec 0 s) as [Hpos | Hzero].
    - rewrite fillslice_append; [reflexivity | | lia | unfold m2; lia].
      cbn [app]. rewrite length_app. lia.
    - assert (s = 0)%Z by lia.
      replace (Z.to_nat s) with 0%nat by lia.
      cbn [repeat]. rewrite app_nil_r, Nat.sub_0_r.
      replace (0 + a + d + s)%Z with (0 + a + d)%Z by lia. reflexivity. }
  rewrite H3. cbn [mbind result_bind]. clear H3.
  cbn [app]. fold body.
  set (m3 := (m2 - Z.to_nat s)%nat).
  assert (Hbody : length body = Z.to_nat (0 + a + d + s)).
  { unfold body. rewrite !length_app, repeat_length. fold s. lia. }
  assert (Hm3 : m3 = Z.to_nat r) by (unfold m3, m2, s; lia).
  replace ((A ++ D) ++ repeat sustain (Z.to_nat s)) with body
    by (unfold body; now rewrite app_assoc).
  set (idx := (0 + a + d + s)%Z) in *.
  assert (Hstart : (if (0 <? idx)%Z
                    then Np.getitem (body ++ repeat 0 m3) (idx - 1)
                    else Ok sustain)
                   = Ok (List.last body sustain)).
  { destruct (Z.ltb_spec 0 idx) as [Hpos | Hzero].
    - rewrite getitem_inside
        by (rewrite length_app, repeat_length; lia).
      f_equal. replace (Z.to_nat (idx - 1)) with (length body - 1)%nat by lia.
      apply nth_last_app. lia.
    - destruct body; [reflexivity | cbn [length] in Hbody; lia]. }
  destruct (Z.ltb_spec 0 r) as [Hrpos | Hrzero].
  - rewrite Hstart. cbn [mbind result_bind].
    rewrite setslice_inside;
      [| lia | lia | rewrite length_app, repeat_length; lia
       | apply length_linspace].
    cbn [mbind result_bind].
    destruct (Z.ltb_spec (idx + r) n) as [? | _]; [unfold idx, s in *; lia |].
    f_equal.
    replace (Z.to_nat idx) with (length body) by lia.
    replace (Z.to_nat (idx + r)) with (length body + Z.to_nat r)%nat by lia.
    rewrite splice_append; [| apply length_linspace | lia].
    replace (m3 - Z.to_nat r)%nat with 0%nat by lia.
    cbn [repeat]. now rewrite app_nil_r.
  - cbn [mbind result_bind].
    destruct (Z.ltb_spec idx n) as [? | _]; [unfold idx, s in *; lia |].
    f_equal. replace m3 with 0%nat by lia. cbn [repeat].
    assert (Hlin : Np.linspace (List.last body sustain) 0 r true = []).
    { apply length_zero_iff_nil. rewrite length_linspace. lia. }
    now rewrite Hlin.
Qed.

Lemma last_linspace_endpoint (start stop : R) (num : Z) :
  (2 <= num)%Z -> last (Np.linspace start stop num true) = Some stop.
Proof.
  intros Hnum. unfold Np.linspace, Np.arange.
  destruct (Z.ltb_spec 0 (num - 1)) as [_ | ?]; [| lia].
  destruct (Z.to_nat num) as [| k] eqn:Hk; [lia |].
  rewrite seq_S, !map_app. cbn [map]. rewrite last_snoc. f_equal.
  cbn [plus]. rewrite INR_IZR_INZ.
  replace (Z.of_nat k) with (num - 1)%Z by lia.
  assert (IZR (num - 1) <> 0) by (apply not_0_IZR; lia).
  field. assumption.
Qed.

Lemma head_linspace (start stop : R) (num : Z) (endpoint : bool) :
  (0 < num)%Z -> head (Np.linspace start stop num endpoint) = Some start.
Proof.
  intros Hnum. unfold Np.linspace.
  destruct (0 <? _)%Z.
  - rewrite (head_map (fun i => start + i * ((stop - start) / IZR _)) _ 0)
      by (now apply head_arange).
    f_equal. ring.
  - rewrite (head_map (fun i => start + i * (stop - start)) _ 0)
      by (now apply head_arange).
    f_equal. ring.
Qed.

(** X5. When the ramps (of [a], [d] and [r] samples, the counts of lines
    48-50) fit into the note, the envelope is the attack ramp
    from 0 towards 1, the decay ramp from 1 towards the sustain level, the
    sustain plateau that fills the room left, and the release ramp that
    runs from the last value before it (the sustain level when nothing
    precedes it) down to 0, in this order and nothing else.  So it starts
    at 0 when there is an attack, and it ends at 0 when the release has two
    samples or more. *)
Theorem adsr_envelope_segments (n : Z) (attack decay : float)
    (sustain : R) (release : float) (a d r : Z) :
  sample_count attack = Ok a -> sample_count decay = Ok d ->
  sample_count release = Ok r ->
  let body := Np.linspace 0 1 a false ++ Np.linspace 1 sustain d false
              ++ repeat sustain (Z.to_nat (n - (a + d + r))) in
  (0 <= a)%Z -> (0 <= d)%Z -> (0 <= r)%Z -> (a + d + r <= n)%Z ->
  exists env : Np.ndarray,
    adsr_envelope n attack decay sustain release = Ok env
    /\ env = body ++ Np.linspace (List.last body sustain) 0 r true
    /\ ((0 < a)%Z -> head env = Some 0)
    /\ ((2 <= r)%Z -> last env = Some 0).
Proof.
  intros Ca Cd Cr body Ha Hd Hr Hfit.
  eexists. split; [now apply (adsr_envelope_built _ _ _ _ _ a d r) |].
  fold body. split; [reflexivity |]. split.
  - intros Hpos. unfold body.
    pose proof (head_linspace 0 1 a false Hpos) as Hh.
    destruct (Np.linspace 0 1 a false); [discriminate | exact Hh].
  - intros Hrel.
    pose proof (last_linspace_endpoint (List.last body sustain) 0 r Hrel)
      as Hl.
    destruct (Np.linspace (List.last body sustain) 0 r true) as [| x l]
      using rev_ind; [discriminate |].
    rewrite last_snoc in Hl. now rewrite app_assoc, last_snoc.
Qed.

Lemma adsr_envelope_segments_witness :
  exists env : Np.ndarray,
    adsr_envelope_default 10584 = Ok env
    /\ head env = Some 0 /\ last env = Some 0.
Proof.
  assert (Ca : sample_count 0.01 = Ok 441%Z) by now vm_compute.
  assert (Cd : sample_count 0.08 = Ok 3528%Z) by now vm_compute.
  assert (Cr : sample_count 0.15 = Ok 6615%Z) by now vm_compute.
  destruct (adsr_envelope_segments 10584 0.01 0.08 0.6 0.15 _ _ _ Ca Cd Cr)
    as (env & He & _ & Hhead & Hlast); try lia.
  exists env. split; [exact He |].
  split; [apply Hhead | apply Hlast]; lia.
Defined.

(** ** The shortest note of each instrument *)

Lemma adsr_envelope_too_short (n : Z) (attack decay : float) (sustain : R)
    (release : float) (a d r : Z) :
  sample_count attack = Ok a -> (2 <= a)%Z ->
  sample_count decay = Ok d -> (2 <= d)%Z ->
  sample_count release = Ok r -> (2 <= r)%Z ->
  (n < a + d + r)%Z ->
  adsr_envelope n attack decay sustain release = Raise ValueError.
Proof.
  intros Ca Ha Cd Hd Cr Hr Hshort.
  destruct (Z.lt_ge_cases n 0) as [Hneg | Hpos];
    [now apply (adsr_envelope_negative _ _ _ _ _ _ _ _ Ca Cd Cr) |].
  destruct (Z.lt_ge_cases n a) as [Hna | Hna];
    [apply (adsr_envelope_attack_overflow _ _ _ _ _ _ _ _ Ca Cd Cr); lia |].
  destruct (Z.lt_ge_cases n (a + d)) as [Hnd | Hnd];
    [apply (adsr_envelope_decay_overflow _ _ _ _ _ _ _ _ Ca Cd Cr); lia |].
  apply (adsr_envelope_release_overflow _ _ _ _ _ _ _ _ Ca Cd Cr); lia.
Qed.

Lemma enveloped_threshold (g : Np.rng) (n : Z) (wave : R -> R)
    (axis : Np.ndarray) (att dec : float) (sus : R) (rel : float)
    (a d r : Z) :
  length axis = Z.to_nat n ->
  sample_count att = Ok a -> (2 <= a)%Z ->
  sample_count dec = Ok d -> (2 <= d)%Z ->
  sample_count rel = Ok r -> (2 <= r)%Z ->
  ((a + d + r <= n)%Z ->
   exists (sig : Np.ndarray) (g' : Np.rng),
     (env ← adsr_envelope n att dec sus rel;
      sig ← Np.imul (map wave axis) env;
      Ok (sig, g)) = Ok (sig, g'))
  /\ ((n < a + d + r)%Z ->
      (env ← adsr_envelope n att dec sus rel;
       sig ← Np.imul (map wave axis) env;
       Ok (sig, g)) = Raise ValueError).
Proof.
  intros Hax Ca Ha Cd Hd Cr Hr. split.
  - intros Hfit.
    destruct (enveloped_returns g n wave axis att dec sus rel a d r)
      as (sig & Hs & _); try assumption; try lia.
    now exists sig, g.
  - intros Hshort.
    rewrite (adsr_envelope_too_short n att dec sus rel a d r)
      by assumption.
    reflexivity.
Qed.

Lemma synth_signal_threshold (g : Np.rng) (freq : R) (duration : float)
    (instrument : string) (n : Z) :
  sample_count duration = Ok n ->
  ((ramp_samples instrument <= n)%Z ->
   exists (sig : Np.ndarray) (g' : Np.rng),
     synth_signal g freq duration instrument = Ok (sig, g'))
  /\ ((n < ramp_samples instrument)%Z ->
      synth_signal g freq duration instrument = Raise ValueError).
Proof.
  intros Cn.
  pose proof (length_time_axis n) as Ht.
  pose proof (length_phase_axis freq n) as Hp.
  pose proof (synth_signal_returns g freq duration "Piano-ish" n Cn) as Hret.
  revert Hret.
  unfold synth_signal, ramp_samples. rewrite Cn. cbn [mbind result_bind].
  cbv zeta. intros Hret.
  destruct (String.eqb instrument "Sine").
  { apply (enveloped_threshold g n wave_sine _ _ _ _ _ 441 2646 7938);
      [exact Hp | now vm_compute | lia | now vm_compute | lia
       | now vm_compute | lia]. }
  destruct (String.eqb instrument "Square").
  { apply (enveloped_threshold g n wave_square _ _ _ _ _ 220 2205 5292);
      [exact Hp | now vm_compute | lia | now vm_compute | lia
       | now vm_compute | lia]. }
  destruct (String.eqb instrument "Triangle").
  { apply (enveloped_threshold g n wave_triangle _ _ _ _ _ 441 3528 6615);
      [exact Hp | now vm_compute | lia | now vm_compute | lia
       | now vm_compute | lia]. }
  destruct (String.eqb instrument "Saw").
  { apply (enveloped_threshold g n wave_saw _ _ _ _ _ 441 4410 7938);
      [exact Hp | now vm_compute | lia | now vm_compute | lia
       | now vm_compute | lia]. }
  destruct (String.eqb instrument "Organ").
  { apply (enveloped_threshold g n
             (fun p => 0.70 * wave_sine p + 0.20 * wave_sine (2 * p)
                       + 0.10 * wave_sine (3 * p))
             _ _ _ _ _ 882 2646 9702);
      [exact Hp | now vm_compute | lia | now vm_compute | lia
       | now vm_compute | lia]. }
  destruct (String.eqb instrument "Bell").
  { apply (enveloped_threshold g n
             (fun p => 0.70 * wave_sine p + 0.35 * wave_sine (2.71 * p)
                       + 0.20 * wave_sine (5.18 * p))
             _ _ _ _ _ 88 8820 15434);
      [exact Hp | now vm_compute | lia | now vm_compute | lia
       | now vm_compute | lia]. }
  destruct (String.eqb instrument "Piano-ish").
  { split.
    - intros Hfit.
      change (String.eqb "Piano-ish" "Sine") with false in Hret.
      change (String.eqb "Piano-ish" "Square") with false in Hret.
      change (String.eqb "Piano-ish" "Triangle") with false in Hret.
      change (String.eqb "Piano-ish" "Saw") with false in Hret.
      change (String.eqb "Piano-ish" "Organ") with false in Hret.
      change (String.eqb "Piano-ish" "Bell") with false in Hret.
      change (String.eqb "Piano-ish" "Piano-ish") with true in Hret.
      cbv iota in Hret. apply Hret. lia.
    - intros Hshort.
      rewrite (adsr_envelope_too_short n 0.003 0.22 0.15 0.35 132 9702 15434);
        [reflexivity | now vm_compute | lia | now vm_compute | lia
         | now vm_compute | lia | lia]. }
  destruct (String.eqb instrument "Chiptune").
  { apply (enveloped_threshold g n
             (fun ti => Np.sign
                (sin (2 * PI * freq
                      * (1.0 + 0.003 * sin (2 * PI * 6.0 * ti)) * ti)))
             _ _ _ _ _ 88 1764 3528);
      [exact Ht | now vm_compute | lia | now vm_compute | lia
       | now vm_compute | lia]. }
  unfold adsr_envelope_default. split.
  - intros Hfit.
    destruct (adsr_envelope_returns n 0.01 0.08 0.6 0.15 441 3528 6615)
      as (env & -> & Hl);
      [now vm_compute | lia | now vm_compute | lia | now vm_compute | lia
       | lia |].
    cbn [mbind result_bind].
    rewrite mul_same by (rewrite length_map; congruence).
    now do 2 eexists.
  - intros Hshort.
    rewrite (adsr_envelope_too_short n 0.01 0.08 0.6 0.15 441 3528 6615);
      [reflexivity | now vm_compute | lia | now vm_compute | lia
       | now vm_compute | lia | lia].
Qed.

(** X6. Each instrument has a shortest note: [synth_note] returns a buffer,
    of [int(duration * 44100)] frames, exactly when that count reaches the
    samples of the instrument's attack, decay and release ramps; for every
    shorter duration, zero and negative ones included, it raises
    [ValueError].  All counts are those of the binary64 products: "Bell"
    needs 24342 samples and "Piano-ish" 25268. *)
Theorem synth_note_shortest (g : Np.rng) (freq : R) (duration : float)
    (instrument : string) (volume : R) (n : Z) :
  sample_count duration = Ok n ->
  ((ramp_samples instrument <= n)%Z ->
   exists (buf : list (Z * Z)) (g' : Np.rng),
     synth_note g freq duration instrument volume = Ok (buf, g')
     /\ Z.of_nat (length buf) = n)
  /\ ((n < ramp_samples instrument)%Z ->
      synth_note g freq duration instrument volume = Raise ValueError).
Proof.
  intros Cn.
  destruct (synth_signal_threshold g freq duration instrument n Cn)
    as [Hfit Hshort].
  split.
  - intros Hn. destruct (Hfit Hn) as (sig & g' & Hsig).
    exists (finish_note sig volume), g'. unfold synth_note.
    rewrite Hsig. split; [reflexivity |].
    rewrite length_finish_note.
    pose proof (synth_signal_nonneg _ _ _ _ _ _ _ Cn Hsig).
    rewrite (synth_signal_length _ _ _ _ _ _ _ Cn Hsig). lia.
  - intros Hn. unfold synth_note. now rewrite (Hshort Hn).
Qed.

Lemma synth_note_shortest_witness :
  (exists (buf : list (Z * Z)) (g' : Np.rng),
      synth_note (fun _ => 0) 440 0.55198 "Bell" 0.5 = Ok (buf, g')
      /\ Z.of_nat (length buf) = 24342%Z)
  /\ synth_note (fun _ => 0) 440 0.125 "Square" 0.5 = Raise ValueError.
Proof.
  assert (Cb : sample_count 0.55198 = Ok 24342%Z) by now vm_compute.
  assert (Cs : sample_count 0.125 = Ok 5512%Z) by now vm_compute.
  split.
  - destruct (synth_note_shortest (fun _ => 0) 440 0.55198 "Bell" 0.5 _ Cb)
      as [Hfit _].
    apply Hfit. vm_compute. discriminate.
  - destruct (synth_note_shortest (fun _ => 0) 440 0.125 "Square" 0.5 _ Cs)
      as [_ Hshort].
    apply Hshort. vm_compute. reflexivity.
Defined.

(** ** Loudness *)

Lemma int_shrinks (x : R) : Rabs (IZR (Py.int x)) <= Rabs x.
Proof.
  unfold Py.int. destruct (Rle_dec 0 x) as [Hx | Hx].
  - pose proof (Zfloor_bound x) as [Hf _].
    assert (0 <= IZR (Zfloor x))
      by (apply IZR_le, Zfloor_lub; exact Hx).
    rewrite !Rabs_pos_eq; lra.
  - pose proof (Zceil_bound x) as [_ Hc].
    assert (IZR (Zceil x) <= 0).
    { apply IZR_le. replace 0%Z with (Zceil 0) by (apply Zceil_eq; lra).
      apply Zceil_le. lra. }
    rewrite !Rabs_left1; lra.
Qed.

Lemma finish_note_peak (sig : Np.ndarray) (volume : R) :
  0 <= volume <= 1 ->
  Forall (fun frame : Z * Z =>
            frame.1 = frame.2 /\ Rabs (IZR frame.1) <= 32767 * volume)
         (finish_note sig volume).
Proof.
  intros Hv. rewrite finish_note_frames. apply Forall_forall.
  intros frame Hin.
  apply list_elem_of_In, in_map_iff in Hin as (x & <- & _).
  cbv zeta. cbn [fst snd]. split; [reflexivity |].
  set (y := Np.clip (-1) 1 x * volume * 32767).
  pose proof (clip_range x) as Hc.
  assert (Hb : - (32767 * volume) <= y <= 32767 * volume)
    by (unfold y; split; nra).
  assert (Hy : Rabs y <= 32767 * volume) by (now apply Rabs_le).
  assert (Hq : Np.astype_int16 y = Py.int y).
  { unfold Np.astype_int16. apply wrap16_inside.
    assert (Hr : - IZR 32767 <= y <= IZR 32767) by (split; nra).
    assert (H0 : (0 <= 32767)%Z) by lia.
    pose proof (int_bounds y 32767 H0 Hr). lia. }
  rewrite Hq. pose proof (int_shrinks y). lra.
Qed.

(** X7. With a volume between 0 and 1, every sample of a returned buffer
    stays less than one quantisation step above [32767 * volume] in
    magnitude: the volume bounds the peak.  (The step leaves room for the
    rounding of the two float32 products of lines 132 and 134; in exact
    arithmetic the bound is [32767 * volume] itself.) *)
Theorem synth_note_peak (g g' : Np.rng) (freq : R) (duration : float)
    (instrument : string) (volume : R) (buf : list (Z * Z)) :
  0 <= volume <= 1 ->
  synth_note g freq duration instrument volume = Ok (buf, g') ->
  Forall (fun frame : Z * Z =>
            Rabs (IZR frame.1) < 32767 * volume + 1
            /\ Rabs (IZR frame.2) < 32767 * volume + 1) buf.
Proof.
  intros Hv H. apply synth_note_inv in H as (sig & _ & ->).
  eapply Forall_impl; [apply (finish_note_peak sig volume Hv) |].
  intros frame [Heq Hpeak]. rewrite <- Heq. split; lra.
Qed.

Lemma synth_note_peak_witness :
  exists (buf : list (Z * Z)) (g' : Np.rng),
    synth_note (fun _ => 0) 440 6.0 "Bell" 0.05 = Ok (buf, g')
    /\ Forall (fun frame : Z * Z =>
                 Rabs (IZR frame.1) < 32767 * 0.05 + 1
                 /\ Rabs (IZR frame.2) < 32767 * 0.05 + 1) buf.
Proof.
  destruct (note_duration_rendered (fun _ => 0) 440 "Bell" 0.05)
    as (buf & g' & H).
  exists buf, g'. split; [exact H |].
  assert (Hv : 0 <= 0.05 <= 1) by lra.
  exact (synth_note_peak _ _ _ _ _ _ _ Hv H).
Defined.

(** ** Recipes that never clip *)

Lemma enveloped_unit (g g' : Np.rng) (n : Z) (wave : R -> R)
    (axis : Np.ndarray) (att dec : float) (sus : R) (rel : float)
    (sig : Np.ndarray) :
  (forall p, -1 <= wave p <= 1) -> 0 <= sus <= 1 ->
  (env ← adsr_envelope n att dec sus rel;
   sig ← Np.imul (map wave axis) env;
   Ok (sig, g)) = Ok (sig, g') ->
  Forall (fun x => -1 <= x <= 1) sig.
Proof.
  intros Hwave Hsus H.
  apply bind_Ok_inv in H as (env & Henv & H).
  apply bind_Ok_inv in H as (sig0 & Hmul & [= <- _]).
  apply (adsr_envelope_values _ _ _ _ _ _ Hsus) in Henv.
  assert (Hw : Forall (fun x => -1 <= x <= 1) (map wave axis)).
  { apply Forall_forall. intros x Hx.
    apply list_elem_of_In, in_map_iff in Hx as (p & <- & _). apply Hwave. }
  revert Hmul. unfold Np.imul. destruct (decide _) as [_ | _].
  - intros [= <-]. clear Hsus.
    revert env Henv. induction Hw as [| w ws Hw0 _ IH]; intros env Henv;
      [constructor |].
    destruct Henv as [| e es He0 Hes]; [constructor |].
    cbn [zip_with]. constructor; [nra | now apply IH].
  - destruct env as [| b [| b' env']]; try discriminate.
    intros [= <-]. apply Forall_inv in Henv.
    apply Forall_forall. intros x Hx.
    apply list_elem_of_In, in_map_iff in Hx as (w & <- & Hin).
    rewrite Forall_forall in Hw.
    apply list_elem_of_In, Hw in Hin. nra.
Qed.

Lemma clip_inside (x : R) : -1 <= x <= 1 -> Np.clip (-1) 1 x = x.
Proof.
  intros Hx. unfold Np.clip, Rmin, Rmax.
  destruct (Rle_dec x (-1)); destruct (Rle_dec _ 1); lra.
Qed.

(** X8. For "Sine", "Square", "Triangle", "Saw", "Organ" and "Chiptune",
    in a note of fewer than [2^22 = 4194304] cycles (frequency times
    length; the notes of the application stay below 12559 cycles, and
    float32 resolves the fraction of a cycle up to there), the enveloped
    signal already lies in [-1, 1]: the hard clip changes no sample of
    these six recipes. *)
Theorem synth_signal_never_clips (g g' : Np.rng) (freq : R)
    (duration : float) (instrument : string) (sig : Np.ndarray) (n : Z) :
  instrument ∈ ["Sine"; "Square"; "Triangle"; "Saw"; "Organ"; "Chiptune"] ->
  sample_count duration = Ok n ->
  Rabs freq * IZR n < 4194304 * IZR SAMPLE_RATE ->
  synth_signal g freq duration instrument = Ok (sig, g') ->
  map (Np.clip (-1) 1) sig = sig.
Proof.
  intros Hin Cn _ Hsig.
  assert (Hunit : Forall (fun x => -1 <= x <= 1) sig).
  { revert Hsig. unfold synth_signal. rewrite Cn. cbn [mbind result_bind].
    cbv zeta.
    pose proof SIN_bound as Hsin.
    repeat (apply elem_of_cons in Hin as [-> | Hin]);
      [| | | | | | now apply elem_of_nil in Hin].
    - change (String.eqb "Sine" "Sine") with true. cbv iota.
      apply enveloped_unit; [apply SIN_bound | lra].
    - change (String.eqb "Square" "Sine") with false.
      change (String.eqb "Square" "Square") with true. cbv iota.
      apply enveloped_unit; [| lra].
      intros p. destruct (sign_cases (sin p)) as [H | [H | H]];
        unfold wave_square; rewrite H; lra.
    - change (String.eqb "Triangle" "Sine") with false.
      change (String.eqb "Triangle" "Square") with false.
      change (String.eqb "Triangle" "Triangle") with true. cbv iota.
      apply enveloped_unit; [apply wave_triangle_range | lra].
    - change (String.eqb "Saw" "Sine") with false.
      change (String.eqb "Saw" "Square") with false.
      change (String.eqb "Saw" "Triangle") with false.
      change (String.eqb "Saw" "Saw") with true. cbv iota.
      apply enveloped_unit; [| lra].
      intros p. pose proof (wave_saw_range p). lra.
    - change (String.eqb "Organ" "Sine") with false.
      change (String.eqb "Organ" "Square") with false.
      change (String.eqb "Organ" "Triangle") with false.
      change (String.eqb "Organ" "Saw") with false.
      change (String.eqb "Organ" "Organ") with true. cbv iota.
      apply enveloped_unit; [| lra].
      intros p. unfold wave_sine.
      pose proof (Hsin p). pose proof (Hsin (2 * p)).
      pose proof (Hsin (3 * p)). lra.
    - change (String.eqb "Chiptune" "Sine") with false.
      change (String.eqb "Chiptune" "Square") with false.
      change (String.eqb "Chiptune" "Triangle") with false.
      change (String.eqb "Chiptune" "Saw") with false.
      change (String.eqb "Chiptune" "Organ") with false.
      change (String.eqb "Chiptune" "Bell") with false.
      change (String.eqb "Chiptune" "Piano-ish") with false.
      change (String.eqb "Chiptune" "Chiptune") with true. cbv iota.
      apply enveloped_unit; [| lra].
      intros ti.
      destruct (sign_cases
                  (sin (2 * PI * freq
                        * (1.0 + 0.003 * sin (2 * PI * 6.0 * ti)) * ti)))
        as [H | [H | H]]; rewrite H; lra. }
  clear Hsig Hin.
  induction Hunit as [| x xs Hx _ IH]; [reflexivity |].
  cbn [map]. rewrite clip_inside by exact Hx. now rewrite IH.
Qed.

Lemma synth_signal_never_clips_witness :
  exists (sig : Np.ndarray) (g' : Np.rng),
    synth_signal (fun _ => 0) 440 6.0 "Triangle" = Ok (sig, g')
    /\ map (Np.clip (-1) 1) sig = sig.
Proof.
  assert (Cn : sample_count 6.0 = Ok 264600%Z) by now vm_compute.
  destruct (synth_signal_returns (fun _ => 0) 440 6.0 "Triangle" 264600 Cn)
    as (sig & g' & H); [lia |].
  exists sig, g'. split; [exact H |].
  assert (Hin : "Triangle" ∈ ["Sine"; "Square"; "Triangle"; "Saw"; "Organ";
                              "Chiptune"]).
  { do 2 (apply elem_of_cons; right). apply elem_of_cons. now left. }
  assert (Hcycles : Rabs 440 * IZR 264600 < 4194304 * IZR SAMPLE_RATE).
  { rewrite Rabs_pos_eq by lra. unfold SAMPLE_RATE. lra. }
  exact (synth_signal_never_clips _ _ _ _ _ _ _ Hin Cn Hcycles H).
Defined.

(** ** Settings and cache over all runs *)

Lemma dict_get_None_keys {K V : Type} `{EqDecision K} (k : K)
    (d : list (K * V)) :
  dict_get k d = None -> k ∉ d.*1.
Proof.
  induction d as [| [k' v'] d IH]; cbn; intros Hget.
  - apply not_elem_of_nil.
  - destruct (decide (k' = k)) as [-> | Hne]; [discriminate |].
    apply not_elem_of_cons. split; [congruence | now apply IH].
Qed.

Lemma dict_set_miss {K V : Type} `{EqDecision K} (k : K) (v : V)
    (d : list (K * V)) :
  dict_get k d = None -> dict_set k v d = d ++ [(k, v)].
Proof.
  induction d as [| [k' v'] d IH]; cbn; intros Hget; [reflexivity |].
  destruct (decide (k' = k)) as [-> | Hne]; [discriminate |].
  now rewrite IH.
Qed.

(** What a call of [get_sound] does to the state: nothing on a hit; on a
    miss one rendering, appended to the cache under the key. *)
Lemma get_sound_effect (st st' : state) (inst : string) (octv semitone : Z)
    (snd : Sound) :
  let key : RenderKey := (inst, octv, semitone, Py.round (volume st) 3) in
  let freq := semitone_to_freq semitone octv in
  get_sound st inst octv semitone = Ok (snd, st') ->
  (dict_get key (sound_cache st) = Some snd /\ st' = st)
  \/ (dict_get key (sound_cache st) = None
      /\ exists g' : Np.rng,
           synth_note (random st) freq note_duration inst (volume st)
           = Ok (snd, g')
           /\ st' = State (instrument st) (octave_shift st) (volume st)
                      (sound_cache st ++ [(key, snd)]) (active_channels st)
                      (running st) g'
                      (log st ++ [SynthNote freq note_duration inst
                                    (volume st)])).
Proof.
  intros key freq H.
  destruct (dict_get key (sound_cache st)) as [snd0 |] eqn:Hget.
  - left. rewrite (get_sound_hit st inst octv semitone snd0 Hget) in H.
    injection H as <- <-. now split.
  - right. split; [reflexivity |].
    destruct (get_sound_miss st inst octv semitone Hget)
      as (audio & g' & Hs & Hg).
    rewrite Hg in H. injection H as <- <-.
    exists g'. split; [exact Hs |].
    unfold store_sound, emit, make_sound. cbn.
    fold key. now rewrite dict_set_miss.
Qed.

Lemma settings_ok_controls (st : state) :
  settings_ok st ->
  settings_ok (octave_down st) /\ settings_ok (octave_up st)
  /\ settings_ok (volume_down st) /\ settings_ok (volume_up st)
  /\ settings_ok (set_running false st).
Proof.
  intros (Ho & Hv & Hi). unfold settings_ok. cbn.
  repeat split; try lia; try lra; try exact Hi;
    unfold Rmax, Rmin; destruct (Rle_dec _ _); lra.
Qed.

Lemma cache_ok_cleared (st : state) : sound_cache st = [] -> cache_ok st.
Proof.
  intros He. unfold cache_ok. rewrite He. split; [constructor |].
  intros key snd Hin. now apply elem_of_nil in Hin.
Qed.

Lemma btns_names : btns.*1 = instruments.
Proof. vm_compute. reflexivity. Qed.

Lemma state_ok_when (b : bool) (f : state -> state) (st : state) :
  (settings_ok st -> settings_ok (f st)) -> sound_cache (f st) = [] ->
  settings_ok st /\ cache_ok st ->
  settings_ok (when b f st) /\ cache_ok (when b f st).
Proof.
  intros Hset Hclear [Hs Hc]. destruct b; cbn [when]; [| now split].
  split; [now apply Hset | now apply cache_ok_cleared].
Qed.

Lemma state_ok_note_on (key : Z) (answer : option Channel) (st st' : state)
    (entry : Z * Z * bool * string) :
  entry ∈ KEYBOARD_MAP ->
  settings_ok st /\ cache_ok st ->
  note_on key answer st entry = Ok st' ->
  settings_ok st' /\ cache_ok st'.
Proof.
  destruct entry as [[[pk semi] is_black] label]. intros Hentry [Hs Hc].
  unfold note_on.
  destruct ((key =? pk)%Z && _); [| now intros [= <-]].
  intros H. apply bind_Ok_inv in H as ([snd st1] & Hg & H).
  assert (Hok1 : settings_ok st1 /\ cache_ok st1).
  { apply get_sound_effect in Hg as [[_ ->] | (Hmiss & g' & Hsyn & ->)];
      [now split |].
    split; [exact Hs |].
    destruct Hc as [Hnd Hall]. unfold cache_ok. cbn. split.
    - rewrite fmap_app. cbn. apply NoDup_app. split; [exact Hnd |].
      split; [| apply NoDup_singleton].
      intros k Hk Hk'. apply list_elem_of_singleton in Hk'. subst k.
      now apply dict_get_None_keys in Hmiss.
    - intros k s Hin. apply elem_of_app in Hin as [Hin | Hin].
      + apply Hall, Hin.
      + apply list_elem_of_singleton in Hin. injection Hin as -> ->.
        exists semi, (random st), g'. split; [| now split].
        unfold keyboard_semitones.
        apply (list_elem_of_fmap_2 (fun e : Z * Z * bool * string => e.1.1.2))
          in Hentry.
        exact Hentry. }
  destruct Hok1 as [Hs1 Hc1].
  destruct answer as [ch |]; injection H as <-; now split.
Qed.

Lemma state_ok_for_each (key : Z) (answer : option Channel)
    (entries : list (Z * Z * bool * string)) (st st' : state) :
  (forall entry, entry ∈ entries -> entry ∈ KEYBOARD_MAP) ->
  settings_ok st /\ cache_ok st ->
  for_each (note_on key answer) st entries = Ok st' ->
  settings_ok st' /\ cache_ok st'.
Proof.
  revert st. induction entries as [| entry entries IH]; intros st Hsub Hok.
  - now intros [= <-].
  - cbn [for_each]. intros H. apply bind_Ok_inv in H as (st1 & H1 & H).
    apply (IH st1); [| | exact H].
    + intros e He. apply Hsub, elem_of_cons. now right.
    + eapply state_ok_note_on; [| exact Hok | exact H1].
      apply Hsub, elem_of_cons. now left.
Qed.

Lemma state_ok_buttons (pos : Z * Z) (l : list (string * Rect)) (st : state) :
  (forall name rect, (name, rect) ∈ l -> name ∈ instruments) ->
  settings_ok st /\ cache_ok st ->
  let st' := foldl (fun st '(name, rect) =>
                      when (collidepoint rect pos)
                           (fun st => clear_cache (set_instrument name st)) st)
                   st l in
  settings_ok st' /\ cache_ok st'.
Proof.
  revert st. induction l as [| [name rect] l IH]; intros st Hnames Hok;
    [exact Hok |].
  cbn [foldl]. apply IH.
  - intros n r Hin. apply (Hnames n r), elem_of_cons. now right.
  - apply state_ok_when; [| reflexivity | exact Hok].
    intros (Ho & Hv & _). repeat split; try apply Ho; try apply Hv.
    apply (Hnames name rect), elem_of_cons. now left.
Qed.

Lemma state_ok_handle_event (st st' : state) (ev : event)
    (answer : option Channel) :
  settings_ok st /\ cache_ok st ->
  handle_event st ev answer = Ok st' ->
  settings_ok st' /\ cache_ok st'.
Proof.
  intros Hok. destruct ev as [| key | key | button pos |]; cbn [handle_event].
  - intros [= <-]. exact Hok.
  - apply state_ok_for_each; [now intros entry Hin |].
    apply state_ok_when;
      [intros Hs; apply (settings_ok_controls _ Hs) | reflexivity |].
    apply state_ok_when;
      [intros Hs; apply (settings_ok_controls _ Hs) | reflexivity |].
    apply state_ok_when;
      [intros Hs; apply (settings_ok_controls _ Hs) | reflexivity |].
    apply state_ok_when;
      [intros Hs; apply (settings_ok_controls _ Hs) | reflexivity |].
    destruct (key =? K_ESCAPE)%Z; exact Hok.
  - destruct (active_channels st !! key); intros [= <-]; exact Hok.
  - destruct (button =? 1)%Z; [| now intros [= <-]].
    pose proof btns_names as Hnames. revert Hnames.
    generalize btns as l. intros l Hnames.
    intros [= <-].
    apply state_ok_when;
      [intros Hs; apply (settings_ok_controls _ Hs) | reflexivity |].
    apply state_ok_when;
      [intros Hs; apply (settings_ok_controls _ Hs) | reflexivity |].
    apply state_ok_when;
      [intros Hs; apply (settings_ok_controls _ Hs) | reflexivity |].
    apply state_ok_when;
      [intros Hs; apply (settings_ok_controls _ Hs) | reflexivity |].
    apply state_ok_buttons; [| exact Hok].
    intros name rect Hin. rewrite <- Hnames.
    apply (list_elem_of_fmap_2 fst) in Hin. exact Hin.
  - intros [= <-]. exact Hok.
Qed.

Lemma state_ok_initial (g : Np.rng) :
  settings_ok (initial_state g) /\ cache_ok (initial_state g).
Proof.
  split; [| now apply cache_ok_cleared].
  unfold settings_ok. cbn. repeat split; try lia; try lra.
  apply elem_of_cons. now left.
Qed.

Lemma state_ok_reachable (st : state) :
  reachable st -> settings_ok st /\ cache_ok st.
Proof.
  intros (g & evs & Hrun).
  pose proof (state_ok_initial g) as Hok.
  revert Hrun Hok. generalize (initial_state g) as st0.
  induction evs as [| [ev answer] evs IH]; intros st0 Hrun Hok.
  - now injection Hrun as <-.
  - cbn [run] in Hrun. apply bind_Ok_inv in Hrun as (st1 & H1 & Hrun).
    apply (IH st1 Hrun). eapply state_ok_handle_event; [exact Hok | exact H1].
Qed.

Lemma instruments_recognised (name : string) :
  name ∈ instruments -> recognised name.
Proof.
  unfold instruments, recognised. intros Hin.
  repeat (apply elem_of_cons in Hin as [-> | Hin];
          [repeat (first [apply elem_of_cons; now left
                         | apply elem_of_cons; right]) |]).
  now apply elem_of_nil in Hin.
Qed.

(** X9. In every state reached by handling events the octave shift is
    between -2 and 2, the volume between 0.05 and 1.0, and the instrument
    is one of the eight names of the buttons, each of which has a recipe:
    the application never renders the fallback recipe. *)
Theorem reachable_settings (st : state) :
  reachable st ->
  (-2 <= octave_shift st <= 2)%Z
  /\ 0.05 <= volume st <= 1.0
  /\ instrument st ∈ instruments
  /\ recognised (instrument st).
Proof.
  intros Hreach. destruct (state_ok_reachable st Hreach) as [Hs _].
  destruct Hs as (Ho & Hv & Hi).
  split; [exact Ho |]. split; [exact Hv |]. split; [exact Hi |].
  now apply instruments_recognised.
Qed.

Lemma reachable_settings_witness :
  run (initial_state (fun _ => 0))
      [(KEYDOWN K_LEFTBRACKET, None); (KEYDOWN K_LEFTBRACKET, None);
       (KEYDOWN K_LEFTBRACKET, None)]
  = Ok (State "Piano-ish" (-2) 0.45 [] ∅ true (fun _ => 0) [])
  /\ recognised "Piano-ish".
Proof.
  assert (Hrun : run (initial_state (fun _ => 0))
                   [(KEYDOWN K_LEFTBRACKET, None);
                    (KEYDOWN K_LEFTBRACKET, None);
                    (KEYDOWN K_LEFTBRACKET, None)]
                 = Ok (State "Piano-ish" (-2) 0.45 [] ∅ true (fun _ => 0) []))
    by reflexivity.
  split; [exact Hrun |].
  assert (Hreach : reachable
                     (State "Piano-ish" (-2) 0.45 [] ∅ true (fun _ => 0) []))
    by (eexists _, _; exact Hrun).
  exact (proj2 (proj2 (proj2 (reachable_settings _ Hreach)))).
Defined.

(** X10. In every state reached by handling events, every entry of the
    sound cache was rendered for the instrument, the octave shift and the
    volume the state has now, from a semitone of the keyboard map, and its
    key says so: the clearing on every change leaves no stale entry.  No
    key occurs twice, so the cache never holds more than 13 sounds. *)
Theorem reachable_cache_fresh (st : state) :
  reachable st ->
  (forall (key : RenderKey) (snd : Sound),
      (key, snd) ∈ sound_cache st ->
      exists (semi : Z) (g g' : Np.rng),
        semi ∈ keyboard_semitones
        /\ key = (instrument st, octave_shift st, semi,
                  Py.round (volume st) 3)
        /\ synth_note g (semitone_to_freq semi (octave_shift st))
             note_duration (instrument st) (volume st)
           = Ok (snd, g'))
  /\ NoDup (sound_cache st).*1
  /\ (length (sound_cache st) <= 13)%nat.
Proof.
  intros Hreach. destruct (state_ok_reachable st Hreach) as [_ [Hnd Hall]].
  split; [exact Hall |]. split; [exact Hnd |].
  rewrite <- (length_fmap fst).
  rewrite <- (length_fmap (fun key : RenderKey => key.1.2)).
  change 13%nat with (length keyboard_semitones).
  apply submseteq_length, NoDup_submseteq.
  - apply NoDup_fmap_2_strong; [| exact Hnd].
    intros k1 k2 H1 H2 Heq.
    apply list_elem_of_fmap in H1 as ([k1' s1] & -> & H1).
    apply list_elem_of_fmap in H2 as ([k2' s2] & -> & H2).
    apply Hall in H1 as (semi1 & _ & _ & _ & -> & _).
    apply Hall in H2 as (semi2 & _ & _ & _ & -> & _).
    cbn in Heq |- *. now subst.
  - intros semi Hin.
    apply list_elem_of_fmap in Hin as (k & -> & Hin).
    apply list_elem_of_fmap in Hin as ([k' s] & -> & Hin).
    apply Hall in Hin as (semi1 & _ & _ & Hsemi & -> & _). exact Hsemi.
Qed.

Lemma reachable_cache_fresh_witness :
  exists st : state,
    run (initial_state (fun _ => 0)) [(KEYDOWN K_a, Some (0%nat : Channel))]
    = Ok st
    /\ (length (sound_cache st) <= 13)%nat.
Proof.
  destruct (run_returns [(KEYDOWN K_a, Some (0%nat : Channel))]
              (initial_state (fun _ => 0))
              (notes_ok_initial (fun _ => 0))) as (st & Hrun).
  exists st. split; [exact Hrun |].
  assert (Hreach : reachable st)
    by (now exists (fun _ => 0), [(KEYDOWN K_a, Some (0%nat : Channel))]).
  exact (proj2 (proj2 (reachable_cache_fresh st Hreach))).
Defined.

(** ** Events never raise *)

Lemma note_on_returns (key : Z) (answer : option Channel) (st : state)
    (entry : Z * Z * bool * string) :
  exists st', note_on key answer st entry = Ok st'.
Proof.
  destruct entry as [[[pk semi] is_black] label]. unfold note_on.
  destruct ((key =? pk)%Z && _); [| now exists st].
  destruct (get_sound_same_notes st (instrument st) (octave_shift st) semi)
    as (snd & st1 & -> & _).
  cbn [mbind result_bind]. destruct answer; now eexists.
Qed.

Lemma for_each_note_on_returns (key : Z) (answer : option Channel)
    (entries : list (Z * Z * bool * string)) (st : state) :
  exists st', for_each (note_on key answer) st entries = Ok st'.
Proof.
  revert st. induction entries as [| entry entries IH]; intros st;
    [now exists st |].
  cbn [for_each].
  destruct (note_on_returns key answer st entry) as (st1 & ->).
  cbn [mbind result_bind]. apply IH.
Qed.

Lemma handle_event_returns (st : state) (ev : event)
    (answer : option Channel) :
  exists st', handle_event st ev answer = Ok st'.
Proof.
  destruct ev as [| key | key | button pos |]; cbn [handle_event].
  - now eexists.
  - apply for_each_note_on_returns.
  - destruct (active_channels st !! key); now eexists.
  - destruct (button =? 1)%Z; now eexists.
  - now eexists.
Qed.

(** X11. No event makes the handler raise, in any state and with any
    answer of the mixer: every sequence of events is handled to the end.
    The envelope cannot fail here because [get_sound] always renders
    notes of 264600 samples. *)
Theorem run_never_raises (evs : list (event * option Channel)) (st : state) :
  sample_count note_duration = Ok 264600%Z
  /\ exists st', run st evs = Ok st'.
Proof.
  split; [apply note_duration_samples |].
  revert st. induction evs as [| [ev answer] evs IH]; intros st.
  - now exists st.
  - cbn [run].
    destruct (handle_event_returns st ev answer) as (st1 & ->).
    cbn [mbind result_bind]. apply IH.
Qed.

(** ** Leaving the loop *)

Lemma running_when (b : bool) (f : state -> state) (st : state) :
  (forall st0, running st0 = false -> running (f st0) = false) ->
  running st = false -> running (when b f st) = false.
Proof. intros Hf Hr. destruct b; [now apply Hf | exact Hr]. Qed.

Lemma running_note_on (key : Z) (answer : option Channel) (st st' : state)
    (entry : Z * Z * bool * string) :
  note_on key answer st entry = Ok st' -> running st' = running st.
Proof.
  destruct entry as [[[pk semi] is_black] label]. unfold note_on.
  destruct ((key =? pk)%Z && _); [| now intros [= <-]].
  intros H. apply bind_Ok_inv in H as ([snd st1] & Hg & H).
  assert (running st1 = running st)
    by (apply get_sound_effect in Hg as [[_ ->] | (_ & g' & _ & ->)];
        reflexivity).
  destruct answer; injection H as <-; assumption.
Qed.

Lemma running_for_each (key : Z) (answer : option Channel)
    (entries : list (Z * Z * bool * string)) (st st' : state) :
  for_each (note_on key answer) st entries = Ok st' ->
  running st' = running st.
Proof.
  revert st. induction entries as [| entry entries IH]; intros st.
  - now intros [= <-].
  - cbn [for_each]. intros H. apply bind_Ok_inv in H as (st1 & H1 & H).
    apply IH in H. apply running_note_on in H1. congruence.
Qed.

Lemma running_buttons (pos : Z * Z) (l : list (string * Rect)) (st : state) :
  running (foldl (fun st '(name, rect) =>
                    when (collidepoint rect pos)
                         (fun st => clear_cache (set_instrument name st)) st)
                 st l)
  = running st.
Proof.
  revert st. induction l as [| [name rect] l IH]; intros st; [reflexivity |].
  cbn [foldl]. rewrite IH. now destruct (collidepoint rect pos).
Qed.

Lemma running_handle_event (st st' : state) (ev : event)
    (answer : option Channel) :
  handle_event st ev answer = Ok st' ->
  running st = false -> running st' = false.
Proof.
  destruct ev as [| key | key | button pos |]; cbn [handle_event].
  - now intros [= <-].
  - intros H Hr. apply running_for_each in H. rewrite H.
    do 5 (apply running_when; [now intros st0 |]). exact Hr.
  - destruct (active_channels st !! key); now intros [= <-].
  - destruct (button =? 1)%Z; [| now intros [= <-]].
    generalize btns as l. intros l [= <-] Hr.
    do 4 (apply running_when; [now intros st0 |]).
    now rewrite running_buttons.
  - now intros [= <-].
Qed.

(** X12. [QUIT] and the Escape key clear the [running] flag, and once it is
    cleared no event sets it again. *)
Theorem running_stays_cleared (st st' : state)
    (evs : list (event * option Channel)) :
  (forall answer, exists st1,
      handle_event st QUIT answer = Ok st1 /\ running st1 = false)
  /\ (forall answer, exists st1,
        handle_event st (KEYDOWN K_ESCAPE) answer = Ok st1
        /\ running st1 = false)
  /\ (running st = false -> run st evs = Ok st' -> running st' = false).
Proof.
  split; [| split].
  - intros answer. now eexists.
  - intros answer.
    destruct (handle_event_returns st (KEYDOWN K_ESCAPE) answer)
      as (st1 & H1).
    exists st1. split; [exact H1 |].
    cbn [handle_event] in H1. apply running_for_each in H1. rewrite H1.
    change (K_ESCAPE =? K_ESCAPE)%Z with true. cbn [when].
    do 4 (apply running_when; [now intros st0 |]). reflexivity.
  - revert st. induction evs as [| [ev answer] evs IH]; intros st Hr.
    + now intros [= <-].
    + cbn [run]. intros H. apply bind_Ok_inv in H as (st1 & H1 & H).
      apply (IH st1); [| exact H].
      now apply (running_handle_event st st1 ev answer).
Qed.

Lemma running_stays_cleared_witness :
  run (initial_state (fun _ => 0))
      [(QUIT, None); (KEYDOWN K_LEFTBRACKET, None)]
  = Ok (State "Piano-ish" (-1) 0.45 [] ∅ false (fun _ => 0) [])
  /\ running (State "Piano-ish" (-1) 0.45 [] ∅ false (fun _ => 0) []) = false.
Proof.
  split; [reflexivity |].
  destruct (running_stays_cleared
              (set_running false (initial_state (fun _ => 0)))
              (State "Piano-ish" (-1) 0.45 [] ∅ false (fun _ => 0) [])
              [(KEYDOWN K_LEFTBRACKET, None)]) as (_ & _ & Hstay).
  apply Hstay; reflexivity.
Defined.

(** ** A key pressed and released *)

Lemma for_each_note_on_other (key : Z) (answer : option Channel)
    (entries : list (Z * Z * bool * string)) (st : state) :
  key ∉ map (fun entry => entry.1.1.1) entries ->
  for_each (note_on key answer) st entries = Ok st.
Proof.
  induction entries as [| [[[pk semi] is_black] label] l IH];
    cbn [map fst]; intros Hnot; [reflexivity |].
  apply not_elem_of_cons in Hnot as [Hne Hnot].
  cbn [for_each note_on].
  destruct (Z.eqb_spec key pk) as [? | _]; [contradiction |].
  cbn [andb mbind result_bind]. now apply IH.
Qed.

(** The loop over the keyboard map for a key of the map that has no handle:
    one [get_sound] for the key's semitone, one call of [play], and the
    channel recorded when the mixer hands one out. *)
Lemma for_each_note_on_effect (key semi : Z) (is_black : bool)
    (label : string) (answer : option Channel)
    (entries : list (Z * Z * bool * string)) (st : state) :
  NoDup (map (fun entry => entry.1.1.1) entries) ->
  (key, semi, is_black, label) ∈ entries ->
  active_channels st !! key = None ->
  exists (snd : Sound) (st1 : state),
    get_sound st (instrument st) (octave_shift st) semi = Ok (snd, st1)
    /\ for_each (note_on key answer) st entries
       = Ok (match answer with
             | Some ch =>
                 set_active_channels (<[key := ch]> (active_channels st1))
                   (emit (Play key answer) st1)
             | None => emit (Play key None) st1
             end).
Proof.
  induction entries as [| [[[pk semi'] b'] l'] entries IH];
    cbn [map fst]; intros Hnd Hin Hfree.
  - now apply elem_of_nil in Hin.
  - apply NoDup_cons in Hnd as [Hpk Hnd].
    cbn [for_each note_on].
    destruct (Z.eqb_spec key pk) as [<- | Hne]; cbn [andb].
    + assert (semi' = semi).
      { apply elem_of_cons in Hin as [[= -> _ _] | Hin]; [reflexivity |].
        exfalso. apply Hpk.
        apply (list_elem_of_fmap_2 (fun e : Z * Z * bool * string => e.1.1.1))
          in Hin. exact Hin. }
      subst semi'.
      rewrite bool_decide_eq_false_2
        by (rewrite Hfree; intros [c Hc]; discriminate).
      cbn [negb].
      destruct (get_sound_same_notes st (instrument st) (octave_shift st) semi)
        as (snd & st1 & Hg & [Ha1 _]).
      exists snd, st1. split; [exact Hg |].
      rewrite Hg. cbn [mbind result_bind].
      destruct answer as [ch |].
      * apply for_each_note_on_held.
        cbn [set_active_channels emit active_channels].
        rewrite lookup_insert_eq. now exists ch.
      * now apply for_each_note_on_other.
    + cbn [mbind result_bind]. apply IH; [exact Hnd | | exact Hfree].
      apply elem_of_cons in Hin as [[= -> _ _ _] | Hin];
        [contradiction | exact Hin].
Qed.

Lemma keyboard_map_distinct :
  NoDup (map (fun entry : Z * Z * bool * string => entry.1.1.1) KEYBOARD_MAP).
Proof. exact keyboard_keys_distinct. Qed.

(** X13. Pressing a key of the keyboard map that has no handle fetches the
    sound of the key's semitone for the current instrument and octave,
    plays it once and records the channel under the key alone; releasing
    the key fades that channel out over 80 ms and leaves the map of active
    channels as it was before the press. *)
Theorem press_then_release (st : state) (key semi : Z) (is_black : bool)
    (label : string) (ch : Channel) (answer : option Channel) :
  (key, semi, is_black, label) ∈ KEYBOARD_MAP ->
  active_channels st !! key = None ->
  exists (snd : Sound) (st1 st2 st3 : state),
    get_sound st (instrument st) (octave_shift st) semi = Ok (snd, st1)
    /\ handle_event st (KEYDOWN key) (Some ch) = Ok st2
    /\ active_channels st2 = <[key := ch]> (active_channels st)
    /\ log st2 = log st1 ++ [Play key (Some ch)]
    /\ handle_event st2 (KEYUP key) answer = Ok st3
    /\ active_channels st3 = active_channels st
    /\ log st3 = log st1 ++ [Play key (Some ch); Fadeout key ch 80].
Proof.
  intros Hentry Hfree.
  assert (Hkey : key ∈ keyboard_keys).
  { unfold keyboard_keys.
    apply (list_elem_of_fmap_2 (fun e : Z * Z * bool * string => e.1.1.1))
      in Hentry. exact Hentry. }
  destruct (note_key_is_no_control key Hkey) as (He & Hl & Hr & Hm & Hq).
  destruct (for_each_note_on_effect key semi is_black label (Some ch)
              KEYBOARD_MAP st keyboard_map_distinct Hentry Hfree)
    as (snd & st1 & Hg & Hloop).
  destruct (get_sound_same_notes st (instrument st) (octave_shift st) semi)
    as (snd' & st1' & Hg' & [Ha1 _]).
  rewrite Hg in Hg'. injection Hg' as <- <-.
  exists snd, st1. do 2 eexists.
  split; [exact Hg |]. split.
  { cbn [handle_event]. rewrite He, Hl, Hr, Hm, Hq. cbn [when].
    exact Hloop. }
  cbn [set_active_channels emit active_channels log].
  split; [now rewrite Ha1 |]. split; [reflexivity |].
  cbn [handle_event set_active_channels emit active_channels log].
  rewrite lookup_insert_eq.
  split; [reflexivity |].
  cbn [set_active_channels emit active_channels log].
  split.
  - rewrite Ha1. now apply delete_insert_id.
  - now rewrite <- app_assoc.
Qed.

Lemma press_then_release_witness :
  exists (st2 st3 : state),
    handle_event (initial_state (fun _ => 0)) (KEYDOWN K_g)
      (Some (3%nat : Channel)) = Ok st2
    /\ active_channels st2 = <[K_g := (3%nat : Channel)]> ∅
    /\ handle_event st2 (KEYUP K_g) None = Ok st3
    /\ active_channels st3 = ∅.
Proof.
  destruct (press_then_release (initial_state (fun _ => 0)) K_g 7 false "G"
              (3%nat : Channel) None)
    as (snd & st1 & st2 & st3 & _ & Hdown & Hact & _ & Hup & Hback & _).
  - unfold KEYBOARD_MAP. do 7 (apply elem_of_cons; right).
    apply elem_of_cons. now left.
  - apply lookup_empty.
  - exists st2, st3.
    split; [exact Hdown |]. split; [exact Hact |].
    split; [exact Hup | exact Hback].
Defined.

(** X14. When the mixer has no free channel, [play] answers [None]: the
    sound is still fetched and [play] called once, but the key gets no
    handle; releasing it then changes nothing, and pressing it again asks
    the mixer again. *)
Theorem press_without_channel (st : state) (key semi : Z) (is_black : bool)
    (label : string) (answer : option Channel) :
  (key, semi, is_black, label) ∈ KEYBOARD_MAP ->
  active_channels st !! key = None ->
  exists (snd : Sound) (st1 st2 : state),
    get_sound st (instrument st) (octave_shift st) semi = Ok (snd, st1)
    /\ handle_event st (KEYDOWN key) None = Ok st2
    /\ active_channels st2 = active_channels st
    /\ log st2 = log st1 ++ [Play key None]
    /\ handle_event st2 (KEYUP key) answer = Ok st2
    /\ exists st3 : state,
         handle_event st2 (KEYDOWN key) answer = Ok st3
         /\ log st3 = log st2 ++ [Play key answer].
Proof.
  intros Hentry Hfree.
  assert (Hkey : key ∈ keyboard_keys).
  { unfold keyboard_keys.
    apply (list_elem_of_fmap_2 (fun e : Z * Z * bool * string => e.1.1.1))
      in Hentry. exact Hentry. }
  destruct (note_key_is_no_control key Hkey) as (He & Hl & Hr & Hm & Hq).
  destruct (for_each_note_on_effect key semi is_black label None
              KEYBOARD_MAP st keyboard_map_distinct Hentry Hfree)
    as (snd & st1 & Hg & Hloop).
  destruct (get_sound_same_notes st (instrument st) (octave_shift st) semi)
    as (snd' & st1' & Hg' & [Ha1 _]).
  rewrite Hg in Hg'. injection Hg' as <- <-.
  exists snd, st1, (emit (Play key None) st1).
  split; [exact Hg |]. split.
  { cbn [handle_event]. rewrite He, Hl, Hr, Hm, Hq. cbn [when].
    exact Hloop. }
  split; [exact Ha1 |]. split; [reflexivity |].
  assert (Hfree2 : active_channels (emit (Play key None) st1) !! key = None)
    by (cbn [emit active_channels]; now rewrite Ha1).
  split.
  { cbn [handle_event]. now rewrite Hfree2. }
  destruct (for_each_note_on_effect key semi is_black label answer
              KEYBOARD_MAP (emit (Play key None) st1) keyboard_map_distinct
              Hentry Hfree2)
    as (snd2 & st4 & Hg2 & Hloop2).
  eexists. split.
  { cbn [handle_event]. rewrite He, Hl, Hr, Hm, Hq. cbn [when].
    exact Hloop2. }
  (* the sound is in the cache by now: the second fetch is a hit *)
  assert (Hst4 : log st4 = log (emit (Play key None) st1)).
  { apply get_sound_effect in Hg as [[Hhit ->] | (Hmiss & g' & Hsyn & ->)].
    - cbn [emit instrument octave_shift] in Hg2.
      apply get_sound_effect in Hg2 as [[_ ->] | (Hmiss2 & _)];
        [reflexivity |].
      cbn [emit volume sound_cache] in Hmiss2. congruence.
    - cbn [emit instrument octave_shift] in Hg2.
      apply get_sound_effect in Hg2 as [[_ ->] | (Hmiss2 & _)];
        [reflexivity |].
      cbn [emit volume sound_cache] in Hmiss2.
      rewrite <- (dict_set_miss _ snd _ Hmiss) in Hmiss2.
      now rewrite dict_get_set_eq in Hmiss2. }
  destruct answer as [c |]; cbn [set_active_channels emit log];
    now rewrite Hst4.
Qed.

Lemma press_without_channel_witness :
  exists st2 : state,
    handle_event (initial_state (fun _ => 0)) (KEYDOWN K_g) None = Ok st2
    /\ active_channels st2 = ∅
    /\ handle_event st2 (KEYUP K_g) None = Ok st2.
Proof.
  destruct (press_without_channel (initial_state (fun _ => 0)) K_g 7 false
              "G" None)
    as (snd & st1 & st2 & _ & Hdown & Hact & _ & Hup & _).
  - unfold KEYBOARD_MAP. do 7 (apply elem_of_cons; right).
    apply elem_of_cons. now left.
  - apply lookup_empty.
  - exists st2.
    split; [exact Hdown |]. split; [exact Hact | exact Hup].
Defined.

(** ** The octave keys *)

Lemma octave_key_down (st : state) (answer : option Channel) :
  handle_event st (KEYDOWN K_LEFTBRACKET) answer = Ok (octave_down st).
Proof.
  cbn [handle_event].
  change (K_LEFTBRACKET =? K_ESCAPE)%Z with false.
  change (K_LEFTBRACKET =? K_LEFTBRACKET)%Z with true.
  change (K_LEFTBRACKET =? K_RIGHTBRACKET)%Z with false.
  change (K_LEFTBRACKET =? K_MINUS)%Z with false.
  change (K_LEFTBRACKET =? K_EQUALS)%Z with false.
  cbn [when]. apply for_each_note_on_other.
  cbn [map KEYBOARD_MAP fst]. intros H.
  repeat (apply elem_of_cons in H as [H | H]; [discriminate H |]).
  now apply elem_of_nil in H.
Qed.

Lemma octave_key_up (st : state) (answer : option Channel) :
  handle_event st (KEYDOWN K_RIGHTBRACKET) answer = Ok (octave_up st).
Proof.
  cbn [handle_event].
  change (K_RIGHTBRACKET =? K_ESCAPE)%Z with false.
  change (K_RIGHTBRACKET =? K_LEFTBRACKET)%Z with false.
  change (K_RIGHTBRACKET =? K_RIGHTBRACKET)%Z with true.
  change (K_RIGHTBRACKET =? K_MINUS)%Z with false.
  change (K_RIGHTBRACKET =? K_EQUALS)%Z with false.
  cbn [when]. apply for_each_note_on_other.
  cbn [map KEYBOARD_MAP fst]. intros H.
  repeat (apply elem_of_cons in H as [H | H]; [discriminate H |]).
  now apply elem_of_nil in H.
Qed.

(** X15. Pressing "[" k times lowers the octave shift by k but never below
    -2, pressing "]" k times raises it by k but never above 2; each press
    empties the sound cache, also when the shift is already at its bound,
    and nothing else of the state changes. *)
Theorem octave_keys_saturate (answers : list (option Channel)) (st : state) :
  (-2 <= octave_shift st <= 2)%Z ->
  let k := Z.of_nat (length answers) in
  run st (map (fun a => (KEYDOWN K_LEFTBRACKET, a)) answers)
  = Ok (if decide (answers = []) then st
        else clear_cache
               (set_octave_shift (Z.max (-2) (octave_shift st - k)) st))
  /\ run st (map (fun a => (KEYDOWN K_RIGHTBRACKET, a)) answers)
     = Ok (if decide (answers = []) then st
           else clear_cache
                  (set_octave_shift (Z.min 2 (octave_shift st + k)) st)).
Proof.
  revert st. induction answers as [| a answers IH]; intros st Ho k;
    [now split |].
  destruct (decide (a :: answers = [])) as [? | _]; [discriminate |].
  cbn [map run]. rewrite octave_key_down, octave_key_up.
  cbn [mbind result_bind].
  destruct (IH (octave_down st)) as [-> _]; [cbn; lia |].
  destruct (IH (octave_up st)) as [_ ->]; [cbn; lia |].
  unfold k. cbn [length].
  destruct (decide (answers = [])) as [-> | _].
  - split; f_equal; unfold octave_down, octave_up, clear_cache,
      set_octave_shift; cbn; do 2 f_equal; lia.
  - split; f_equal; unfold octave_down, octave_up, clear_cache,
      set_octave_shift; cbn; f_equal; lia.
Qed.

Lemma octave_keys_saturate_witness :
  run (initial_state (fun _ => 0))
      (map (fun a => (KEYDOWN K_LEFTBRACKET, a)) [None; None; None])
  = Ok (clear_cache (set_octave_shift (-2) (initial_state (fun _ => 0)))).
Proof.
  destruct (octave_keys_saturate [None; None; None]
              (initial_state (fun _ => 0))) as [H _]; [cbn; lia |].
  exact H.
Defined.

(** ** The buttons *)

Lemma rects_disjoint_miss (r1 r2 : Rect) (pos : Z * Z) :
  rects_disjoint r1 r2 = true -> collidepoint r1 pos = true ->
  collidepoint r2 pos = false.
Proof.
  unfold rects_disjoint, collidepoint. intros Hd Hc.
  apply andb_prop in Hc as [Hc Hb]. apply andb_prop in Hc as [Hc Ht].
  apply andb_prop in Hc as [Hl Hr].
  apply Z.leb_le in Hl, Ht. apply Z.ltb_lt in Hr, Hb.
  apply orb_prop in Hd as [Hd | Hd]; [apply orb_prop in Hd as [Hd | Hd];
    [apply orb_prop in Hd as [Hd | Hd] |] |];
    apply Z.leb_le in Hd.
  - destruct (Z.leb_spec (rx r2) pos.1); [lia | reflexivity].
  - destruct (Z.ltb_spec pos.1 (right r2)); [lia |].
    now rewrite andb_false_r.
  - destruct (Z.leb_spec (ry r2) pos.2); [lia |].
    now rewrite andb_false_r.
  - destruct (Z.ltb_spec pos.2 (bottom r2)); [lia |].
    now rewrite andb_false_r.
Qed.

Lemma rects_disjoint_sym (r1 r2 : Rect) :
  rects_disjoint r1 r2 = rects_disjoint r2 r1.
Proof.
  unfold rects_disjoint.
  destruct (right r1 <=? rx r2)%Z, (right r2 <=? rx r1)%Z,
    (bottom r1 <=? ry r2)%Z, (bottom r2 <=? ry r1)%Z; reflexivity.
Qed.

Lemma pairwise_disjoint_lookup (l : list Rect) (i j : nat) (r1 r2 : Rect) :
  pairwise_disjoint l = true ->
  l !! i = Some r1 -> l !! j = Some r2 -> i <> j ->
  rects_disjoint r1 r2 = true.
Proof.
  revert i j. induction l as [| r l IH]; intros i j Hp Hi Hj Hne;
    [discriminate |].
  cbn [pairwise_disjoint] in Hp. apply andb_prop in Hp as [Hall Hp].
  rewrite forallb_forall in Hall.
  destruct i as [| i], j as [| j]; cbn in Hi, Hj.
  - contradiction.
  - injection Hi as <-. apply Hall.
    apply list_elem_of_In, list_elem_of_lookup. now exists j.
  - injection Hj as <-. rewrite rects_disjoint_sym. apply Hall.
    apply list_elem_of_In, list_elem_of_lookup. now exists i.
  - apply (IH i j); [exact Hp | exact Hi | exact Hj | lia].
Qed.

Lemma length_btns : length btns = 8%nat.
Proof. vm_compute. reflexivity. Qed.

Lemma click_targets_disjoint : pairwise_disjoint click_targets = true.
Proof. vm_compute. reflexivity. Qed.

(** X16. The eight instrument buttons carry the eight instrument names in
    order, they all lie inside the instruments area, the four octave and
    volume buttons lie inside the controls column, and no two of these
    twelve rectangles share a point: a click hits at most one button. *)
Theorem buttons_layout :
  btns.*1 = instruments
  /\ Forall (fun rect => rect_inside rect instruments_area = true) btns.*2
  /\ Forall (fun rect => rect_inside rect controls_area = true)
            [oct_down; oct_up; vol_down; vol_up]
  /\ forall (i j : nat) (r1 r2 : Rect) (pos : Z * Z),
       click_targets !! i = Some r1 -> click_targets !! j = Some r2 ->
       i <> j -> collidepoint r1 pos = true -> collidepoint r2 pos = false.
Proof.
  split; [apply btns_names |]. split; [| split].
  - apply Forall_forall. intros rect Hin.
    apply list_elem_of_In in Hin. revert rect Hin.
    apply forallb_forall. vm_compute. reflexivity.
  - repeat constructor.
  - intros i j r1 r2 pos Hi Hj Hne.
    apply rects_disjoint_miss.
    exact (pairwise_disjoint_lookup _ i j r1 r2 click_targets_disjoint
             Hi Hj Hne).
Qed.

Lemma buttons_hit (pos : Z * Z) (l : list (string * Rect)) (i : nat)
    (name : string) (rect : Rect) (st : state) :
  l !! i = Some (name, rect) -> collidepoint rect pos = true ->
  (forall j n r, j <> i -> l !! j = Some (n, r) -> collidepoint r pos = false) ->
  foldl (fun st '(name, rect) =>
           when (collidepoint rect pos)
                (fun st => clear_cache (set_instrument name st)) st)
        st l
  = clear_cache (set_instrument name st).
Proof.
  revert i st. induction l as [| [n r] l IH]; intros i st Hi Hc Hothers;
    [discriminate |].
  cbn [foldl]. destruct i as [| i]; cbn in Hi.
  - injection Hi as -> ->. rewrite Hc. cbn [when].
    clear IH. assert (Hmiss : forall j n r, l !! j = Some (n, r) ->
                                collidepoint r pos = false).
    { intros j n r Hj. apply (Hothers (S j) n r); [lia | exact Hj]. }
    clear Hothers Hc. generalize (clear_cache (set_instrument name st)).
    induction l as [| [n r] l IH]; intros st0; [reflexivity |].
    cbn [foldl]. rewrite (Hmiss 0%nat n r) by reflexivity. cbn [when].
    apply IH. intros j n' r' Hj. apply (Hmiss (S j) n' r'). exact Hj.
  - rewrite (Hothers 0%nat n r) by (lia || reflexivity). cbn [when].
    apply (IH i); [exact Hi | exact Hc |].
    intros j n' r' Hne Hj. apply (Hothers (S j) n' r'); [lia | exact Hj].
Qed.

Lemma buttons_miss (pos : Z * Z) (l : list (string * Rect)) (st : state) :
  (forall n r, (n, r) ∈ l -> collidepoint r pos = false) ->
  foldl (fun st '(name, rect) =>
           when (collidepoint rect pos)
                (fun st => clear_cache (set_instrument name st)) st)
        st l
  = st.
Proof.
  revert st. induction l as [| [n r] l IH]; intros st Hmiss; [reflexivity |].
  cbn [foldl]. rewrite (Hmiss n r) by (apply elem_of_cons; now left).
  cbn [when]. apply IH. intros n' r' Hin. apply (Hmiss n' r').
  apply elem_of_cons. now right.
Qed.

(** X17. A left click inside the button of an instrument selects that
    instrument and empties the sound cache; octave shift, volume, active
    channels, the running flag and the log stay as they are.  A click with
    another mouse button, or a left click outside all twelve buttons,
    changes nothing. *)
Theorem click_selects_instrument (st : state) (name : string) (rect : Rect)
    (pos : Z * Z) (button : Z) (answer : option Channel) :
  ((name, rect) ∈ btns -> collidepoint rect pos = true ->
   handle_event st (MOUSEBUTTONDOWN 1 pos) answer
   = Ok (State name (octave_shift st) (volume st) [] (active_channels st)
           (running st) (random st) (log st)))
  /\ (button <> 1%Z ->
      handle_event st (MOUSEBUTTONDOWN button pos) answer = Ok st)
  /\ ((forall r, r ∈ click_targets -> collidepoint r pos = false) ->
      handle_event st (MOUSEBUTTONDOWN 1 pos) answer = Ok st).
Proof.
  split; [| split].
  - intros Hin Hc. apply list_elem_of_lookup in Hin as [i Hi].
    assert (Hi2 : click_targets !! i = Some rect).
    { unfold click_targets. rewrite lookup_app_l.
      - now rewrite list_lookup_fmap, Hi.
      - rewrite length_fmap. now apply lookup_lt_Some in Hi. }
    assert (Hlen : (i < 8)%nat)
      by (apply lookup_lt_Some in Hi; now rewrite length_btns in Hi).
    assert (Hctl : forall k r, [oct_down; oct_up; vol_down; vol_up] !! k
                               = Some r -> collidepoint r pos = false).
    { intros k r Hk.
      apply (rects_disjoint_miss rect r pos); [| exact Hc].
      apply (pairwise_disjoint_lookup click_targets i (8 + k) rect r
               click_targets_disjoint Hi2); [| lia].
      unfold click_targets.
      rewrite lookup_app_r by (rewrite length_fmap, length_btns; lia).
      rewrite length_fmap, length_btns.
      replace (8 + k - 8)%nat with k by lia.
      exact Hk. }
    cbn [handle_event]. change (1 =? 1)%Z with true. cbv iota.
    rewrite (buttons_hit pos btns i name rect st Hi Hc).
    + rewrite (Hctl 0%nat oct_down), (Hctl 1%nat oct_up),
        (Hctl 2%nat vol_down), (Hctl 3%nat vol_up) by reflexivity.
      reflexivity.
    + intros j n r Hne Hj.
      apply (rects_disjoint_miss rect r pos); [| exact Hc].
      apply (pairwise_disjoint_lookup click_targets i j rect r
               click_targets_disjoint Hi2); [| lia].
      unfold click_targets. rewrite lookup_app_l.
      * now rewrite list_lookup_fmap, Hj.
      * rewrite length_fmap. now apply lookup_lt_Some in Hj.
  - intros Hb. cbn [handle_event].
    destruct (Z.eqb_spec button 1); [contradiction | reflexivity].
  - intros Hmiss. cbn [handle_event]. change (1 =? 1)%Z with true. cbv iota.
    rewrite buttons_miss.
    + rewrite !Hmiss; [reflexivity | | | |]; unfold click_targets;
        apply elem_of_app; right;
        repeat (first [apply elem_of_cons; now left
                      | apply elem_of_cons; right]).
    + intros n r Hin. apply Hmiss. unfold click_targets.
      apply elem_of_app. left.
      apply (list_elem_of_fmap_2 snd) in Hin. exact Hin.
Qed.

Lemma click_selects_instrument_witness :
  handle_event (initial_state (fun _ => 0)) (MOUSEBUTTONDOWN 1 (250, 120)%Z)
    None
  = Ok (State "Organ" 0 0.45 [] ∅ true (fun _ => 0) []).
Proof.
  destruct (click_selects_instrument (initial_state (fun _ => 0)) "Organ"
              (MkRect 200 109 110 34) (250, 120)%Z 1 None) as [Hhit _].
  apply Hhit.
  - vm_compute btns. apply elem_of_cons; right. apply elem_of_cons. now left.
  - reflexivity.
Defined.

(** ** Key labels *)

Lemma floor_quotient (t : Z) : Zfloor (IZR t / 12) = (t `div` 12)%Z.
Proof.
  apply Zfloor_eq.
  pose proof (Z.div_mod t 12 ltac:(lia)) as Hdm.
  pose proof (Z.mod_pos_bound t 12 ltac:(lia)) as [Hm0 Hm12].
  assert (Ht : IZR t = 12 * IZR (t `div` 12) + IZR (t `mod` 12)).
  { rewrite Hdm at 1. now rewrite plus_IZR, mult_IZR. }
  apply IZR_le in Hm0. apply IZR_lt in Hm12. split; lra.
Qed.

Lemma current_note_name_label (st : state) (semitone_offset : Z) :
  current_note_name st semitone_offset
  = Ok (note_label (semitone_offset + octave_shift st * 12)).
Proof.
  unfold current_note_name, note_label. cbv zeta.
  set (t := (semitone_offset + octave_shift st * 12)%Z).
  pose proof (Z.mod_pos_bound t 12 ltac:(lia)) as Hm.
  replace ((t `mod` 12 + 12) `mod` 12)%Z with (t `mod` 12)%Z.
  2:{ replace (t `mod` 12 + 12)%Z with (t `mod` 12 + 1 * 12)%Z by lia.
      rewrite Z.mod_add by lia. symmetry. apply Z.mod_small. lia. }
  unfold Py.list_getitem. cbv zeta.
  destruct (Z.ltb_spec (t `mod` 12) 0) as [? | _]; [lia |].
  destruct (Z.leb_spec 0 (t `mod` 12)) as [_ | ?]; [| lia].
  destruct (NOTE_NAMES !! Z.to_nat (t `mod` 12)) as [name |] eqn:Hname.
  - cbn [mbind result_bind default]. now rewrite floor_quotient.
  - apply lookup_ge_None in Hname. cbn [length NOTE_NAMES] in Hname. lia.
Qed.

(** X18. For the totals that [main] forms, with the semitone offsets 0..12
    of the keyboard map and the octave shifts -2..2 of the controls, the
    label is found without an [IndexError]: it is the name at position
    [total mod 12] of the twelve note names followed by the decimal octave
    number [4 + total div 12] (for totals this small the floor of the
    float quotient is the integer quotient); so twelve semitones more show
    the same name one octave higher. *)
Theorem current_note_name_total (st : state) (semitone_offset : Z) :
  (0 <= semitone_offset <= 12)%Z -> (-2 <= octave_shift st <= 2)%Z ->
  let total := (semitone_offset + octave_shift st * 12)%Z in
  exists name : string,
    NOTE_NAMES !! Z.to_nat (total `mod` 12) = Some name
    /\ current_note_name st semitone_offset
       = Ok (name +:+ pretty (4 + total `div` 12)%Z)
    /\ current_note_name st (semitone_offset + 12)
       = Ok (name +:+ pretty (4 + total `div` 12 + 1)%Z).
Proof.
  intros _ _ total.
  pose proof (Z.mod_pos_bound total 12 ltac:(lia)) as Hm.
  destruct (NOTE_NAMES !! Z.to_nat (total `mod` 12)) as [name |] eqn:Hname.
  - exists name. split; [reflexivity |].
    rewrite !current_note_name_label. fold total. unfold note_label.
    replace (semitone_offset + 12 + octave_shift st * 12)%Z
      with (total + 1 * 12)%Z by (unfold total; lia).
    rewrite Z.mod_add, Z.div_add by lia. rewrite Hname. cbn [default].
    split; [reflexivity |]. do 3 f_equal. lia.
  - apply lookup_ge_None in Hname. cbn [length NOTE_NAMES] in Hname. lia.
Qed.

Lemma current_note_name_total_witness :
  current_note_name (initial_state (fun _ => 0)) 9 = Ok "A4".
Proof.
  destruct (current_note_name_total (initial_state (fun _ => 0)) 9)
    as (name & Hname & Hcur & _); [lia | cbn; lia |].
  rewrite Hcur. vm_compute in Hname. injection Hname as <-.
  vm_compute. reflexivity.
Defined.

Lemma labels_distinct : NoDup (note_label <$> seqZ (-24) 61).
Proof. apply (bool_decide_unpack _). vm_compute. exact I. Qed.

Lemma note_label_inj (t t' : Z) :
  (-24 <= t <= 36)%Z -> (-24 <= t' <= 36)%Z ->
  note_label t = note_label t' -> t = t'.
Proof.
  intros Ht Ht' Heq.
  pose proof labels_distinct as Hnd. rewrite NoDup_alt in Hnd.
  assert (Hi : forall u, (-24 <= u <= 36)%Z ->
                 (note_label <$> seqZ (-24) 61) !! Z.to_nat (u + 24)
                 = Some (note_label u)).
  { intros u Hu. rewrite list_lookup_fmap, lookup_seqZ_lt by lia.
    cbn. do 2 f_equal. lia. }
  pose proof (Hnd _ _ _ (Hi t Ht) (eq_ind_r (fun s => _ !! _ = Some s)
                                     (Hi t' Ht') Heq)).
  lia.
Qed.

(** X19. With the semitone offsets of the keyboard map and octave shifts
    between -2 and 2, two keys show the same label exactly when they sound
    the same frequency. *)
Theorem note_name_tells_pitch (st st' : state) (s s' : Z) :
  (0 <= s <= 12)%Z -> (0 <= s' <= 12)%Z ->
  (-2 <= octave_shift st <= 2)%Z -> (-2 <= octave_shift st' <= 2)%Z ->
  current_note_name st s = current_note_name st' s'
  <-> semitone_to_freq s (octave_shift st)
      = semitone_to_freq s' (octave_shift st').
Proof.
  intros Hs Hs' Ho Ho'. rewrite !current_note_name_label.
  set (t := (s + octave_shift st * 12)%Z).
  set (t' := (s' + octave_shift st' * 12)%Z).
  split.
  - intros [= Heq]. apply note_label_inj in Heq; [| unfold t; lia
                                                   | unfold t'; lia].
    unfold semitone_to_freq. fold t t'. now rewrite Heq.
  - intros Hf. destruct (Z.lt_trichotomy t t') as [Hlt | [-> | Hgt]];
      [| reflexivity |].
    + pose proof (semitone_to_freq_mono s (octave_shift st) s'
                    (octave_shift st') ltac:(unfold t, t' in Hlt; lia)).
      lra.
    + pose proof (semitone_to_freq_mono s' (octave_shift st') s
                    (octave_shift st) ltac:(unfold t, t' in Hgt; lia)).
      lra.
Qed.

Lemma note_name_tells_pitch_witness :
  current_note_name (set_octave_shift 0 (initial_state (fun _ => 0))) 12
  = current_note_name (set_octave_shift 1 (initial_state (fun _ => 0))) 0.
Proof.
  apply (note_name_tells_pitch
           (set_octave_shift 0 (initial_state (fun _ => 0)))
           (set_octave_shift 1 (initial_state (fun _ => 0))) 12 0);
    cbn; try lia.
  reflexivity.
Defined.

(** ** What the cache holds *)

(** X20. In every state reached by handling events, every sound in the
    cache has 264600 frames, six seconds at 44100 Hz, with the same sample
    in both channels and no sample above [32767 * volume] in magnitude, the
    volume being the one the state has now. *)
Theorem reachable_sounds (st : state) (key : RenderKey) (snd : Sound) :
  reachable st -> (key, snd) ∈ sound_cache st ->
  Z.of_nat (length snd) = 264600%Z
  /\ Forall (fun frame : Z * Z =>
               frame.1 = frame.2
               /\ Rabs (IZR frame.1) <= 32767 * volume st) snd.
Proof.
  intros Hreach Hin.
  destruct (state_ok_reachable st Hreach) as [(_ & Hv & _) [_ Hall]].
  destruct (Hall key snd Hin) as (semi & g & g' & _ & _ & Hsyn).
  apply synth_note_inv in Hsyn as (sig & Hsig & ->). split.
  - rewrite length_finish_note.
    rewrite (synth_signal_length _ _ _ _ _ _ _ note_duration_samples Hsig).
    lia.
  - apply finish_note_peak. lra.
Qed.

Lemma reachable_sounds_witness :
  exists (st : state) (key : RenderKey) (snd : Sound),
    run (initial_state (fun _ => 0)) [(KEYDOWN K_a, Some (0%nat : Channel))]
    = Ok st
    /\ (key, snd) ∈ sound_cache st
    /\ Z.of_nat (length snd) = 264600%Z.
Proof.
  destruct (for_each_note_on_effect K_a 0 false "A" (Some (0%nat : Channel))
              KEYBOARD_MAP (initial_state (fun _ => 0)) keyboard_map_distinct)
    as (snd & st1 & Hg & Hloop).
  { apply elem_of_cons. now left. }
  { apply lookup_empty. }
  assert (Hrun : run (initial_state (fun _ => 0))
                   [(KEYDOWN K_a, Some (0%nat : Channel))]
                 = Ok (set_active_channels
                         (<[K_a := (0%nat : Channel)]> (active_channels st1))
                         (emit (Play K_a (Some (0%nat : Channel))) st1))).
  { cbn [run handle_event].
    change (K_a =? K_ESCAPE)%Z with false.
    change (K_a =? K_LEFTBRACKET)%Z with false.
    change (K_a =? K_RIGHTBRACKET)%Z with false.
    change (K_a =? K_MINUS)%Z with false.
    change (K_a =? K_EQUALS)%Z with false.
    cbn [when]. rewrite Hloop. reflexivity. }
  apply get_sound_effect in Hg as [[Hhit _] | (_ & g' & _ & ->)];
    [discriminate Hhit |].
  eexists _, _, snd. split; [exact Hrun |].
  assert (Hin : ((("Piano-ish", 0%Z, 0%Z, Py.round 0.45 3) : RenderKey), snd)
                ∈ sound_cache
                    (set_active_channels
                       (<[K_a := (0%nat : Channel)]> ∅)
                       (emit (Play K_a (Some (0%nat : Channel)))
                          (State "Piano-ish" 0 0.45
                             [(("Piano-ish", 0%Z, 0%Z, Py.round 0.45 3), snd)]
                             ∅ true g'
                             [SynthNote (semitone_to_freq 0 0) note_duration
                                "Piano-ish" 0.45])))).
  { cbn. apply elem_of_cons. now left. }
  split; [exact Hin |].
  eapply reachable_sounds; [| exact Hin].
  eexists _, _. exact Hrun.
Defined.
